(** * build_ai_index: a shallow embedding of [scripts/build_ai_index.mjs]

    The script lists the files tracked at a revision, and writes a master
    index, filtered lists, inline packs, a sharded "everything" pack and a
    combined pack under [docs/].  This development embeds the parts of the
    script that decide what is inlined, how shards are cut, how the
    filesystem fallback lists files and how the combined pack is
    assembled, and proves the properties the specification states about
    them; then the master index, the filtered lists with their pages, the
    files of the combined pack and the catalog of packs, with further
    properties of the whole run.  The strings [repo], [commit] and
    [branch] are taken as given, and so is the page of the sharded pack.

    The file has two parts: the definitions (strings and buffers, JSON
    values, the records of the script, the script itself, a sample
    repository to run it on), then the properties.

    Conventions.
    - A [Buffer] is a [list byte]; a JavaScript string that holds file
      content is the list of its UTF-16 code units ([jsstring]), so that
      [String.prototype.length] is [length].  Paths and other short
      strings of the script are Rocq [string]s, one character per code
      unit.
    - A JavaScript number that holds a size or a count is an [N].
    - [fs.writeFileSync] appends to a log of writes; the store of files is
      the [gmap] obtained by replaying the log.
    - Built-ins of the runtime that the script calls but does not define
      ([crypto] SHA-256, [JSON.parse], [JSON.stringify],
      [encodeURIComponent], the git and filesystem reads, the limit on
      the length of a string that [buf.toString] enforces) are the fields
      of the class [Runtime]. *)

From Stdlib Require Import NArith ZArith QArith List String Ascii Lia Bool.
From Stdlib.Strings Require Import Byte.
From stdpp Require Import gmap strings list pretty.
Import ListNotations.

Local Open Scope N_scope.

(** ** JavaScript strings *)

(** The content of a file as a JavaScript string: UTF-16 code units. *)
Definition jsstring := list N.

Definition units_of_string (s : string) : jsstring :=
  map N_of_ascii (list_ascii_of_string s).

(** [String.prototype.toLowerCase], on code units below 256: the ASCII
    capitals and the Latin-1 capitals (all of U+00C0..U+00DE but the
    multiplication sign) move up by 32. *)
Definition lower_ascii (c : ascii) : ascii :=
  let n := N_of_ascii c in
  if ((65 <=? n) && (n <=? 90)) || ((192 <=? n) && (n <=? 222) && negb (n =? 215))
  then ascii_of_N (n + 32) else c.

Fixpoint toLowerCase (s : string) : string :=
  match s with
  | EmptyString => EmptyString
  | String c r => String (lower_ascii c) (toLowerCase r)
  end.

(** [s.startsWith(pre)]. *)
Definition startsWith (s pre : string) : bool := String.prefix pre s.

(** [s.endsWith(suf)]: some suffix of [s] is [suf]; the script writes it
    as a regular expression anchored with [$]. *)
Fixpoint endsWith (s suf : string) : bool :=
  String.eqb s suf ||
  match s with
  | EmptyString => false
  | String _ r => endsWith r suf
  end.

(** [s.split(sep)] for a separator of one character: the segments
    between the separators, at least one. *)
Fixpoint split (s : string) (sep : ascii) : list string :=
  match s with
  | EmptyString => [EmptyString]
  | String c r =>
    if Ascii.eqb c sep then EmptyString :: split r sep
    else match split r sep with
         | x :: xs => String c x :: xs
         | [] => [String c EmptyString]
         end
  end.

(** [segs.join(sep)]. *)
Fixpoint join (sep : string) (segs : list string) : string :=
  match segs with
  | [] => EmptyString
  | [x] => x
  | x :: r => x +:+ sep +:+ join sep r
  end.

(** [(p.split(".").pop() || "")]: the text after the last dot, or the
    whole of [p] when it has none. *)
Definition pop_ext (p : string) : string :=
  List.last (split p ".") EmptyString.

(** The regular expressions of the script.  All are case-insensitive
    matches of ASCII literals at one end of the string. *)

(** [/\.mdx?$/i.test(p)] *)
Definition rx_mdx (p : string) : bool :=
  endsWith (toLowerCase p) ".md" || endsWith (toLowerCase p) ".mdx".

(** [/\.(json|ya?ml)$/i.test(p)] *)
Definition rx_json_yaml (p : string) : bool :=
  endsWith (toLowerCase p) ".json" || endsWith (toLowerCase p) ".yml"
  || endsWith (toLowerCase p) ".yaml".

(** [/\.ya?ml$/i.test(p)] *)
Definition rx_yaml (p : string) : bool :=
  endsWith (toLowerCase p) ".yml" || endsWith (toLowerCase p) ".yaml".

(** [/\.(json)$/i.test(p)] *)
Definition rx_json (p : string) : bool := endsWith (toLowerCase p) ".json".

(** [/^docs\//i.test(p)] *)
Definition rx_docs_dir (p : string) : bool := startsWith (toLowerCase p) "docs/".

(** [/^text\//.test(m)] *)
Definition rx_text_media (m : string) : bool := startsWith m "text/".

(** [String(n).padStart(4,'0')] *)
Definition padStart4 (n : N) : string :=
  let s := pretty n in
  string_of_list_ascii (repeat "0"%char (4 - String.length s)%nat) +:+ s.

(** ** Buffers *)

Definition Buffer := list byte.

Definition byte_of_N (n : N) : byte :=
  match Byte.of_N (n mod 256) with
  | Some b => b
  | None => x00
  end.

Definition in_range (lo hi n : N) : bool := (lo <=? n) && (n <=? hi).

Definition REPLACEMENT : N := 0xFFFD.

(** The UTF-16 code units of a code point. *)
Definition units_of_cp (cp : N) : jsstring :=
  if cp <? 0x10000 then [cp]
  else [0xD800 + (cp - 0x10000) / 0x400; 0xDC00 + (cp - 0x10000) mod 0x400].

(** The second byte of a three-byte sequence lies in a range that the
    lead byte narrows (no overlong forms, no surrogates); likewise for
    four-byte sequences (no overlong forms, nothing above U+10FFFF). *)
Definition lower3 (n0 : N) : N := if n0 =? 0xE0 then 0xA0 else 0x80.
Definition upper3 (n0 : N) : N := if n0 =? 0xED then 0x9F else 0xBF.
Definition lower4 (n0 : N) : N := if n0 =? 0xF0 then 0x90 else 0x80.
Definition upper4 (n0 : N) : N := if n0 =? 0xF4 then 0x8F else 0xBF.

Definition cp2 (n0 n1 : N) : N := (n0 - 0xC0) * 64 + (n1 - 0x80).
Definition cp3 (n0 n1 n2 : N) : N :=
  (n0 - 0xE0) * 4096 + (n1 - 0x80) * 64 + (n2 - 0x80).
Definition cp4 (n0 n1 n2 n3 : N) : N :=
  (n0 - 0xF0) * 262144 + (n1 - 0x80) * 4096 + (n2 - 0x80) * 64 + (n3 - 0x80).

(** One step of the UTF-8 decoder at the byte [b0], with the bytes [r0]
    that follow it: the code units it yields and how many bytes of [r0]
    it consumes.  A well-formed sequence yields its code point; an
    ill-formed one yields one U+FFFD and consumes the bytes that were
    still a valid start of a sequence (its maximal subpart), so that
    decoding resumes at the byte that broke it. *)
Definition bad_byte : jsstring * nat := ([REPLACEMENT], 0%nat).

Definition utf8_step (b0 : byte) (r0 : Buffer) : jsstring * nat :=
  let n0 := Byte.to_N b0 in
  if n0 <? 0x80 then ([n0], 0%nat)
  else if in_range 0xC2 0xDF n0 then
    match r0 with
    | [] => bad_byte
    | b1 :: _ =>
      let n1 := Byte.to_N b1 in
      if in_range 0x80 0xBF n1 then ([cp2 n0 n1], 1%nat) else bad_byte
    end
  else if in_range 0xE0 0xEF n0 then
    match r0 with
    | [] => bad_byte
    | b1 :: r1 =>
      let n1 := Byte.to_N b1 in
      if in_range (lower3 n0) (upper3 n0) n1 then
        match r1 with
        | [] => ([REPLACEMENT], 1%nat)
        | b2 :: _ =>
          let n2 := Byte.to_N b2 in
          if in_range 0x80 0xBF n2 then ([cp3 n0 n1 n2], 2%nat)
          else ([REPLACEMENT], 1%nat)
        end
      else bad_byte
    end
  else if in_range 0xF0 0xF4 n0 then
    match r0 with
    | [] => bad_byte
    | b1 :: r1 =>
      let n1 := Byte.to_N b1 in
      if in_range (lower4 n0) (upper4 n0) n1 then
        match r1 with
        | [] => ([REPLACEMENT], 1%nat)
        | b2 :: r2 =>
          let n2 := Byte.to_N b2 in
          if in_range 0x80 0xBF n2 then
            match r2 with
            | [] => ([REPLACEMENT], 2%nat)
            | b3 :: _ =>
              let n3 := Byte.to_N b3 in
              if in_range 0x80 0xBF n3
              then (units_of_cp (cp4 n0 n1 n2 n3), 3%nat)
              else ([REPLACEMENT], 2%nat)
            end
          else ([REPLACEMENT], 1%nat)
        end
      else bad_byte
    end
  else bad_byte.

(** The decoder's loop: [skip] bytes are already consumed by the last
    step. *)
Fixpoint decode_from (skip : nat) (buf : Buffer) : jsstring :=
  match buf with
  | [] => []
  | b0 :: r0 =>
    match skip with
    | S k => decode_from k r0
    | O => let '(units, k) := utf8_step b0 r0 in units ++ decode_from k r0
    end
  end.

(** [buf.toString("utf8")] *)
Definition toString_utf8 (buf : Buffer) : jsstring := decode_from 0 buf.

(** [Buffer.from(s, "utf8")], the bytes a string takes when it is written
    out: a surrogate pair is one four-byte sequence, a lone surrogate is
    written as U+FFFD. *)
Definition utf8_replacement : Buffer := [xef; xbf; xbd].

Fixpoint utf8_encode (s : jsstring) : Buffer :=
  match s with
  | [] => []
  | u :: r =>
    if u <? 0x80 then byte_of_N u :: utf8_encode r
    else if u <? 0x800 then
      byte_of_N (0xC0 + u / 64) :: byte_of_N (0x80 + u mod 64) :: utf8_encode r
    else if in_range 0xD800 0xDBFF u then
      match r with
      | [] => utf8_replacement
      | l :: r' =>
        if in_range 0xDC00 0xDFFF l then
          let cp := 0x10000 + (u - 0xD800) * 0x400 + (l - 0xDC00) in
          byte_of_N (0xF0 + cp / 262144) :: byte_of_N (0x80 + (cp / 4096) mod 64)
          :: byte_of_N (0x80 + (cp / 64) mod 64) :: byte_of_N (0x80 + cp mod 64)
          :: utf8_encode r'
        else utf8_replacement ++ utf8_encode r
      end
    else if in_range 0xDC00 0xDFFF u then utf8_replacement ++ utf8_encode r
    else
      byte_of_N (0xE0 + u / 4096) :: byte_of_N (0x80 + (u / 64) mod 64)
      :: byte_of_N (0x80 + u mod 64) :: utf8_encode r
  end.

(** [Buffer.byteLength(s, "utf8")] *)
Definition byteLength (s : jsstring) : N := N.of_nat (length (utf8_encode s)).

(** Well-formed UTF-8 (the Unicode standard's table of well-formed byte
    sequences). *)
Inductive WellFormedUtf8 : Buffer -> Prop :=
| wf_end : WellFormedUtf8 []
| wf_ascii b0 r :
    Byte.to_N b0 < 0x80 -> WellFormedUtf8 r -> WellFormedUtf8 (b0 :: r)
| wf_two b0 b1 r :
    0xC2 <= Byte.to_N b0 <= 0xDF -> 0x80 <= Byte.to_N b1 <= 0xBF ->
    WellFormedUtf8 r -> WellFormedUtf8 (b0 :: b1 :: r)
| wf_three b0 b1 b2 r :
    0xE0 <= Byte.to_N b0 <= 0xEF ->
    (if Byte.to_N b0 =? 0xE0 then 0xA0 else 0x80) <= Byte.to_N b1
      <= (if Byte.to_N b0 =? 0xED then 0x9F else 0xBF) ->
    0x80 <= Byte.to_N b2 <= 0xBF ->
    WellFormedUtf8 r -> WellFormedUtf8 (b0 :: b1 :: b2 :: r)
| wf_four b0 b1 b2 b3 r :
    0xF0 <= Byte.to_N b0 <= 0xF4 ->
    (if Byte.to_N b0 =? 0xF0 then 0x90 else 0x80) <= Byte.to_N b1
      <= (if Byte.to_N b0 =? 0xF4 then 0x8F else 0xBF) ->
    0x80 <= Byte.to_N b2 <= 0xBF -> 0x80 <= Byte.to_N b3 <= 0xBF ->
    WellFormedUtf8 r -> WellFormedUtf8 (b0 :: b1 :: b2 :: b3 :: r).

(** The base64 alphabet: the character of a six-bit value. *)
Definition b64_char (i : N) : N :=
  if i <? 26 then 65 + i
  else if i <? 52 then 97 + (i - 26)
  else if i <? 62 then 48 + (i - 52)
  else if i =? 62 then 43 else 47.

Definition b64_pad : N := 61.

(** [buf.toString("base64")]: three bytes to four characters, the last
    group padded with [=]. *)
Fixpoint toString_base64 (buf : Buffer) : jsstring :=
  match buf with
  | [] => []
  | [a] =>
    let a := Byte.to_N a in
    [b64_char (a / 4); b64_char ((a mod 4) * 16); b64_pad; b64_pad]
  | [a; b] =>
    let a := Byte.to_N a in let b := Byte.to_N b in
    [b64_char (a / 4); b64_char ((a mod 4) * 16 + b / 16);
     b64_char ((b mod 16) * 4); b64_pad]
  | a :: b :: c :: r =>
    let a := Byte.to_N a in let b := Byte.to_N b in let c := Byte.to_N c in
    b64_char (a / 4) :: b64_char ((a mod 4) * 16 + b / 16)
    :: b64_char ((b mod 16) * 4 + c / 64) :: b64_char (c mod 64)
    :: toString_base64 r
  end.



(** ** JSON values *)

(** A value that [JSON.parse] returns.  A number is kept as a rational
    (every finite double is one); an object is the list of its properties
    in the order [Object.keys] lists them. *)
Inductive JSValue :=
| JNull
| JBool (b : bool)
| JNumber (q : Q)
| JString (s : jsstring)
| JArray (elems : list JSValue)
| JObject (props : list (jsstring * JSValue)).

Definition JNum (n : N) : JSValue := JNumber (inject_Z (Z.of_N n)).
Definition JStr (s : string) : JSValue := JString (units_of_string s).

Definition jsstring_eqb (a b : jsstring) : bool := bool_decide (a = b).

(** [o[key]] on the own properties of an object; [None] is [undefined]. *)
Fixpoint get_prop (key : jsstring) (props : list (jsstring * JSValue)) : option JSValue :=
  match props with
  | [] => None
  | (k, v) :: r => if jsstring_eqb k key then Some v else get_prop key r
  end.

(** [typeof v] *)
Definition typeof (v : JSValue) : string :=
  match v with
  | JNull => "object"
  | JBool _ => "boolean"
  | JNumber _ => "number"
  | JString _ => "string"
  | JArray _ => "object"
  | JObject _ => "object"
  end.

(** [Array.isArray(v)] *)
Definition isArray (v : JSValue) : bool :=
  match v with JArray _ => true | _ => false end.

(** Whether [v] counts as true in a condition. *)
Definition truthy (v : JSValue) : bool :=
  match v with
  | JNull => false
  | JBool b => b
  | JNumber q => negb (Qeq_bool q 0)
  | JString s => negb (jsstring_eqb s [])
  | JArray _ => true
  | JObject _ => true
  end.

(** [Object.keys(v)] for an object, the indices for an array. *)
Definition Object_keys (v : JSValue) : list jsstring :=
  match v with
  | JObject props => map fst props
  | JArray elems => map (fun i => units_of_string (pretty (N.of_nat i))) (seq 0 (length elems))
  | _ => []
  end.

(** ** Records of the script *)

(** What [mediaTypeFor] returns: a MIME string from its table or the
    default; for the two lower-case names that every object inherits
    ([constructor], [__proto__]) the inherited property, which is no
    string. *)
Inductive MediaType :=
| Mime (s : string)
| Inherited (key : string).

(** An entry of [files]. *)
Module File.
Record t := mk {
  path : string;
  size : N;
  git_blob_sha : string;
  media_type : MediaType;
  raw_url : string;
  html_url : string
}.
End File.

Inductive InlineState := full | preview | none.
Inductive Encoding := utf8 | base64.

(** The object [jsonShapeHint] returns. *)
Module ShapeHint.
Record t := mk {
  type : string;
  length : option N;
  sample : option (list JSValue);
  keys : option (list jsstring)
}.
End ShapeHint.

(** An item of a pack.  A field of type [option] is a property the item
    has only when inlined; [json_hint] is [None] also when the property
    is [undefined], which [JSON.stringify] leaves out. *)
Module Item.
Record t := mk {
  path : string;
  size : N;
  sha : string;
  media_type : MediaType;
  raw_url : string;
  html_url : string;
  inline_state : InlineState;
  max_inline_text_bytes : N;
  max_inline_bin_bytes : N;
  preview_text_bytes : N;
  encoding : option Encoding;
  content : option jsstring;
  inline_bytes : option N;
  content_sha256 : option string;
  json_hint : option ShapeHint.t
}.
End Item.

(** The object a pack file holds ([repo], [commit] and [updated_utc] are
    the same in all of them). *)
Module Pack.
Record t := mk {
  schema : string;
  count : N;
  items : list Item.t
}.
End Pack.

(** An entry of [shards]. *)
Module ShardInfo.
Record t := mk {
  name : string;
  count : N;
  approx_bytes : N
}.
End ShardInfo.

(** A section of the combined pack: [{ count: p.items.length, items: p.items }];
    [count] is [None] when [p.items] has no [length]. *)
Module CombinedSection.
Record t := mk {
  count : option JSValue;
  items : JSValue
}.
End CombinedSection.

(** A directory entry as [fs.readdirSync] and [fs.statSync] show it. *)
Inductive Dirent :=
| FileEnt (name : string) (size : N)
| DirEnt (name : string) (ents : list Dirent).

(** One call of [fs.writeFileSync]: the path and the text written. *)
Definition write : Type := string * jsstring.

(** The files on disk after the writes of a log, oldest first. *)
Definition replay (log : list write) (store : gmap string jsstring) : gmap string jsstring :=
  fold_left (fun m w => <[fst w := snd w]> m) log store.

(** ** Limits and policy *)

Definition TEXT_EXT : gset string :=
  {[ "md"; "mdx"; "json"; "js"; "mjs"; "css"; "html"; "yml"; "yaml"; "txt"; "svg" ]}.
Definition INLINE_TEXT_BYTES : N := 600 * 1024.
Definition INLINE_BIN_BYTES : N := 200 * 1024.
Definition PREVIEW_TEXT_BYTES : N := 64 * 1024.

Definition ALWAYS_TEXT_FULL_PATHS : gset string :=
  {[ "dog-gifts.json"; "dog-gifts.schema.json" ]}.

Definition has (s : gset string) (x : string) : bool := bool_decide (x ∈ s).

Definition alwaysFullText (p : string) : bool :=
  if has ALWAYS_TEXT_FULL_PATHS p then true else rx_docs_dir p.

Definition media_table : list (string * string) :=
  [ ("json", "application/json"); ("schema", "application/json");
    ("js", "application/javascript"); ("mjs", "application/javascript");
    ("css", "text/css"); ("html", "text/html"); ("md", "text/markdown");
    ("mdx", "text/markdown"); ("txt", "text/plain");
    ("svg", "image/svg+xml"); ("png", "image/png"); ("jpg", "image/jpeg");
    ("jpeg", "image/jpeg"); ("webp", "image/webp"); ("ico", "image/x-icon");
    ("pdf", "application/pdf"); ("xml", "application/xml");
    ("yml", "text/yaml"); ("yaml", "text/yaml") ].

Fixpoint assoc (k : string) (l : list (string * string)) : option string :=
  match l with
  | [] => None
  | (k', v) :: r => if String.eqb k' k then Some v else assoc k r
  end.

Definition mediaTypeFor (p : string) : MediaType :=
  let ext := List.last (split (toLowerCase p) ".") EmptyString in
  match assoc ext media_table with
  | Some m => Mime m
  | None =>
    if String.eqb ext "constructor" || String.eqb ext "__proto__" then Inherited ext
    else Mime "application/octet-stream"
  end.

Definition isTextPath (p : string) : bool :=
  let ext := toLowerCase (pop_ext p) in
  has TEXT_EXT ext ||
  match mediaTypeFor p with
  | Mime m => rx_text_media m
  | Inherited _ => false
  end.

Definition SHARD_TARGET_BYTES : N := 4 * 1024 * 1024.
Definition SHARD_MAX_ITEMS : N := 500.

Definition CORE_SET : gset string :=
  {[ "index.html"; "app.js"; "app-pdf.js"; "app-curves-inline.js";
     "app-celebrate.js"; "service-worker.js"; "js/runtime-fetch.js";
     "dog-gifts.json"; "dog-gifts.schema.json"; "style.css"; "manifest.json" ]}.

(** The predicates of the four targeted packs. *)
Definition docs_predicate (f : File.t) : bool :=
  startsWith (File.path f) "docs/" && rx_mdx (File.path f).
Definition data_config_predicate (f : File.t) : bool :=
  startsWith (toLowerCase (File.path f)) "data/" && rx_json_yaml (File.path f).
Definition core_predicate (f : File.t) : bool := has CORE_SET (File.path f).
Definition ci_predicate (f : File.t) : bool :=
  startsWith (File.path f) ".github/workflows/" && rx_yaml (File.path f).

(** The predicate of the sharded pack: generated outputs and git
    internals are left out. *)
Definition everything_predicate (f : File.t) : bool :=
  negb (startsWith (File.path f) "docs/ai-") && negb (startsWith (File.path f) ".git/").

(** ** The runtime

    What the script takes from its environment: the three strings fixed
    when it starts, and the built-ins it calls. *)
Class Runtime := {
  (** [repo], [commit] and [updatedUtc] *)
  repo : string;
  commit : string;
  updatedUtc : string;
  (** [crypto.createHash("sha256").update(buf).digest("hex")] *)
  sha256 : Buffer -> string;
  (** [execSyncBuffer(`git show ${commit}:${p}`)] and [fs.readFileSync(p)];
      [None] when the call throws *)
  git_show : string -> option Buffer;
  readFileSync : string -> option Buffer;
  (** [JSON.parse], [None] when it throws; [JSON.stringify(v)] and
      [JSON.stringify(v, null, 2)] *)
  JSON_parse : jsstring -> option JSValue;
  JSON_stringify : JSValue -> jsstring;
  JSON_stringify_pretty : JSValue -> jsstring;
  encodeURIComponent : string -> string;
  (** the page [docs/ai-pack-everything.html], a template filled with the
      rows of [shards] *)
  everything_html : list ShardInfo.t -> jsstring;
  (** whether [buf.toString("utf8")] throws for the whole of [buf]: the
      text of a file can be longer than a string may be
      ([ERR_STRING_TOO_LONG], above [buffer.constants.MAX_STRING_LENGTH]) *)
  string_too_long : Buffer -> bool
}.


(** ** Further notions

    Helpers of the model that the script does not name, and the records
    of the outputs that are no packs. *)

(** Whether the character [c] occurs in [s]. *)
Fixpoint has_char (c : ascii) (s : string) : bool :=
  match s with
  | EmptyString => false
  | String c' r => Ascii.eqb c' c || has_char c r
  end.

(** The name of a directory entry, and the sizes of the files at or
    below it, in the order a walk meets them. *)
Definition ent_name (e : Dirent) : string :=
  match e with
  | FileEnt name _ => name
  | DirEnt name _ => name
  end.

Fixpoint tree_sizes (e : Dirent) : list N :=
  match e with
  | FileEnt _ size => [size]
  | DirEnt _ ents => flat_map tree_sizes ents
  end.

(** Decimal digits. *)
Definition is_digit (c : ascii) : bool :=
  let n := N_of_ascii c in (48 <=? n) && (n <=? 57).

Fixpoint all_digits (s : string) : bool :=
  match s with
  | EmptyString => true
  | String c r => is_digit c && all_digits r
  end.

(** [s.replace(/c/g, by)] for a pattern of one character. *)
Fixpoint replace_char (c : ascii) (by_ : string) (s : string) : string :=
  match s with
  | EmptyString => EmptyString
  | String a r =>
    if Ascii.eqb a c then by_ +:+ replace_char c by_ r
    else String a (replace_char c by_ r)
  end.

(** [esc] of [writeList]: three replacements, one after the other. *)
Definition esc (s : string) : string :=
  replace_char ">" "&gt;" (replace_char "<" "&lt;" (replace_char "&" "&amp;" s)).

(** [escapeHtml] of the combined pack: one pass over the code units,
    each of [&], [<] and [>] replaced by its entity. *)
Definition escapeHtml (s : jsstring) : jsstring :=
  flat_map (fun u =>
    if u =? 38 then units_of_string "&amp;"
    else if u =? 60 then units_of_string "&lt;"
    else if u =? 62 then units_of_string "&gt;"
    else [u]) s.

(** The literal text of a template: runs of ASCII text, the double
    quote, the line feed and the bullet U+2022. *)
Inductive Piece :=
| Txt (s : string)
| Quote
| Newline
| Bullet.

Definition piece_units (p : Piece) : jsstring :=
  match p with
  | Txt s => units_of_string s
  | Quote => [34]
  | Newline => [10]
  | Bullet => [8226]
  end.

Definition template (ps : list Piece) : jsstring := flat_map piece_units ps.

(** A template literal: its fixed parts with the values of its
    placeholders between them. *)
Fixpoint fill (parts : list (list Piece)) (holes : list jsstring) : jsstring :=
  match parts with
  | [] => []
  | p :: ps =>
    template p ++
    match holes with
    | [] => fill ps []
    | h :: hs => h ++ fill ps hs
    end
  end.

(** [s.slice(0,7)] *)
Definition slice7 (s : string) : string := String.substring 0 7 s.

(** The predicate of the list [ai-data-list]; the lists [ai-docs-list]
    and [ai-data-config-list] are written with the predicates of the
    packs [ai-pack-docs] and [ai-pack-data-config]. *)
Definition data_list_predicate (f : File.t) : bool :=
  startsWith (File.path f) "data/" && rx_mdx (File.path f).

(** An entry of the [files] of a list. *)
Module ListEntry.
Record t := mk {
  path : string;
  size : N;
  sha : string;
  raw_url : string;
  html_url : string
}.
End ListEntry.

(** The object a list file holds. *)
Module FileList.
Record t := mk {
  schema : string;
  count : N;
  files : list ListEntry.t
}.
End FileList.

(** The master index. *)
Module Index.
Record t := mk {
  files_count : N;
  total_bytes : N;
  files : list File.t
}.
End Index.

(** An entry of [PACK_CATALOG].  [count] is [None] when the sum that
    computes it is [NaN]. *)
Module CatalogEntry.
Record t := mk {
  name : string;
  count : option N;
  bytes_min : N;
  files : list string
}.
End CatalogEntry.

(** What [x.items.length] gives for a value [x] read back from a pack
    file: a number when the items are an array or a string, [undefined]
    when they are a boolean or a number, an exception when there are
    none to take the length of; the length of any other object is left
    out of the model. *)
Inductive Length :=
| Len (n : N)
| Undefined
| Throws
| NotModelled.

(** How a run of the script ends: all files written and the catalog of
    packs, or the files written before an exception; [Unmodelled] when a
    pack file holds items whose length the model leaves out. *)
Inductive Outcome :=
| Completed (log : list write) (catalog : list CatalogEntry.t)
| Aborted (log : list write)
| Unmodelled.

Definition outcome_log (o : Outcome) : list write :=
  match o with
  | Completed log _ => log
  | Aborted log => log
  | Unmodelled => []
  end.

(** The fixed text of the pages. *)
Definition list_page_parts : list (list Piece) :=
  [ [ Txt "<!doctype html><meta charset="; Quote; Txt "utf-8"; Quote;
      Txt "><title>Barkday "; Bullet; Txt " " ];
    [ Txt "</title>"; Newline; Txt "<style>"; Newline;
      Txt "  body{font:14px system-ui;margin:24px;max-width:1100px}"; Newline;
      Txt "  table{width:100%;border-collapse:collapse}"; Newline;
      Txt "  th,td{border-bottom:1px solid #eee;padding:8px;text-align:left}"; Newline;
      Txt "  .mono{font-family:ui-monospace,Consolas,monospace}"; Newline; Txt "</style>";
      Newline; Txt "<h1>" ];
    [ Txt " (" ];
    [ Txt ")</h1>"; Newline; Txt "<p><small>Commit <code>" ];
    [ Txt "</code> "; Bullet; Txt " " ];
    [ Txt "</small></p>"; Newline;
      Txt "<table><thead><tr><th>Path</th><th>Size</th><th>Raw</th><th>HTML</th></tr></thead><tbody>";
      Newline ];
    [ Newline; Txt "</tbody></table>" ] ].

Definition list_row_parts : list (list Piece) :=
  [ [ Txt "<tr><td class="; Quote; Txt "mono"; Quote; Txt ">" ];
    [ Txt "</td><td>" ];
    [ Txt "</td><td><a href="; Quote ];
    [ Quote; Txt " target="; Quote; Txt "_blank"; Quote; Txt " rel="; Quote;
      Txt "noopener"; Quote; Txt ">raw</a></td><td><a href="; Quote ];
    [ Quote; Txt " target="; Quote; Txt "_blank"; Quote; Txt " rel="; Quote;
      Txt "noopener"; Quote; Txt ">view</a></td></tr>" ] ].

Definition list_no_rows : list Piece :=
  [ Txt "<tr><td colspan="; Quote; Txt "4"; Quote; Txt ">No matching files.</td></tr>" ].

Definition all_page_parts : list (list Piece) :=
  [ [ Txt "<!doctype html><meta charset="; Quote; Txt "utf-8"; Quote; Txt ">"; Newline;
      Txt "<title>Barkday "; Bullet; Txt " ai-pack-all</title>"; Newline; Txt "<style>";
      Newline; Txt "  body{font:14px system-ui;margin:24px;max-width:1100px}"; Newline;
      Txt "  pre{white-space:pre-wrap;word-break:break-word}"; Newline;
      Txt "  code{font-family:ui-monospace,Consolas,monospace}"; Newline;
      Txt "  ul{line-height:1.6}"; Newline;
      Txt "  .mono{font-family:ui-monospace,Consolas,monospace}"; Newline;
      Txt "  .muted{color:#666}"; Newline;
      Txt "  .chips a{display:inline-block;margin-right:10px}"; Newline;
      Txt "  .warn{background:#fff4ce;padding:8px 10px;border-radius:8px}"; Newline;
      Txt "  .ok{background:#e9fff0;padding:8px 10px;border-radius:8px}"; Newline;
      Txt "  .pill{display:inline-block;padding:2px 8px;border-radius:999px;background:#eee}";
      Newline;
      Txt "  .grid{display:grid;grid-template-columns:repeat(auto-fit,minmax(260px,1fr));gap:12px;margin:14px 0}";
      Newline; Txt "  .card{border:1px solid #eee;border-radius:10px;padding:12px}";
      Newline; Txt "  .card h3{margin:0 0 6px 0}"; Newline; Txt "</style>"; Newline;
      Txt "<h1>ai-pack-all</h1>"; Newline; Txt "<p><small>Commit <code>" ];
    [ Txt "</code> "; Bullet; Txt " " ];
    [ Txt "</small></p>"; Newline; Newline; Txt "<div class="; Quote; Txt "grid"; Quote;
      Txt ">"; Newline; Txt "  <div class="; Quote; Txt "card"; Quote; Txt ">"; Newline;
      Txt "    <h3>Quick links</h3>"; Newline; Txt "    <ul>"; Newline;
      Txt "      <li><a href="; Quote; Txt "ai-docs-list.html"; Quote;
      Txt ">Docs list (HTML)</a> <span class="; Quote; Txt "muted"; Quote; Txt ">"; Bullet;
      Txt " browse & click raw</span></li>"; Newline; Txt "      <li><a href="; Quote;
      Txt "ai-docs-list.min.json"; Quote; Txt ">Docs list (JSON)</a></li>"; Newline;
      Txt "      <li><a href="; Quote; Txt "ai-pack-docs.txt"; Quote;
      Txt ">Docs pack (.txt)</a></li>"; Newline; Txt "    </ul>"; Newline; Txt "  </div>";
      Newline; Txt "  <div class="; Quote; Txt "card"; Quote; Txt ">"; Newline;
      Txt "    <h3>Data/Config</h3>"; Newline; Txt "    <ul>"; Newline;
      Txt "      <li><a href="; Quote; Txt "ai-data-config-list.min.json"; Quote;
      Txt ">data/*.json|*.yaml (list)</a></li>"; Newline; Txt "      <li><a href="; Quote;
      Txt "ai-pack-data-config.txt"; Quote; Txt ">data-config pack (.txt)</a></li>";
      Newline; Txt "    </ul>"; Newline; Txt "  </div>"; Newline; Txt "  <div class=";
      Quote; Txt "card"; Quote; Txt ">"; Newline; Txt "    <h3>Core & CI</h3>"; Newline;
      Txt "    <ul>"; Newline; Txt "      <li><a href="; Quote; Txt "ai-pack-core.txt";
      Quote; Txt ">core pack (.txt)</a></li>"; Newline; Txt "      <li><a href="; Quote;
      Txt "ai-pack-ci.txt"; Quote; Txt ">CI workflows pack (.txt)</a></li>"; Newline;
      Txt "    </ul>"; Newline; Txt "  </div>"; Newline; Txt "  <div class="; Quote;
      Txt "card"; Quote; Txt ">"; Newline; Txt "    <h3>Everything (for deep dives)</h3>";
      Newline; Txt "    <ul>"; Newline; Txt "      <li><a href="; Quote;
      Txt "ai-pack-everything.html"; Quote; Txt ">Everything index (HTML)</a></li>";
      Newline; Txt "      <li><a href="; Quote; Txt "ai-pack-everything.manifest.min.json";
      Quote; Txt ">Everything manifest (JSON)</a></li>"; Newline; Txt "    </ul>"; Newline;
      Txt "  </div>"; Newline; Txt "</div>"; Newline; Newline; Txt "<p class="; Quote;
      Txt "muted"; Quote; Txt ">Machine-readable combined pack (below):</p>"; Newline;
      Txt "<pre id="; Quote; Txt "data"; Quote; Txt ">" ];
    [ Txt "</pre>" ] ].

(** A name under which the script writes: under [docs/ai-], and no
    Markdown. *)
Definition generated (k : string) : bool :=
  startsWith k "docs/ai-" && negb (rx_mdx k).

(** ** The lines of [git ls-tree -r --long]

    The pattern [/^\d+\s+\w+\s+([0-9a-f]{40})\s+(\d+)\t(.+)$/] of
    [filesFromGitTree].  Any two classes that follow each other in it
    have no character in common, so that a line matches in one way at
    most, each repetition taking the longest run of its class. *)

(** [\s], on code units below 256 *)
Definition is_space (c : ascii) : bool :=
  let n := N_of_ascii c in ((9 <=? n) && (n <=? 13)) || (n =? 32) || (n =? 160).

(** [\w] *)
Definition is_word (c : ascii) : bool :=
  let n := N_of_ascii c in
  ((48 <=? n) && (n <=? 57)) || ((65 <=? n) && (n <=? 90))
  || ((97 <=? n) && (n <=? 122)) || (n =? 95).

(** [[0-9a-f]] *)
Definition is_hex (c : ascii) : bool :=
  let n := N_of_ascii c in ((48 <=? n) && (n <=? 57)) || ((97 <=? n) && (n <=? 102)).

(** What [.] does not match: the line terminators. *)
Definition is_line_terminator (c : ascii) : bool :=
  let n := N_of_ascii c in (n =? 10) || (n =? 13).

(** The longest prefix of characters of a class, and what follows it. *)
Fixpoint span (p : ascii -> bool) (s : string) : string * string :=
  match s with
  | EmptyString => (EmptyString, EmptyString)
  | String c r =>
    if p c then let '(a, b) := span p r in (String c a, b)
    else (EmptyString, s)
  end.

(** A repetition [+] of a class: the longest run, of one character at
    least. *)
Definition run1 (p : ascii -> bool) (s : string) : option (string * string) :=
  match span p s with
  | (EmptyString, _) => None
  | (a, b) => Some (a, b)
  end.

Fixpoint all_chars (p : ascii -> bool) (s : string) : bool :=
  match s with
  | EmptyString => true
  | String c r => p c && all_chars p r
  end.

(** [Number(s)] for a string of decimal digits, from the value [acc] of
    the digits read. *)
Fixpoint number_of_digits (acc : N) (s : string) : N :=
  match s with
  | EmptyString => acc
  | String c r => number_of_digits (10 * acc + (N_of_ascii c - 48)) r
  end.

(** [line.match(...)]: the three groups, [Number] applied to the
    second. *)
Definition match_line (line : string) : option (string * N * string) :=
  match run1 is_digit line with
  | None => None
  | Some (_, s1) =>
  match run1 is_space s1 with
  | None => None
  | Some (_, s2) =>
  match run1 is_word s2 with
  | None => None
  | Some (_, s3) =>
  match run1 is_space s3 with
  | None => None
  | Some (_, s4) =>
  let '(blobSha, s5) := span is_hex s4 in
  if negb (String.length blobSha =? 40)%nat then None else
  match run1 is_space s5 with
  | None => None
  | Some (_, s6) =>
  match run1 is_digit s6 with
  | None => None
  | Some (sizeStr, s7) =>
  match s7 with
  | String c filePath =>
    if Ascii.eqb c "009"
       && negb (String.eqb filePath EmptyString)
       && all_chars (fun a => negb (is_line_terminator a)) filePath
    then Some (blobSha, number_of_digits 0 sizeStr, filePath)
    else None
  | EmptyString => None
  end end end end end end end.

(** [raw.split("\n").filter(Boolean)], then the lines that match. *)
Definition ls_tree_lines (raw : string) : list (string * N * string) :=
  flat_map (fun line => match match_line line with Some m => [m] | None => [] end)
           (List.filter (fun line => negb (String.eqb line EmptyString)) (split raw "010")).

(** ** The script *)

Section Script.

Context {rt : Runtime}.

Definition enc (p : string) : string :=
  join "/" (map encodeURIComponent (split p "/")).

Definition raw_url_of (p : string) : string :=
  "https://raw.githubusercontent.com/" +:+ repo +:+ "/" +:+ commit +:+ "/" +:+ enc p.
Definition html_url_of (p : string) : string :=
  "https://github.com/" +:+ repo +:+ "/blob/" +:+ commit +:+ "/" +:+ enc p.

(** *** Listing the files *)

(** [filesFromGitTree], on the lines of [git ls-tree -r --long] that
    match its pattern, each given by the three groups it captures. *)
Definition filesFromGitTree (lines : list (string * N * string)) : list File.t :=
  flat_map (fun '(blobSha, size, filePath) =>
    if startsWith filePath ".git/" then []
    else [File.mk filePath size blobSha (mediaTypeFor filePath)
                  (raw_url_of filePath) (html_url_of filePath)]) lines.

(** [path.join(dir, name)] for the name of a directory entry. *)
Definition path_join (dir name : string) : string :=
  if String.eqb dir "." then name else dir +:+ "/" +:+ name.

Fixpoint drop_slashes (s : string) : string :=
  match s with
  | String c r => if Ascii.eqb c "/" || Ascii.eqb c "\" then drop_slashes r else s
  | EmptyString => s
  end.

(** [p.replace(/^[.][/\\]*/, "")] *)
Definition strip_dot (p : string) : string :=
  match p with
  | String c r => if Ascii.eqb c "." then drop_slashes r else p
  | EmptyString => p
  end.

(** The body of the loop of [walk(dir)] for one entry of the directory. *)
Fixpoint walk_entry (dir : string) (e : Dirent) {struct e} : list File.t :=
  match e with
  | FileEnt name size =>
    let p := path_join dir name in
    if startsWith p ".git" then []
    else [File.mk (strip_dot p) size "" (mediaTypeFor p) (raw_url_of p) (html_url_of p)]
  | DirEnt name ents =>
    let p := path_join dir name in
    if startsWith p ".git" then []
    else flat_map (walk_entry p) ents
  end.

(** [walk(dir)], where [ents] is what [fs.readdirSync(dir)] lists. *)
Definition walk (dir : string) (ents : list Dirent) : list File.t :=
  flat_map (walk_entry dir) ents.

(** [files]: the git listing, or the walk of the working directory when
    the listing is empty. *)
Definition gather (lines : list (string * N * string)) (cwd : list Dirent) : list File.t :=
  let files := filesFromGitTree lines in
  if (length files =? 0)%nat then walk "." cwd else files.

(** *** Reading content *)

Definition gitShow (p : string) : option Buffer :=
  match git_show p with
  | Some buf => Some buf
  | None => readFileSync p
  end.

Definition jsonShapeHint (buf : Buffer) : option ShapeHint.t :=
  let text := toString_utf8 buf in
  match JSON_parse text with
  | None => None
  | Some data =>
    let type :=
      if isArray data then "array"
      else if truthy data && String.eqb (typeof data) "object" then "object"
      else typeof data in
    match data with
    | JArray elems =>
      let n := length elems in
      Some (ShapeHint.mk type (Some (N.of_nat n)) (Some (firstn (Nat.min 3 n) elems)) None)
    | _ =>
      if truthy data && String.eqb (typeof data) "object"
      then Some (ShapeHint.mk type None None (Some (firstn 12 (Object_keys data))))
      else Some (ShapeHint.mk type None None None)
    end
  end.

(** *** The inline decision *)

(** The variables a loop body sets before it builds its item:
    [inline_state], [encoding], [content], [content_sha] and [meta]. *)
Record Locals := mkLocals {
  l_inline_state : InlineState;
  l_encoding : option Encoding;
  l_content : option jsstring;
  l_content_sha : option string;
  l_meta : option (option ShapeHint.t)
}.

Definition metadata_only : Locals := mkLocals none None None None None.

Definition slice0 (buf : Buffer) (n : N) : Buffer := firstn (N.to_nat n) buf.

(** What the variables hold when [buf.toString("utf8")] throws in the
    branch that embeds a text in full: [inline_state] and [encoding] are
    already assigned, [content] and [content_sha] are not yet, and the
    [catch] changes nothing. *)
Definition full_text_thrown : Locals := mkLocals full (Some utf8) None None None.

(** The [try] block of [writePack] with its [catch]: when [gitShow]
    throws nothing has been assigned; when the decoding of the whole file
    throws, the variables keep what was assigned before it.  The string
    of a preview has at most [PREVIEW_TEXT_BYTES] code units, and the
    base64 of a file listed with at most [INLINE_BIN_BYTES] bytes about
    four thirds of that: they are within the limit of any runtime. *)
Definition pack_locals (f : File.t) : Locals :=
  let ext := toLowerCase (pop_ext (File.path f)) in
  let isText := has TEXT_EXT ext in
  let mustFull := isText && alwaysFullText (File.path f) in
  match gitShow (File.path f) with
  | None => metadata_only
  | Some buf =>
    if isText then
      if mustFull || (File.size f <=? INLINE_TEXT_BYTES) then
        if string_too_long buf then full_text_thrown
        else mkLocals full (Some utf8) (Some (toString_utf8 buf)) (Some (sha256 buf)) None
      else if 0 <? PREVIEW_TEXT_BYTES then
        mkLocals preview (Some utf8)
          (Some (toString_utf8 (slice0 buf PREVIEW_TEXT_BYTES)))
          (Some (sha256 buf))
          (if String.eqb ext "json" then Some (jsonShapeHint buf) else None)
      else metadata_only
    else if File.size f <=? INLINE_BIN_BYTES then
      mkLocals full (Some base64) (Some (toString_base64 buf)) (Some (sha256 buf)) None
    else metadata_only
  end.

(** The [try] block of the loop of [writeEverythingSharded] with its
    [catch]; what it adds to [bytes] is the length of the content it
    sets, nothing when the decoding throws before [bytes += ...]. *)
Definition everything_locals (f : File.t) : Locals :=
  match gitShow (File.path f) with
  | None => metadata_only
  | Some buf =>
    if isTextPath (File.path f) then
      if alwaysFullText (File.path f) || (File.size f <=? INLINE_TEXT_BYTES) then
        if string_too_long buf then full_text_thrown
        else mkLocals full (Some utf8) (Some (toString_utf8 buf)) (Some (sha256 buf)) None
      else if 0 <? PREVIEW_TEXT_BYTES then
        mkLocals preview (Some utf8)
          (Some (toString_utf8 (slice0 buf PREVIEW_TEXT_BYTES)))
          (Some (sha256 buf))
          (if rx_json (File.path f) then Some (jsonShapeHint buf) else None)
      else metadata_only
    else if File.size f <=? INLINE_BIN_BYTES then
      mkLocals full (Some base64) (Some (toString_base64 buf)) (Some (sha256 buf)) None
    else metadata_only
  end.

Definition content_length (c : option jsstring) : N :=
  match c with
  | Some s => N.of_nat (length s)
  | None => 0
  end.

(** The item both loops build from the file and the variables set. *)
Definition make_item (f : File.t) (l : Locals) : Item.t :=
  let inlined := match l_inline_state l with none => false | _ => true end in
  Item.mk (File.path f) (File.size f) (File.git_blob_sha f) (File.media_type f)
          (File.raw_url f) (File.html_url f) (l_inline_state l)
          INLINE_TEXT_BYTES INLINE_BIN_BYTES PREVIEW_TEXT_BYTES
          (if inlined then l_encoding l else None)
          (if inlined then l_content l else None)
          (if inlined then Some (content_length (l_content l)) else None)
          (if inlined then l_content_sha l else None)
          (if inlined then match l_meta l with Some h => h | None => None end else None).

Definition pack_item (f : File.t) : Item.t := make_item f (pack_locals f).
Definition everything_item (f : File.t) : Item.t := make_item f (everything_locals f).

(** *** Serialization *)

Definition state_name (s : InlineState) : string :=
  match s with full => "full" | preview => "preview" | none => "none" end.

Definition encoding_name (e : Encoding) : string :=
  match e with utf8 => "utf8" | base64 => "base64" end.

Definition key (s : string) : jsstring := units_of_string s.

(** A property that is [undefined] is left out. *)
Definition opt_prop {A} (k : string) (to : A -> JSValue) (o : option A)
  : list (jsstring * JSValue) :=
  match o with
  | Some a => [(key k, to a)]
  | None => []
  end.

(** An inherited function is left out as well; the inherited prototype
    object has no properties of its own. *)
Definition media_prop (m : MediaType) : list (jsstring * JSValue) :=
  match m with
  | Mime s => [(key "media_type", JStr s)]
  | Inherited k =>
    if String.eqb k "constructor" then [] else [(key "media_type", JObject [])]
  end.

Definition hint_to_json (h : ShapeHint.t) : JSValue :=
  JObject ([(key "type", JStr (ShapeHint.type h))]
           ++ opt_prop "length" JNum (ShapeHint.length h)
           ++ opt_prop "sample" JArray (ShapeHint.sample h)
           ++ opt_prop "keys" (fun ks => JArray (map JString ks)) (ShapeHint.keys h)).

Definition item_to_json (i : Item.t) : JSValue :=
  JObject ([(key "path", JStr (Item.path i));
            (key "size", JNum (Item.size i));
            (key "sha", JStr (Item.sha i))]
           ++ media_prop (Item.media_type i)
           ++ [(key "raw_url", JStr (Item.raw_url i));
               (key "html_url", JStr (Item.html_url i));
               (key "inline_state", JStr (state_name (Item.inline_state i)));
               (key "max_inline_text_bytes", JNum (Item.max_inline_text_bytes i));
               (key "max_inline_bin_bytes", JNum (Item.max_inline_bin_bytes i));
               (key "preview_text_bytes", JNum (Item.preview_text_bytes i))]
           ++ opt_prop "encoding" (fun e => JStr (encoding_name e)) (Item.encoding i)
           ++ opt_prop "content" JString (Item.content i)
           ++ opt_prop "inline_bytes" JNum (Item.inline_bytes i)
           ++ opt_prop "content_sha256" JStr (Item.content_sha256 i)
           ++ opt_prop "json_hint" hint_to_json (Item.json_hint i)).

Definition pack_to_json (p : Pack.t) : JSValue :=
  JObject [(key "schema", JStr (Pack.schema p));
           (key "repo", JStr repo);
           (key "commit", JStr commit);
           (key "updated_utc", JStr updatedUtc);
           (key "count", JNum (Pack.count p));
           (key "items", JArray (map item_to_json (Pack.items p)))].

Definition manifest_to_json (shards : list ShardInfo.t) : JSValue :=
  JObject [(key "schema", JStr "barkday.ai-pack-everything.manifest.v1");
           (key "repo", JStr repo);
           (key "commit", JStr commit);
           (key "updated_utc", JStr updatedUtc);
           (key "shards", JArray (map (fun s =>
              JObject [(key "name", JStr (ShardInfo.name s));
                       (key "count", JNum (ShardInfo.count s));
                       (key "approx_bytes", JNum (ShardInfo.approx_bytes s));
                       (key "url_json", JStr ("docs/" +:+ ShardInfo.name s +:+ ".min.json"));
                       (key "url_txt", JStr ("docs/" +:+ ShardInfo.name s +:+ ".txt"))])
              shards))].

(** The three files every pack is written to. *)
Definition pack_writes (name : string) (pack : Pack.t) : list write :=
  let pretty := JSON_stringify_pretty (pack_to_json pack) in
  let min := JSON_stringify (pack_to_json pack) in
  [("docs/" +:+ name +:+ ".json", pretty);
   ("docs/" +:+ name +:+ ".min.json", min);
   ("docs/" +:+ name +:+ ".txt", min)].

(** *** Targeted packs *)

(** [writePack({title, outBase, predicate})]: the pack it builds and the
    files it writes. *)
Definition writePack (files : list File.t) (outBase : string)
    (predicate : File.t -> bool) : Pack.t * list write :=
  let subset := List.filter predicate files in
  let items := map pack_item subset in
  let pack := Pack.mk ("barkday." +:+ outBase +:+ ".v1") (N.of_nat (length items)) items in
  (pack, pack_writes outBase pack).

(** *** The sharded pack *)

(** The variables of [writeEverythingSharded] that its loop and [flush]
    update; [emitted] keeps the [pack] object of every call of [flush]
    that wrote one, and [log] the files written. *)
Record ShardState := mkShardState {
  items : list Item.t;
  bytes : N;
  shardIdx : N;
  shards : list ShardInfo.t;
  emitted : list Pack.t;
  log : list write
}.

Definition shard_init : ShardState := mkShardState [] 0 1 [] [] [].

(** The name of the shard numbered [idx]. *)
Definition shard_name (idx : N) : string := "ai-pack-everything-" +:+ padStart4 idx.

Definition flush (st : ShardState) : ShardState :=
  match items st with
  | [] => st
  | _ :: _ =>
    let name := shard_name (shardIdx st) in
    let pack := Pack.mk "barkday.ai-pack-everything.v1"
                        (N.of_nat (length (items st))) (items st) in
    let min := JSON_stringify (pack_to_json pack) in
    mkShardState [] 0 (shardIdx st + 1)
      (shards st ++ [ShardInfo.mk name (N.of_nat (length (items st))) (N.of_nat (length min))])
      (emitted st ++ [pack])
      (log st ++ pack_writes name pack)
  end.

(** One turn of the loop over [subset]. *)
Definition shard_step (st : ShardState) (f : File.t) : ShardState :=
  let l := everything_locals f in
  let st' := mkShardState (items st ++ [make_item f l])
                          (bytes st + content_length (l_content l))
                          (shardIdx st) (shards st) (emitted st) (log st) in
  if (SHARD_TARGET_BYTES <=? bytes st') || (SHARD_MAX_ITEMS <=? N.of_nat (length (items st')))
  then flush st' else st'.

Definition everything_subset (files : list File.t) : list File.t :=
  List.filter everything_predicate files.

(** The state after the loop and the last [flush]. *)
Definition shard_run (files : list File.t) : ShardState :=
  flush (fold_left shard_step (everything_subset files) shard_init).

(** [writeEverythingSharded()]: the shards listed in the manifest, the
    pack of each shard, and the files written. *)
Definition writeEverythingSharded (files : list File.t)
  : list ShardInfo.t * list Pack.t * list write :=
  let st := shard_run files in
  let manifest := manifest_to_json (shards st) in
  (shards st, emitted st,
   log st ++
   [("docs/ai-pack-everything.manifest.json", JSON_stringify_pretty manifest);
    ("docs/ai-pack-everything.manifest.min.json", JSON_stringify manifest);
    ("docs/ai-pack-everything.html", everything_html (shards st))]).

(** *** The combined pack *)

Definition pack_names : list string :=
  ["ai-pack-docs"; "ai-pack-data-config"; "ai-pack-core"; "ai-pack-ci"].

(** [p.items || []]; [None] when reading the property throws, which it
    does of [null]. *)
Definition items_or_empty (p : JSValue) : option JSValue :=
  match p with
  | JNull => None
  | JObject props =>
    match get_prop (key "items") props with
    | Some v => if truthy v then Some v else Some (JArray [])
    | None => Some (JArray [])
    end
  | _ => Some (JArray [])
  end.

(** [v.length]; [None] is [undefined]. *)
Definition js_length (v : JSValue) : option JSValue :=
  match v with
  | JArray elems => Some (JNum (N.of_nat (length elems)))
  | JString s => Some (JNum (N.of_nat (length s)))
  | JObject props => get_prop (key "length") props
  | _ => None
  end.

(** One element of [packs]: the named pack read back from its minified
    file; [None] when the file is missing or is not JSON. *)
Definition read_pack (store : gmap string jsstring) (name : string)
  : option (string * JSValue) :=
  match store !! ("docs/" +:+ name +:+ ".min.json") with
  | None => None
  | Some text =>
    match JSON_parse text with
    | None => None
    | Some p =>
      match items_or_empty p with
      | None => None
      | Some its => Some (name, its)
      end
    end
  end.

Fixpoint read_packs (store : gmap string jsstring) (names : list string)
  : option (list (string * JSValue)) :=
  match names with
  | [] => Some []
  | n :: r =>
    match read_pack store n, read_packs store r with
    | Some p, Some ps => Some (p :: ps)
    | _, _ => None
    end
  end.

(** [combined.sections], as the list of its entries. *)
Definition combined_sections (store : gmap string jsstring)
  : option (list (string * CombinedSection.t)) :=
  match read_packs store pack_names with
  | None => None
  | Some packs =>
    Some (map (fun p => (fst p, CombinedSection.mk (js_length (snd p)) (snd p))) packs)
  end.

(** [sections[name]] *)
Fixpoint section_of (name : string) (sections : list (string * CombinedSection.t))
  : option CombinedSection.t :=
  match sections with
  | [] => None
  | (n, s) :: r => if String.eqb n name then Some s else section_of name r
  end.

(** The predicate each named pack is written with. *)
Definition predicate_of (name : string) : File.t -> bool :=
  if String.eqb name "ai-pack-docs" then docs_predicate
  else if String.eqb name "ai-pack-data-config" then data_config_predicate
  else if String.eqb name "ai-pack-core" then core_predicate
  else ci_predicate.

(** The files written from the first call of [writePack] to the end of
    [writeEverythingSharded], in order. *)
Definition packs_log (files : list File.t) : list write :=
  snd (writePack files "ai-pack-docs" docs_predicate)
  ++ snd (writePack files "ai-pack-data-config" data_config_predicate)
  ++ snd (writePack files "ai-pack-core" core_predicate)
  ++ snd (writePack files "ai-pack-ci" ci_predicate)
  ++ snd (writeEverythingSharded files).

(** The sections of the combined pack that a run builds, from the files
    [store] held before the packs were written. *)
Definition run_combined (files : list File.t) (store : gmap string jsstring)
  : option (list (string * CombinedSection.t)) :=
  combined_sections (replay (packs_log files) store).

(** *** Notions the properties are stated with *)

(** What an item added to [bytes]: the length of its content
    ([content.length], in UTF-16 code units), nothing when it has
    none. *)
Definition item_bytes (i : Item.t) : N :=
  match Item.content i with
  | Some c => N.of_nat (length c)
  | None => 0
  end.

(** The bytes the contents of the items [l] take when they are written
    out in UTF-8 ([Buffer.byteLength]): what the running total would be
    if it counted bytes. *)
Definition content_bytes (l : list Item.t) : N :=
  fold_right (fun i acc => match Item.content i with
                           | Some c => byteLength c + acc
                           | None => acc
                           end) 0 l.

(** The running total [bytes] of a shard that holds the items [l]. *)
Definition shard_bytes (l : list Item.t) : N :=
  fold_right (fun i acc => item_bytes i + acc) 0 l.

(** The test after [items.push(item)], on a shard that holds [l]. *)
Definition threshold_reached (l : list Item.t) : bool :=
  (SHARD_TARGET_BYTES <=? shard_bytes l) || (SHARD_MAX_ITEMS <=? N.of_nat (length l)).

(** What holds of a shard that [flush] wrote: it has an item, its count
    is the number of its items, which is at most the cap, and no proper
    prefix of it had reached a threshold. *)
Definition shard_ok (p : Pack.t) : Prop :=
  Pack.items p <> []
  /\ Pack.count p = N.of_nat (length (Pack.items p))
  /\ N.of_nat (length (Pack.items p)) <= SHARD_MAX_ITEMS
  /\ forall k, (k < length (Pack.items p))%nat ->
               threshold_reached (firstn k (Pack.items p)) = false.

(** The shards numbered from 1 in the order [flush] wrote them. *)
Definition numbered (packs : list Pack.t) : list (N * Pack.t) :=
  combine (map N.of_nat (seq 1 (length packs))) packs.

(** What [shards] and the log hold once the packs [emitted st] are
    written: an entry and three files for each, under the name of its
    number. *)
Definition shard_files_inv (st : ShardState) : Prop :=
  shardIdx st = N.of_nat (S (length (emitted st)))
  /\ shards st
     = map (fun kp => ShardInfo.mk (shard_name (fst kp)) (Pack.count (snd kp))
                        (N.of_nat (length (JSON_stringify (pack_to_json (snd kp))))))
           (numbered (emitted st))
  /\ log st = flat_map (fun kp => pack_writes (shard_name (fst kp)) (snd kp))
                       (numbered (emitted st)).

(** The invariant of the loop after the files [done]. *)
Definition shard_inv (st : ShardState) (done : list File.t) : Prop :=
  concat (map Pack.items (emitted st)) ++ items st = map everything_item done
  /\ bytes st = shard_bytes (items st)
  /\ threshold_reached (items st) = false
  /\ Forall shard_ok (emitted st)
  /\ Forall (fun p => threshold_reached (Pack.items p) = true) (emitted st).

(** An item of one of the four targeted packs or of a shard. *)
Definition emitted_item (files : list File.t) (it : Item.t) : Prop :=
  (exists name, In name pack_names
                /\ In it (Pack.items (fst (writePack files name (predicate_of name)))))
  \/ (exists p, In p (emitted (shard_run files)) /\ In it (Pack.items p)).

(** The text last written to the file [k] by the writes of a log. *)
Fixpoint last_write (k : string) (log : list write) : option jsstring :=
  match log with
  | [] => None
  | (k', v) :: r =>
    match last_write k r with
    | Some v' => Some v'
    | None => if String.eqb k' k then Some v else None
    end
  end.

(** A write of [writeEverythingSharded], by the name of its file. *)
Definition everything_file (w : write) : Prop :=
  startsWith (fst w) "docs/ai-pack-everything" = true.

(** The properties of an object as serialized. *)
Definition json_props (v : JSValue) : list (jsstring * JSValue) :=
  match v with
  | JObject props => props
  | _ => []
  end.

(** The property [k] of the JSON object an item is written as. *)
Definition emitted_prop (k : string) (it : Item.t) : option JSValue :=
  get_prop (key k) (json_props (item_to_json it)).

(** The outcomes of the [try] block of either loop for the file [f];
    [json] tells whether the loop takes [f] for a JSON file. *)
Inductive Decision (f : File.t) (json : bool) : Locals -> Prop :=
| decide_none :
    Decision f json metadata_only
| decide_text buf :
    gitShow (File.path f) = Some buf ->
    string_too_long buf = false ->
    Decision f json
      (mkLocals full (Some utf8) (Some (toString_utf8 buf)) (Some (sha256 buf)) None)
| decide_text_thrown buf :
    gitShow (File.path f) = Some buf ->
    string_too_long buf = true ->
    Decision f json full_text_thrown
| decide_preview buf :
    gitShow (File.path f) = Some buf ->
    INLINE_TEXT_BYTES < File.size f ->
    Decision f json
      (mkLocals preview (Some utf8)
         (Some (toString_utf8 (slice0 buf PREVIEW_TEXT_BYTES)))
         (Some (sha256 buf))
         (if json then Some (jsonShapeHint buf) else None))
| decide_binary buf :
    gitShow (File.path f) = Some buf ->
    File.size f <= INLINE_BIN_BYTES ->
    Decision f json
      (mkLocals full (Some base64) (Some (toString_base64 buf)) (Some (sha256 buf)) None).

(** Whether the loop that built an item takes its file for a JSON file:
    [ext === "json"] in [writePack], the pattern on the path in
    [writeEverythingSharded]. *)
Definition pack_json (f : File.t) : bool :=
  String.eqb (toLowerCase (pop_ext (File.path f))) "json".
Definition everything_json (f : File.t) : bool := rx_json (File.path f).

(** *** The files below a directory entry *)

(** The files at or below the entry [e] of the directory [dir], each
    with its joined path and its size, in the order of the entries: the
    listing that skips nothing. *)
Fixpoint tree_files (dir : string) (e : Dirent) {struct e} : list (string * N) :=
  match e with
  | FileEnt name size => [(path_join dir name, size)]
  | DirEnt name ents => flat_map (tree_files (path_join dir name)) ents
  end.

(** The record [walk] pushes for the file at the joined path [p]. *)
Definition walk_record (file : string * N) : File.t :=
  let p := fst file in
  File.mk (strip_dot p) (snd file) "" (mediaTypeFor p) (raw_url_of p) (html_url_of p).

(** *** The master index *)

Definition file_to_json (f : File.t) : JSValue :=
  JObject ([(key "path", JStr (File.path f));
            (key "size", JNum (File.size f));
            (key "git_blob_sha", JStr (File.git_blob_sha f))]
           ++ media_prop (File.media_type f)
           ++ [(key "raw_url", JStr (File.raw_url f));
               (key "html_url", JStr (File.html_url f))]).

(** [index]; the sizes are added from left to right, from 0. *)
Definition index (files : list File.t) : Index.t :=
  Index.mk (N.of_nat (length files))
           (fold_left (fun a f => a + File.size f) files 0)
           files.

Definition index_to_json (branch : string) (i : Index.t) : JSValue :=
  JObject [(key "schema", JStr "barkday.ai-index.v1");
           (key "repo", JStr repo);
           (key "default_branch", JStr branch);
           (key "commit", JStr commit);
           (key "updated_utc", JStr updatedUtc);
           (key "files_count", JNum (Index.files_count i));
           (key "total_bytes", JNum (Index.total_bytes i));
           (key "files", JArray (map file_to_json (Index.files i)))].

Definition index_writes (branch : string) (files : list File.t) : list write :=
  let i := index_to_json branch (index files) in
  [("docs/ai-index.json", JSON_stringify_pretty i);
   ("docs/ai-index.min.json", JSON_stringify i)].

(** *** The lists *)

Definition list_entry (f : File.t) : ListEntry.t :=
  ListEntry.mk (File.path f) (File.size f) (File.git_blob_sha f)
               (File.raw_url f) (File.html_url f).

Definition list_to_json (l : FileList.t) : JSValue :=
  JObject [(key "schema", JStr (FileList.schema l));
           (key "repo", JStr repo);
           (key "commit", JStr commit);
           (key "updated_utc", JStr updatedUtc);
           (key "count", JNum (FileList.count l));
           (key "files", JArray (map (fun e =>
              JObject [(key "path", JStr (ListEntry.path e));
                       (key "size", JNum (ListEntry.size e));
                       (key "sha", JStr (ListEntry.sha e));
                       (key "raw_url", JStr (ListEntry.raw_url e));
                       (key "html_url", JStr (ListEntry.html_url e))])
              (FileList.files l)))].

(** A row of the table of a list page. *)
Definition list_row (f : File.t) : jsstring :=
  fill list_row_parts
       [units_of_string (esc (File.path f));
        units_of_string (pretty (File.size f));
        units_of_string (File.raw_url f);
        units_of_string (File.html_url f)].

(** [rows.join("\n")] *)
Fixpoint join_lines (rows : list jsstring) : jsstring :=
  match rows with
  | [] => []
  | [r] => r
  | r :: rest => r ++ [10] ++ join_lines rest
  end.

(** [rows]: the rows joined, or the row that says there is none when
    the joined rows are the empty string. *)
Definition list_rows (subset : list File.t) : jsstring :=
  match join_lines (map list_row subset) with
  | [] => template list_no_rows
  | rows => rows
  end.

Definition list_html (title : string) (subset : list File.t) : jsstring :=
  fill list_page_parts
       [units_of_string (esc title);
        units_of_string (esc title);
        units_of_string (pretty (N.of_nat (length subset)));
        units_of_string (slice7 commit);
        units_of_string updatedUtc;
        list_rows subset].

(** [writeList({title, outBase, predicate})]: the list it builds and the
    files it writes. *)
Definition writeList (files : list File.t) (title outBase : string)
    (predicate : File.t -> bool) : FileList.t * list write :=
  let subset := List.filter predicate files in
  let list := FileList.mk ("barkday." +:+ outBase +:+ ".v1")
                          (N.of_nat (length subset)) (map list_entry subset) in
  (list,
   [("docs/" +:+ outBase +:+ ".json", JSON_stringify_pretty (list_to_json list));
    ("docs/" +:+ outBase +:+ ".min.json", JSON_stringify (list_to_json list));
    ("docs/" +:+ outBase +:+ ".html", list_html title subset)]).

(** The files written by the three calls of [writeList]. *)
Definition lists_log (files : list File.t) : list write :=
  snd (writeList files "docs/*.md Markdown files" "ai-docs-list" docs_predicate)
  ++ snd (writeList files "data/*.md Markdown files" "ai-data-list" data_list_predicate)
  ++ snd (writeList files "data/*.json, *.yaml, *.yml files" "ai-data-config-list"
                    data_config_predicate).

(** *** The catalog of packs *)

(** What [writePack] pushes to [PACK_CATALOG]. *)
Definition pack_catalog_entry (outBase : string) (pack : Pack.t) : CatalogEntry.t :=
  CatalogEntry.mk outBase
    (Some (N.of_nat (length (Pack.items pack))))
    (N.of_nat (length (JSON_stringify (pack_to_json pack))))
    ["docs/" +:+ outBase +:+ ".json"; "docs/" +:+ outBase +:+ ".min.json";
     "docs/" +:+ outBase +:+ ".txt"].

(** What [writeEverythingSharded] pushes: the counts and the sizes of
    the shards added up. *)
Definition everything_catalog_entry (shards : list ShardInfo.t) : CatalogEntry.t :=
  CatalogEntry.mk "ai-pack-everything (sharded)"
    (Some (fold_left (fun a s => a + ShardInfo.count s) shards 0))
    (fold_left (fun a s => a + ShardInfo.approx_bytes s) shards 0)
    ["docs/ai-pack-everything.manifest.min.json"; "docs/ai-pack-everything.html"].

(** The entries pushed before the combined pack is built. *)
Definition packs_catalog (files : list File.t) : list CatalogEntry.t :=
  map (fun n => pack_catalog_entry n (fst (writePack files n (predicate_of n)))) pack_names
  ++ [everything_catalog_entry (fst (fst (writeEverythingSharded files)))].

(** *** The files of the combined pack *)

Definition section_to_json (s : CombinedSection.t) : JSValue :=
  JObject (opt_prop "count" (fun v => v) (CombinedSection.count s)
           ++ [(key "items", CombinedSection.items s)]).

Definition combined_to_json (sections : list (string * CombinedSection.t)) : JSValue :=
  JObject [(key "schema", JStr "barkday.ai-pack-all.v1");
           (key "repo", JStr repo);
           (key "commit", JStr commit);
           (key "updated_utc", JStr updatedUtc);
           (key "sections",
            JObject (map (fun s => (key (fst s), section_to_json (snd s))) sections))].

Definition combined_html (prettyPack : jsstring) : jsstring :=
  fill all_page_parts
       [units_of_string (slice7 commit);
        units_of_string updatedUtc;
        escapeHtml prettyPack].

Definition combined_writes (sections : list (string * CombinedSection.t)) : list write :=
  let prettyPack := JSON_stringify_pretty (combined_to_json sections) in
  let minPack := JSON_stringify (combined_to_json sections) in
  [("docs/ai-pack-all.json", prettyPack);
   ("docs/ai-pack-all.min.json", minPack);
   ("docs/ai-pack-all.txt", minPack);
   ("docs/ai-pack-all.html", combined_html prettyPack)].

(** [JSON.parse(fs.readFileSync(`docs/${n}.min.json`,"utf8")).items.length] *)
Definition items_length (store : gmap string jsstring) (n : string) : Length :=
  match store !! ("docs/" +:+ n +:+ ".min.json") with
  | None => Throws
  | Some text =>
    match JSON_parse text with
    | Some (JObject props) =>
      match get_prop (key "items") props with
      | Some (JArray elems) => Len (N.of_nat (length elems))
      | Some (JString s) => Len (N.of_nat (length s))
      | Some (JBool _) | Some (JNumber _) => Undefined
      | Some (JObject _) => NotModelled
      | Some JNull | None => Throws
      end
    | _ => Throws
    end
  end.

(** The sum [names.reduce((a,n) => a + ... .items.length, 0)] from the
    accumulator [a] on, [None] being [NaN]; a number plus [undefined]
    and [NaN] plus a number are [NaN]. *)
Fixpoint combined_count (store : gmap string jsstring) (names : list string)
    (a : option N) : option (option (option N)) :=
  match names with
  | [] => Some (Some a)
  | n :: r =>
    match items_length store n with
    | Throws => None
    | NotModelled => Some None
    | Undefined => combined_count store r None
    | Len k =>
      combined_count store r (match a with Some x => Some (x + k) | None => None end)
    end
  end.

Definition combined_catalog_entry (count : option N)
    (sections : list (string * CombinedSection.t)) : CatalogEntry.t :=
  CatalogEntry.mk "ai-pack-all (combined)" count
    (N.of_nat (length (JSON_stringify (combined_to_json sections))))
    ["docs/ai-pack-all.min.json"; "docs/ai-pack-all.txt"; "docs/ai-pack-all.html"].

(** *** The catalog *)

Definition catalog_to_json (packs : list CatalogEntry.t) : JSValue :=
  JObject [(key "schema", JStr "barkday.ai-pack-catalog.v1");
           (key "repo", JStr repo);
           (key "commit", JStr commit);
           (key "updated_utc", JStr updatedUtc);
           (key "packs", JArray (map (fun e =>
              JObject [(key "name", JStr (CatalogEntry.name e));
                       (key "count", match CatalogEntry.count e with
                                     | Some n => JNum n
                                     | None => JNull
                                     end);
                       (key "bytes_min", JNum (CatalogEntry.bytes_min e));
                       (key "files", JArray (map JStr (CatalogEntry.files e)))])
              packs))].

Definition catalog_writes (packs : list CatalogEntry.t) : list write :=
  [("docs/ai-pack-catalog.json", JSON_stringify_pretty (catalog_to_json packs));
   ("docs/ai-pack-catalog.min.json", JSON_stringify (catalog_to_json packs))].

(** *** The script from the master index on *)

(** The files written up to the end of [writeEverythingSharded]. *)
Definition log_before_combined (branch : string) (files : list File.t) : list write :=
  index_writes branch files ++ lists_log files ++ packs_log files.

(** The run of the script on [files], in a [docs/] that holds [store]:
    the index, the lists, the packs, the shards, then the combined pack
    read back from the pack files, then the catalog. *)
Definition main (branch : string) (files : list File.t) (store : gmap string jsstring)
  : Outcome :=
  let log1 := log_before_combined branch files in
  match combined_sections (replay log1 store) with
  | None => Aborted log1
  | Some sections =>
    let log2 := log1 ++ combined_writes sections in
    match combined_count (replay log2 store) pack_names (Some 0) with
    | None => Aborted log2
    | Some None => Unmodelled
    | Some (Some count) =>
      let catalog := packs_catalog files ++ [combined_catalog_entry count sections] in
      Completed (log2 ++ catalog_writes catalog) catalog
    end
  end.

End Script.
(** ** A sample runtime

    Small stand-ins for the built-ins of the runtime and a sample
    repository, with which the theorems below are run on concrete
    inputs.  [sample_stringify] and [sample_parse] handle the JSON of
    nulls, booleans, natural numbers, strings, arrays and objects. *)

Definition sample_sha256 (buf : Buffer) : string :=
  pretty (fold_left (fun a b => a + a + Byte.to_N b + 1) (firstn 8 buf) 0
          + fold_left (fun a b => a + Byte.to_N b) buf 0).

Definition quote_units (s : jsstring) : jsstring :=
  [34] ++ flat_map (fun u => if (u =? 34) || (u =? 92) then [92; u] else [u]) s ++ [34].

Fixpoint join_units (sep : jsstring) (parts : list jsstring) : jsstring :=
  match parts with
  | [] => []
  | [x] => x
  | x :: r => x ++ sep ++ join_units sep r
  end.

Fixpoint stringify_with (colon comma : jsstring) (v : JSValue) : jsstring :=
  match v with
  | JNull => units_of_string "null"
  | JBool true => units_of_string "true"
  | JBool false => units_of_string "false"
  | JNumber q => units_of_string (pretty (Z.to_N (Qnum q)))
  | JString s => quote_units s
  | JArray elems =>
    [91] ++ join_units comma (map (stringify_with colon comma) elems) ++ [93]
  | JObject props =>
    [123] ++ join_units comma
               (map (fun p => match p with
                              | (k, x) => quote_units k ++ colon ++ stringify_with colon comma x
                              end) props)
          ++ [125]
  end.

Definition sample_stringify : JSValue -> jsstring := stringify_with [58] [44].
Definition sample_stringify_pretty : JSValue -> jsstring := stringify_with [58; 32] [44; 32].

Fixpoint skip_ws (s : jsstring) : jsstring :=
  match s with
  | u :: r => if (u =? 32) || (u =? 10) || (u =? 13) || (u =? 9) then skip_ws r else s
  | [] => []
  end.

(** The text of a string literal after its opening quote. *)
Fixpoint parse_chars (acc : jsstring) (s : jsstring) : option (jsstring * jsstring) :=
  match s with
  | [] => None
  | u :: r =>
    if u =? 34 then Some (rev acc, r)
    else if u =? 92 then
      match r with
      | e :: r' => if (e =? 34) || (e =? 92) then parse_chars (e :: acc) r' else None
      | [] => None
      end
    else parse_chars (u :: acc) r
  end.

Fixpoint parse_digits (acc : N) (s : jsstring) : N * jsstring :=
  match s with
  | u :: r => if in_range 48 57 u then parse_digits (acc * 10 + (u - 48)) r else (acc, s)
  | [] => (acc, [])
  end.

Definition expect (lit : string) (v : JSValue) (s : jsstring) : option (JSValue * jsstring) :=
  let l := units_of_string lit in
  if bool_decide (firstn (length l) s = l) then Some (v, skipn (length l) s) else None.

(** A value at the head of [s], and what follows it; [fuel] bounds the
    depth of nesting and the number of elements. *)
Fixpoint parse_value (fuel : nat) (s : jsstring) : option (JSValue * jsstring) :=
  match fuel with
  | O => None
  | S fuel =>
    let parse_elems :=
      fix parse_elems (n : nat) (acc : list JSValue) (s : jsstring) :=
        match n with
        | O => None
        | S n =>
          match parse_value fuel s with
          | Some (v, r) =>
            match skip_ws r with
            | 44 :: r' => parse_elems n (v :: acc) (skip_ws r')
            | 93 :: r' => Some (JArray (rev (v :: acc)), r')
            | _ => None
            end
          | None => None
          end
        end in
    let parse_props :=
      fix parse_props (n : nat) (acc : list (jsstring * JSValue)) (s : jsstring) :=
        match n with
        | O => None
        | S n =>
          match s with
          | 34 :: r =>
            match parse_chars [] r with
            | Some (k, r1) =>
              match skip_ws r1 with
              | 58 :: r2 =>
                match parse_value fuel (skip_ws r2) with
                | Some (v, r3) =>
                  match skip_ws r3 with
                  | 44 :: r4 => parse_props n ((k, v) :: acc) (skip_ws r4)
                  | 125 :: r4 => Some (JObject (rev ((k, v) :: acc)), r4)
                  | _ => None
                  end
                | None => None
                end
              | _ => None
              end
            | None => None
            end
          | _ => None
          end
        end in
    match s with
    | [] => None
    | u :: r =>
      if u =? 110 then expect "null" JNull s
      else if u =? 116 then expect "true" (JBool true) s
      else if u =? 102 then expect "false" (JBool false) s
      else if u =? 34 then
        match parse_chars [] r with
        | Some (str, r') => Some (JString str, r')
        | None => None
        end
      else if in_range 48 57 u then
        let '(n, r') := parse_digits 0 s in Some (JNum n, r')
      else if u =? 91 then
        match skip_ws r with
        | 93 :: r' => Some (JArray [], r')
        | r' => parse_elems (length s) [] r'
        end
      else if u =? 123 then
        match skip_ws r with
        | 125 :: r' => Some (JObject [], r')
        | r' => parse_props (length s) [] r'
        end
      else None
    end
  end.

Definition sample_parse (s : jsstring) : option JSValue :=
  match parse_value 64 (skip_ws s) with
  | Some (v, r) => match skip_ws r with [] => Some v | _ => None end
  | None => None
  end.

Definition sample_encodeURIComponent (s : string) : string := s.

Definition sample_html (shards : list ShardInfo.t) : jsstring :=
  units_of_string "<!doctype html>" ++ flat_map (fun s => units_of_string (ShardInfo.name s)) shards.

Definition buffer_of_string (s : string) : Buffer := list_byte_of_string s.

(** A JSON document of 700,000 bytes: the text, then spaces. *)
Definition padded (text : string) : Buffer :=
  buffer_of_string text ++ repeat x20 (N.to_nat 700000 - String.length text).

(** The blobs of the sample repository: small text files, one of them
    not UTF-8, a small and a large binary file, and three JSON documents
    of 700,000 bytes. *)
Definition sample_git_show (p : string) : option Buffer :=
  if String.eqb p "README.md" then Some (buffer_of_string "# Barkday")
  else if String.eqb p "docs/guide.md" then Some (buffer_of_string "Guide: caf" ++ [xc3; xa9])
  else if String.eqb p "notes.txt" then Some [xff; xc3; xa9]
  else if String.eqb p "favicon.ico" then Some [x00; x01; xfe]
  else if String.eqb p "data/colors.json" then Some (buffer_of_string "{}")
  else if String.eqb p ".github/workflows/pages.yml" then Some (buffer_of_string "on: push")
  else if String.eqb p "assets/photo.png" then Some (repeat x00 (N.to_nat 300000))
  else if String.eqb p "data/breeds.json" then Some (padded "[1, 2, 3, 4]")
  else if String.eqb p "data/empty.json" then Some (padded "null")
  else if String.eqb p "data/broken.json" then Some (padded "[1, 2")
  else None.

Definition sample_readFileSync (p : string) : option Buffer := None.

(** The limit of Node.js on 64-bit platforms: a string has at most
    2^29 - 24 code units, and a buffer with more bytes than that is not
    decoded. *)
Definition sample_MAX_STRING_LENGTH : N := 536870888.
Definition sample_too_long (buf : Buffer) : bool :=
  sample_MAX_STRING_LENGTH <? N.of_nat (length buf).

(** The lines of [git ls-tree -r --long] for the sample repository, and
    for the same repository without its seventh and later files. *)
Definition sample_lines : list (string * N * string) :=
  map (fun '(p, size) => ("0123456789abcdef0123456789abcdef01234567", size, p))
      [ ("README.md", 9); ("docs/guide.md", 12); ("notes.txt", 3); ("favicon.ico", 3);
        ("data/colors.json", 2); (".github/workflows/pages.yml", 8);
        ("assets/photo.png", 300000); ("data/breeds.json", 700000);
        ("data/empty.json", 700000); ("data/broken.json", 700000) ].
Definition small_lines : list (string * N * string) := firstn 6 sample_lines.

(** A working directory listed without git. *)
Definition sample_cwd : list Dirent :=
  [ DirEnt ".git" [FileEnt "HEAD" 23];
    DirEnt ".github" [DirEnt "workflows" [FileEnt "pages.yml" 8]];
    FileEnt ".gitignore" 13;
    FileEnt ".nojekyll" 0;
    FileEnt "README.md" 9;
    DirEnt "docs" [FileEnt "guide.md" 12] ].

(** The sample runtime. *)
Definition sample_runtime : Runtime := {|
  repo := "barkday/site";
  commit := "c0ffee";
  updatedUtc := "2026-01-01T00:00:00.000Z";
  sha256 := sample_sha256;
  git_show := sample_git_show;
  readFileSync := sample_readFileSync;
  JSON_parse := sample_parse;
  JSON_stringify := sample_stringify;
  JSON_stringify_pretty := sample_stringify_pretty;
  encodeURIComponent := sample_encodeURIComponent;
  everything_html := sample_html;
  string_too_long := sample_too_long
|}.

(** [files] for the sample repository and for the small one. *)
Definition sample_files : list File.t := filesFromGitTree (rt := sample_runtime) sample_lines.
Definition small_files : list File.t := filesFromGitTree (rt := sample_runtime) small_lines.

(** The file of the sample repository at a path. *)
Definition sample_file (p : string) : File.t :=
  List.hd (File.mk p 0 EmptyString (Mime EmptyString) EmptyString EmptyString)
          (List.filter (fun f => String.eqb (File.path f) p) sample_files).

(** A repository of [n] files that cannot be read. *)
Definition unreadable_files (n : nat) : list File.t :=
  map (fun i => File.mk ("gone/" +:+ pretty (N.of_nat i)) 1 EmptyString
                        (Mime "application/octet-stream") EmptyString EmptyString)
      (seq 0 n).

(** Items of the sample repository: a JSON array and a JSON [null]
    embedded as previews, a document embedded in full, a text file that
    is not UTF-8, and a binary file too large to embed. *)
Definition breeds_item : Item.t :=
  pack_item (rt := sample_runtime) (sample_file "data/breeds.json").
Definition null_item : Item.t :=
  pack_item (rt := sample_runtime) (sample_file "data/empty.json").
Definition photo_item : Item.t :=
  everything_item (rt := sample_runtime) (sample_file "assets/photo.png").

(** A runtime in which every blob is the text [[1]], whatever size git
    lists for it. *)
Definition terse_runtime : Runtime := {|
  repo := "barkday/site";
  commit := "c0ffee";
  updatedUtc := "2026-01-01T00:00:00.000Z";
  sha256 := sample_sha256;
  git_show := fun _ => Some (buffer_of_string "[1]");
  readFileSync := sample_readFileSync;
  JSON_parse := sample_parse;
  JSON_stringify := sample_stringify;
  JSON_stringify_pretty := sample_stringify_pretty;
  encodeURIComponent := sample_encodeURIComponent;
  everything_html := sample_html;
  string_too_long := sample_too_long
|}.

(** A file listed with the size 700,000 at the path [p]. *)
Definition large_file (p : string) : File.t :=
  File.mk p 700000 EmptyString (mediaTypeFor p) EmptyString EmptyString.

(** The first entry of the manifest of a repository of one file. *)
Definition first_shard : ShardInfo.t :=
  List.hd (ShardInfo.mk EmptyString 0 0)
          (fst (fst (writeEverythingSharded (rt := sample_runtime) (unreadable_files 1)))).

(** The catalog a run ends with, none when it does not complete. *)
Definition outcome_catalog (o : Outcome) : list CatalogEntry.t :=
  match o with
  | Completed _ catalog => catalog
  | _ => []
  end.

(** The run on a repository without files, in an empty [docs/]. *)
Definition empty_run : Outcome := main (rt := sample_runtime) "main" [] ∅.

(** A repository with two long documents under [docs/]: one of
    2,200,000 accented letters, which are 4,400,000 bytes in UTF-8, and
    one of 536,870,889 letters A, one more than a string can hold. *)
Definition accents (n : nat) : Buffer := concat (repeat [xc3; xa9] n).
Definition big_buffer : Buffer := accents (N.to_nat 2200000).
Definition huge_buffer : Buffer := repeat x41 (N.to_nat 536870889).

Definition large_git_show (p : string) : option Buffer :=
  if String.eqb p "README.md" then Some (buffer_of_string "# Barkday")
  else if String.eqb p "docs/big.md" then Some big_buffer
  else if String.eqb p "docs/huge.md" then Some huge_buffer
  else None.

Definition large_runtime : Runtime := {|
  repo := "barkday/site";
  commit := "c0ffee";
  updatedUtc := "2026-01-01T00:00:00.000Z";
  sha256 := sample_sha256;
  git_show := large_git_show;
  readFileSync := sample_readFileSync;
  JSON_parse := sample_parse;
  JSON_stringify := sample_stringify;
  JSON_stringify_pretty := sample_stringify_pretty;
  encodeURIComponent := sample_encodeURIComponent;
  everything_html := sample_html;
  string_too_long := sample_too_long
|}.

(** The record of the file that git lists at the path [p] with the
    size [size]. *)
Definition tracked (p : string) (size : N) : File.t :=
  File.mk p size "0123456789abcdef0123456789abcdef01234567" (mediaTypeFor p)
          (raw_url_of (rt := large_runtime) p) (html_url_of (rt := large_runtime) p).

Definition big_file : File.t := tracked "docs/big.md" 4400000.
Definition huge_file : File.t := tracked "docs/huge.md" 536870889.
Definition readme_file : File.t := tracked "README.md" 9.

(** [files] when git lists the accented document and the README, and
    when it lists the document that is too long. *)
Definition big_files : list File.t := [big_file; readme_file].
Definition huge_files : list File.t := [huge_file].

(** The items of the two documents and of the README. *)
Definition big_item : Item.t := everything_item (rt := large_runtime) big_file.
Definition readme_item : Item.t := everything_item (rt := large_runtime) readme_file.
Definition huge_item : Item.t := pack_item (rt := large_runtime) huge_file.


(** * Properties *)

(** ** Buffers and strings *)

(** Linear arithmetic with division and remainder by constants. *)
Ltac dlia := zify; Z.div_mod_to_equations; Z.quot_rem_to_equations; lia.

Lemma byte_of_N_to_N (b : byte) : byte_of_N (Byte.to_N b) = b.
Proof.
  unfold byte_of_N.
  pose proof (Byte.to_N_bounded b) as Hb.
  rewrite N.mod_small by lia.
  now rewrite Byte.of_to_N.
Qed.


Lemma in_range_spec (lo hi n : N) : in_range lo hi n = true <-> lo <= n <= hi.
Proof. unfold in_range. rewrite andb_true_iff, !N.leb_le. tauto. Qed.

Lemma utf8_step_bound (b0 : byte) (r0 : Buffer) :
  (length (fst (utf8_step b0 r0)) <= 1 + snd (utf8_step b0 r0))%nat
  /\ (snd (utf8_step b0 r0) <= length r0)%nat.
Proof.
  unfold utf8_step, bad_byte, units_of_cp.
  repeat match goal with
  | |- context [if ?c then _ else _] => destruct c
  | |- context [match ?l with [] => _ | _ :: _ => _ end] => destruct l
  end; simpl; lia.
Qed.

Lemma decode_from_length (buf : Buffer) :
  forall skip, (length (decode_from skip buf) <= length buf - skip)%nat.
Proof.
  induction buf as [|b0 r0 IH]; intros skip; simpl; [lia|].
  destruct skip as [|k].
  - destruct (utf8_step_bound b0 r0) as [H1 H2].
    destruct (utf8_step b0 r0) as [units k]; simpl in *.
    rewrite length_app. specialize (IH k). lia.
  - apply IH.
Qed.

(** A string decoded from UTF-8 has at most as many code units as the
    buffer has bytes. *)
Lemma toString_utf8_length (buf : Buffer) :
  (length (toString_utf8 buf) <= length buf)%nat.
Proof. unfold toString_utf8. pose proof (decode_from_length buf 0). lia. Qed.

Lemma slice0_length (buf : Buffer) (n : N) : (length (slice0 buf n) <= N.to_nat n)%nat.
Proof. unfold slice0. rewrite length_firstn. lia. Qed.

Ltac range_true :=
  match goal with
  | |- context [in_range ?lo ?hi ?n] =>
    let H := fresh in
    assert (H : in_range lo hi n = true)
      by (apply in_range_spec; unfold lower3, upper3, lower4, upper4;
          repeat match goal with |- context [?a =? ?b] => destruct (N.eqb_spec a b) end;
          repeat match goal with H : context [?a =? ?b] |- _ => destruct (N.eqb_spec a b) end;
          first [lia | dlia]);
    rewrite H; clear H
  end.

Ltac range_false :=
  match goal with
  | |- context [in_range ?lo ?hi ?n] =>
    let H := fresh in
    assert (H : in_range lo hi n = false)
      by (apply not_true_iff_false; rewrite in_range_spec; first [lia | dlia]);
    rewrite H; clear H
  end.

Ltac ltb_true :=
  match goal with
  | |- context [?a <? ?b] =>
    let H := fresh in
    assert (H : (a <? b) = true) by (apply N.ltb_lt; first [lia | dlia]); rewrite H; clear H
  end.

Ltac ltb_false :=
  match goal with
  | |- context [?a <? ?b] =>
    let H := fresh in
    assert (H : (a <? b) = false) by (apply N.ltb_ge; first [lia | dlia]); rewrite H; clear H
  end.

Lemma encode_cp2 (n0 n1 : N) (s : jsstring) :
  0xC2 <= n0 <= 0xDF -> 0x80 <= n1 <= 0xBF ->
  utf8_encode (cp2 n0 n1 :: s) = byte_of_N n0 :: byte_of_N n1 :: utf8_encode s.
Proof.
  intros H0 H1. cbn [utf8_encode]. unfold cp2. ltb_false. ltb_true.
  f_equal; [|f_equal]; f_equal; dlia.
Qed.

Lemma encode_cp3 (n0 n1 n2 : N) (s : jsstring) :
  0xE0 <= n0 <= 0xEF -> lower3 n0 <= n1 <= upper3 n0 -> 0x80 <= n2 <= 0xBF ->
  utf8_encode (cp3 n0 n1 n2 :: s)
  = byte_of_N n0 :: byte_of_N n1 :: byte_of_N n2 :: utf8_encode s.
Proof.
  unfold lower3, upper3. intros H0 H1 H2.
  destruct (N.eqb_spec n0 0xE0); destruct (N.eqb_spec n0 0xED); try lia.
  all: cbn [utf8_encode]; unfold cp3; ltb_false; ltb_false; range_false; range_false.
  all: f_equal; [|f_equal; [|f_equal]]; f_equal; dlia.
Qed.

Lemma encode_cp4 (n0 n1 n2 n3 : N) (s : jsstring) :
  0xF0 <= n0 <= 0xF4 -> lower4 n0 <= n1 <= upper4 n0 ->
  0x80 <= n2 <= 0xBF -> 0x80 <= n3 <= 0xBF ->
  utf8_encode (units_of_cp (cp4 n0 n1 n2 n3) ++ s)
  = byte_of_N n0 :: byte_of_N n1 :: byte_of_N n2 :: byte_of_N n3 :: utf8_encode s.
Proof.
  unfold lower4, upper4. intros H0 H1 H2 H3.
  destruct (N.eqb_spec n0 0xF0); destruct (N.eqb_spec n0 0xF4); try lia.
  all: unfold units_of_cp, cp4; ltb_false; cbn [app utf8_encode].
  all: ltb_false; ltb_false; range_true; range_true.
  all: f_equal; [|f_equal; [|f_equal; [|f_equal]]]; f_equal; dlia.
Qed.

(** Decoding well-formed UTF-8 and encoding the string again gives back
    the bytes. *)
Lemma utf8_roundtrip (buf : Buffer) :
  WellFormedUtf8 buf -> utf8_encode (toString_utf8 buf) = buf.
Proof.
  unfold toString_utf8.
  induction 1 as [ | b0 r H0 Hr IH | b0 b1 r H0 H1 Hr IH
                   | b0 b1 b2 r H0 H1 H2 Hr IH | b0 b1 b2 b3 r H0 H1 H2 H3 Hr IH ].
  - reflexivity.
  - cbn [decode_from]. unfold utf8_step. ltb_true.
    cbn [app utf8_encode]. ltb_true. now rewrite IH, byte_of_N_to_N.
  - cbn [decode_from]. unfold utf8_step. ltb_false. range_true. range_true.
    cbn [decode_from app]. rewrite encode_cp2 by lia.
    now rewrite IH, !byte_of_N_to_N.
  - cbn [decode_from]. unfold utf8_step. ltb_false. range_false. range_true.
    range_true. range_true.
    cbn [decode_from app]. rewrite encode_cp3; [now rewrite IH, !byte_of_N_to_N | lia | | lia].
    unfold lower3, upper3. exact H1.
  - cbn [decode_from]. unfold utf8_step. ltb_false. range_false. range_false.
    range_true. range_true. range_true. range_true.
    cbn [decode_from]. rewrite encode_cp4; [now rewrite IH, !byte_of_N_to_N | lia | | lia | lia].
    unfold lower4, upper4. exact H1.
Qed.

(** *** Paths and extensions *)

Lemma endsWith_app (s suf : string) :
  endsWith s suf = true -> exists q, s = q +:+ suf.
Proof.
  induction s as [|c s IH]; cbn [endsWith].
  - rewrite orb_false_r. intros H. apply String.eqb_eq in H. exists EmptyString. now subst.
  - intros H. apply orb_true_iff in H as [H | H].
    + apply String.eqb_eq in H. now exists EmptyString.
    + destruct (IH H) as [q ->]. now exists (String c q).
Qed.

Lemma toLowerCase_app_inv (a b p : string) :
  toLowerCase p = a +:+ b ->
  exists a' b', p = a' +:+ b' /\ toLowerCase a' = a /\ toLowerCase b' = b.
Proof.
  revert p. induction a as [|c a IH]; intros p H.
  - exists EmptyString, p. auto.
  - destruct p as [|c' p]; [discriminate|]. simpl in H. injection H as Hc Hp.
    destruct (IH p Hp) as (a' & b' & -> & Ha & Hb).
    exists (String c' a'), b'. simpl. now rewrite Hc, Ha.
Qed.

(** Lower-casing neither makes nor unmakes a dot. *)
Lemma lower_ascii_dot (c : ascii) : lower_ascii c = "."%char <-> c = "."%char.
Proof.
  destruct c as [[] [] [] [] [] [] [] []]; vm_compute; split; congruence.
Qed.

Lemma split_not_nil (s : string) (sep : ascii) : split s sep <> [].
Proof.
  destruct s as [|c s]; simpl; [discriminate|].
  destruct (Ascii.eqb c sep); [discriminate|].
  destruct (split s sep); discriminate.
Qed.

Lemma last_cons_not_nil {A} (x d : A) (l : list A) :
  l <> [] -> List.last (x :: l) d = List.last l d.
Proof. destruct l; [congruence | reflexivity]. Qed.

Lemma split_two (q e : string) (sep : ascii) :
  exists x y l, split (q +:+ String sep e) sep = x :: y :: l.
Proof.
  induction q as [|c q (x & y & l & IH)]; simpl.
  - rewrite Ascii.eqb_refl. pose proof (split_not_nil e sep).
    destruct (split e sep) as [|y l]; [congruence|]. eauto.
  - destruct (Ascii.eqb c sep).
    + rewrite IH. eauto.
    + rewrite IH. eauto.
Qed.

Lemma last_split_app (q e : string) (sep : ascii) (d : string) :
  List.last (split (q +:+ String sep e) sep) d = List.last (split e sep) d.
Proof.
  induction q as [|c q IH]; simpl.
  - rewrite Ascii.eqb_refl. apply last_cons_not_nil, split_not_nil.
  - destruct (split_two q e sep) as (x & y & l & Hs).
    destruct (Ascii.eqb c sep).
    + rewrite last_cons_not_nil by apply split_not_nil. exact IH.
    + rewrite Hs in *. rewrite <- IH. reflexivity.
Qed.

(** A path that ends in [.json], in any case, has the extension
    [json]. *)
Lemma rx_json_ext (p : string) :
  rx_json p = true -> toLowerCase (pop_ext p) = "json".
Proof.
  unfold rx_json, pop_ext. intros H.
  apply endsWith_app in H as [q Hq].
  apply toLowerCase_app_inv in Hq as (q' & e & -> & _ & He).
  destruct e as [|c0 [|c1 [|c2 [|c3 [|c4 [|c5 e]]]]]]; try discriminate.
  simpl in He. injection He as H0 H1 H2 H3 H4.
  apply (proj1 (lower_ascii_dot c0)) in H0. subst c0.
  rewrite last_split_app.
  assert (Hdot : forall c x, lower_ascii c = x -> x <> "."%char -> Ascii.eqb c "." = false).
  { intros c x Hc Hx. apply Ascii.eqb_neq. intros ->. apply Hx. rewrite <- Hc. reflexivity. }
  simpl. rewrite (Hdot c1 _ H1), (Hdot c2 _ H2), (Hdot c3 _ H3), (Hdot c4 _ H4) by discriminate.
  simpl. now rewrite H1, H2, H3, H4.
Qed.



Lemma list_ind3 {A} (P : list A -> Prop) :
  P [] -> (forall a, P [a]) -> (forall a b, P [a; b]) ->
  (forall a b c r, P r -> P (a :: b :: c :: r)) ->
  forall l, P l.
Proof.
  intros H0 H1 H2 H3.
  fix rec 1. intros [|a [|b [|c r]]]; [apply H0 | apply H1 | apply H2 | apply H3, rec].
Qed.



(** *** More on paths and extensions *)

Lemma append_cons (c : ascii) (a b : string) : String c a +:+ b = String c (a +:+ b).
Proof. reflexivity. Qed.

Lemma append_nil (b : string) : EmptyString +:+ b = b.
Proof. reflexivity. Qed.

Lemma startsWith_cons (c d : ascii) (s pre : string) :
  startsWith (String c s) (String d pre) = Ascii.eqb d c && startsWith s pre.
Proof.
  unfold startsWith. cbn [String.prefix].
  destruct (Ascii.ascii_dec d c) as [->|Hne]; [now rewrite Ascii.eqb_refl|].
  apply Ascii.eqb_neq in Hne. now rewrite Hne.
Qed.

Lemma startsWith_nil_r (s : string) : startsWith s EmptyString = true.
Proof. destruct s; reflexivity. Qed.

Lemma startsWith_append (pre s : string) : startsWith (pre +:+ s) pre = true.
Proof.
  induction pre as [|c pre IH]; [apply startsWith_nil_r|].
  now rewrite append_cons, startsWith_cons, Ascii.eqb_refl, IH.
Qed.

Lemma toLowerCase_app (a b : string) :
  toLowerCase (a +:+ b) = toLowerCase a +:+ toLowerCase b.
Proof.
  induction a as [|c a IH]; [reflexivity|].
  rewrite append_cons. cbn [toLowerCase]. now rewrite IH, append_cons.
Qed.

Lemma lower_eqb_dot (c : ascii) : Ascii.eqb (lower_ascii c) "." = Ascii.eqb c ".".
Proof.
  destruct (Ascii.eqb_spec c ".") as [->|Hne]; [reflexivity|].
  apply Ascii.eqb_neq. intros H. apply (proj1 (lower_ascii_dot c)) in H. contradiction.
Qed.

(** Lower-casing a path lower-cases each of its segments between
    dots. *)
Lemma split_toLowerCase (p : string) :
  split (toLowerCase p) "." = map toLowerCase (split p ".").
Proof.
  induction p as [|c p IH]; simpl; [reflexivity|].
  rewrite lower_eqb_dot, IH.
  destruct (Ascii.eqb c "."); [reflexivity|].
  destruct (split p "."); reflexivity.
Qed.

Lemma last_map_toLowerCase (l : list string) :
  List.last (map toLowerCase l) EmptyString = toLowerCase (List.last l EmptyString).
Proof.
  induction l as [|x [|y l] IH]; [reflexivity | reflexivity | exact IH].
Qed.

(** The extension [mediaTypeFor] looks up is the one the loops test,
    lower-cased. *)
Lemma ext_toLowerCase (p : string) :
  List.last (split (toLowerCase p) ".") EmptyString = toLowerCase (pop_ext p).
Proof. unfold pop_ext. now rewrite split_toLowerCase, last_map_toLowerCase. Qed.

(** A path is its extension, or ends with a dot and its extension. *)
Lemma pop_ext_cases (p : string) :
  split p "." = [p] \/ exists q, p = q +:+ String "." (pop_ext p).
Proof.
  unfold pop_ext. induction p as [|c p IH]; simpl; [now left|].
  destruct (Ascii.eqb_spec c ".") as [->|Hne].
  - right. rewrite last_cons_not_nil by apply split_not_nil.
    destruct IH as [IH | [q IH]].
    + exists EmptyString. now rewrite IH.
    + exists (String "." q). rewrite append_cons. now rewrite <- IH.
  - destruct IH as [IH | [q IH]].
    + left. now rewrite IH.
    + destruct (split_two q (List.last (split p ".") EmptyString) ".")
        as (x & y & l & Hs).
      rewrite <- IH in Hs.
      right. exists (String c q). rewrite append_cons. f_equal.
      rewrite Hs in IH |- *. exact IH.
Qed.

Lemma endsWith_refl (s : string) : endsWith s s = true.
Proof. destruct s; simpl; [reflexivity|]. now rewrite Ascii.eqb_refl, String.eqb_refl. Qed.

Lemma endsWith_intro (q suf : string) : endsWith (q +:+ suf) suf = true.
Proof.
  induction q as [|c q IH]; [apply endsWith_refl|].
  rewrite append_cons. cbn [endsWith]. rewrite IH. apply orb_true_r.
Qed.

Lemma eqb_length (a b : string) : String.length a <> String.length b -> String.eqb a b = false.
Proof. intros H. apply String.eqb_neq. congruence. Qed.

Lemma length_append (a b : string) :
  String.length (a +:+ b) = (String.length a + String.length b)%nat.
Proof.
  induction a as [|c a IH]; [reflexivity|].
  rewrite append_cons. cbn [String.length]. now rewrite IH.
Qed.

(** Whether a string ends with [suf] is decided by its last characters,
    as many as [suf] has or more. *)
Lemma endsWith_append (q s suf : string) :
  (String.length suf <= String.length s)%nat ->
  endsWith (q +:+ s) suf = endsWith s suf.
Proof.
  intros Hlen. induction q as [|c q IH]; [reflexivity|].
  rewrite append_cons. cbn [endsWith]. rewrite IH.
  rewrite eqb_length; [reflexivity|].
  cbn [String.length]. rewrite length_append. lia.
Qed.

(** The extension is [json] only of a path that ends in [.json] or is
    the bare name. *)
Lemma json_ext_cases (p : string) :
  toLowerCase (pop_ext p) = "json" -> rx_json p = true \/ toLowerCase p = "json".
Proof.
  intros H. destruct (pop_ext_cases p) as [Hs | [q Hq]].
  - right. unfold pop_ext in H. now rewrite Hs in H.
  - left. unfold rx_json. rewrite Hq, toLowerCase_app. simpl toLowerCase.
    rewrite H. change (String (lower_ascii ".") "json") with ".json".
    apply endsWith_intro.
Qed.

(** The table of [mediaTypeFor] gives a [text/] type only to extensions
    of [TEXT_EXT]. *)
Lemma text_media_in_TEXT_EXT (e : string) :
  has TEXT_EXT e = false ->
  match assoc e media_table with
  | Some m => rx_text_media m
  | None => false
  end = false.
Proof.
  intros H. unfold media_table, assoc.
  repeat match goal with
  | |- context [String.eqb ?k e] =>
    destruct (String.eqb_spec k e) as [<-|];
      [first [reflexivity | vm_compute in H; discriminate H]|]
  end.
  reflexivity.
Qed.

(** *** Splitting and joining *)

Lemma join_cons (sep x : string) (l : list string) :
  l <> [] -> join sep (x :: l) = x +:+ sep +:+ join sep l.
Proof. destruct l; [congruence | reflexivity]. Qed.

Lemma join_split (p : string) (sep : ascii) :
  join (String sep EmptyString) (split p sep) = p.
Proof.
  induction p as [|c p IH]; simpl split; [reflexivity|].
  destruct (Ascii.eqb_spec c sep) as [->|Hne].
  - rewrite join_cons by apply split_not_nil. now rewrite IH.
  - pose proof (split_not_nil p sep) as Hnil.
    destruct (split p sep) as [|x [|y l]]; [congruence | |].
    + simpl in *. now rewrite IH.
    + rewrite join_cons by discriminate. rewrite join_cons in IH by discriminate.
      rewrite append_cons. now rewrite IH.
Qed.

Lemma split_no_sep (s : string) (sep : ascii) :
  has_char sep s = false -> split s sep = [s].
Proof.
  induction s as [|c s IH]; simpl; [reflexivity|].
  intros H. apply orb_false_iff in H as [Hc Hs].
  rewrite Hc, (IH Hs). reflexivity.
Qed.

Lemma split_app_sep (x r : string) (sep : ascii) :
  has_char sep x = false ->
  split (x +:+ String sep r) sep = x :: split r sep.
Proof.
  induction x as [|c x IH]; simpl.
  - intros _. now rewrite Ascii.eqb_refl.
  - intros H. apply orb_false_iff in H as [Hc Hx].
    rewrite Hc, (IH Hx). reflexivity.
Qed.

(** Splitting what was joined gives back the segments, when none holds
    the separator. *)
Lemma split_join (segs : list string) (sep : ascii) :
  segs <> [] ->
  forallb (fun seg => negb (has_char sep seg)) segs = true ->
  split (join (String sep EmptyString) segs) sep = segs.
Proof.
  induction segs as [|x segs IH]; [congruence|]. intros _ H.
  cbn [forallb] in H. apply andb_true_iff in H as [Hx Hsegs].
  apply negb_true_iff in Hx.
  destruct segs as [|y segs].
  - simpl. now apply split_no_sep.
  - rewrite join_cons by discriminate.
    change (x +:+ String sep "" +:+ join (String sep "") (y :: segs))
      with (x +:+ String sep (join (String sep "") (y :: segs))).
    rewrite split_app_sep by exact Hx.
    now rewrite IH.
Qed.

(** *** Decoding in two parts *)

Lemma firstn_skipn_app {A} (n : nat) (l : list A) : l = firstn n l ++ skipn n l.
Proof. symmetry. apply firstn_skipn. Qed.

(** Decoding a buffer whose first part is well-formed UTF-8 decodes that
    part, then the rest. *)
Lemma decode_well_formed_app (a b : Buffer) :
  WellFormedUtf8 a ->
  toString_utf8 (a ++ b) = toString_utf8 a ++ toString_utf8 b.
Proof.
  unfold toString_utf8.
  induction 1 as [ | b0 r H0 Hr IH | b0 b1 r H0 H1 Hr IH
                   | b0 b1 b2 r H0 H1 H2 Hr IH | b0 b1 b2 b3 r H0 H1 H2 H3 Hr IH ].
  - reflexivity.
  - cbn [app decode_from]. unfold utf8_step. ltb_true.
    cbn [app]. now rewrite IH.
  - cbn [app decode_from]. unfold utf8_step. ltb_false. range_true. range_true.
    cbn [decode_from app]. now rewrite IH.
  - cbn [app decode_from]. unfold utf8_step. ltb_false. range_false. range_true.
    range_true. range_true.
    cbn [decode_from app]. now rewrite IH.
  - cbn [app decode_from]. unfold utf8_step. ltb_false. range_false. range_false.
    range_true. range_true. range_true. range_true.
    cbn [decode_from]. rewrite <- app_assoc. now rewrite IH.
Qed.

(** *** The length of base64 *)

Lemma toString_base64_length (buf : Buffer) :
  length (toString_base64 buf) = (4 * ((length buf + 2) / 3))%nat.
Proof.
  induction buf as [ | a | a b | a b c r IH ] using list_ind3; try reflexivity.
  cbn [toString_base64 length]. rewrite IH.
  replace (S (S (S (length r))) + 2)%nat with (length r + 2 + 1 * 3)%nat by lia.
  rewrite Nat.div_add by lia. lia.
Qed.

(** *** Lower-casing twice *)

Lemma lower_ascii_idem (c : ascii) : lower_ascii (lower_ascii c) = lower_ascii c.
Proof. destruct c as [[] [] [] [] [] [] [] []]; vm_compute; reflexivity. Qed.

Lemma toLowerCase_idem (s : string) : toLowerCase (toLowerCase s) = toLowerCase s.
Proof.
  induction s as [|c s IH]; cbn [toLowerCase]; [reflexivity|].
  now rewrite lower_ascii_idem, IH.
Qed.

Lemma has_char_toLowerCase (s : string) :
  has_char "." (toLowerCase s) = has_char "." s.
Proof.
  induction s as [|c s IH]; cbn [toLowerCase has_char]; [reflexivity|].
  now rewrite lower_eqb_dot, IH.
Qed.

(** No segment of a split holds the separator. *)
Lemma split_segments (s : string) (sep : ascii) :
  Forall (fun seg => has_char sep seg = false) (split s sep).
Proof.
  induction s as [|c s IH]; cbn [split]; [repeat constructor|].
  destruct (Ascii.eqb c sep) eqn:Hc; [constructor; [reflexivity | exact IH]|].
  destruct (split s sep) as [|x xs]; [repeat constructor; cbn; now rewrite Hc|].
  inversion IH as [|? ? Hx Hxs]; subst.
  constructor; [cbn; now rewrite Hc, Hx | exact Hxs].
Qed.

Lemma pop_ext_no_dot (p : string) : has_char "." (pop_ext p) = false.
Proof.
  unfold pop_ext. pose proof (split_segments p ".") as H.
  pose proof (split_not_nil p ".") as Hnil.
  induction H as [|x l Hx Hl IH]; [congruence|].
  destruct l as [|y l]; [exact Hx|]. apply IH. discriminate.
Qed.

(** The extension of an extension is itself. *)
Lemma pop_ext_idem (p : string) : pop_ext (toLowerCase (pop_ext p)) = toLowerCase (pop_ext p).
Proof.
  unfold pop_ext at 1. rewrite split_no_sep; [reflexivity|].
  rewrite has_char_toLowerCase. apply pop_ext_no_dot.
Qed.

(** What [isTextPath] adds to the test of the extension is nothing. *)
Lemma isTextPath_ext (p : string) :
  isTextPath p = has TEXT_EXT (toLowerCase (pop_ext p)).
Proof.
  unfold isTextPath, mediaTypeFor. rewrite ext_toLowerCase.
  destruct (has TEXT_EXT _) eqn:H; [reflexivity|]. cbn [orb].
  pose proof (text_media_in_TEXT_EXT _ H) as Ht.
  destruct (assoc _ media_table); [exact Ht|].
  destruct (_ || _); reflexivity.
Qed.

(** The two tests for a JSON file agree on every path but the bare name
    [json]. *)
Lemma json_flags_agree (p : string) :
  String.eqb (toLowerCase p) "json" = false ->
  String.eqb (toLowerCase (pop_ext p)) "json" = rx_json p.
Proof.
  intros Hp. destruct (rx_json p) eqn:Hrx.
  - rewrite (rx_json_ext _ Hrx). reflexivity.
  - destruct (String.eqb_spec (toLowerCase (pop_ext p)) "json") as [He|]; [|reflexivity].
    destruct (json_ext_cases _ He) as [H | H]; [congruence|].
    rewrite H in Hp. discriminate.
Qed.

(** X1.  Whether a file is text, and its media type, depend on its path
    through the lower-cased extension only; the media-type clause of
    [isTextPath] never makes a file text that the extension test of
    [writePack] does not. *)
Theorem text_and_media_type_by_extension (p : string) :
  isTextPath p = has TEXT_EXT (toLowerCase (pop_ext p))
  /\ mediaTypeFor p = mediaTypeFor (toLowerCase (pop_ext p)).
Proof.
  split; [apply isTextPath_ext|].
  unfold mediaTypeFor. rewrite !ext_toLowerCase.
  now rewrite pop_ext_idem, toLowerCase_idem.
Qed.

(** *** Escaping *)

Lemma append_assoc (a b c : string) : (a +:+ b) +:+ c = a +:+ (b +:+ c).
Proof.
  induction a as [|x a IH]; [reflexivity|]. rewrite !append_cons. now rewrite IH.
Qed.

Lemma replace_char_app (c : ascii) (by_ x y : string) :
  replace_char c by_ (x +:+ y) = replace_char c by_ x +:+ replace_char c by_ y.
Proof.
  induction x as [|a x IH]; [reflexivity|].
  rewrite append_cons. cbn [replace_char]. rewrite IH.
  destruct (Ascii.eqb a c); [now rewrite append_assoc | now rewrite append_cons].
Qed.

Lemma has_char_app (c : ascii) (x y : string) :
  has_char c (x +:+ y) = has_char c x || has_char c y.
Proof.
  induction x as [|a x IH]; [reflexivity|].
  rewrite append_cons. cbn [has_char]. rewrite IH. apply orb_assoc.
Qed.

Lemma units_of_string_app (x y : string) :
  units_of_string (x +:+ y) = units_of_string x ++ units_of_string y.
Proof.
  unfold units_of_string. induction x as [|a x IH]; [reflexivity|].
  rewrite append_cons. cbn [list_ascii_of_string map app]. now rewrite IH.
Qed.

Lemma N_of_ascii_eqb (a b : ascii) : (N_of_ascii a =? N_of_ascii b) = Ascii.eqb a b.
Proof.
  destruct (Ascii.eqb_spec a b) as [->|Hne]; [apply N.eqb_refl|].
  apply N.eqb_neq. intros H. apply Hne.
  rewrite <- (ascii_N_embedding a), <- (ascii_N_embedding b). now rewrite H.
Qed.

(** The entity, or the character itself, that escaping writes for one
    character. *)
Lemma esc_cons (a : ascii) (r : string) :
  esc (String a r)
  = (if Ascii.eqb a "&" then "&amp;"
     else if Ascii.eqb a "<" then "&lt;"
     else if Ascii.eqb a ">" then "&gt;"
     else String a EmptyString) +:+ esc r.
Proof.
  unfold esc. cbn [replace_char].
  destruct (Ascii.eqb_spec a "&") as [->|Hamp].
  - rewrite !replace_char_app. reflexivity.
  - cbn [replace_char].
    destruct (Ascii.eqb_spec a "<") as [->|Hlt].
    + rewrite !replace_char_app. reflexivity.
    + cbn [replace_char]. destruct (Ascii.eqb a ">"); reflexivity.
Qed.

Lemma esc_no_angle (s : string) :
  has_char "<" (esc s) = false /\ has_char ">" (esc s) = false.
Proof.
  induction s as [|a s [IH1 IH2]]; [split; reflexivity|].
  rewrite esc_cons, !has_char_app, IH1, IH2, !orb_false_r.
  destruct (Ascii.eqb_spec a "&"); [split; reflexivity|].
  destruct (Ascii.eqb_spec a "<") as [|Hlt]; [split; reflexivity|].
  destruct (Ascii.eqb_spec a ">") as [|Hgt]; [split; reflexivity|].
  cbn [has_char]. rewrite !orb_false_r.
  split; now apply Ascii.eqb_neq.
Qed.

Lemma esc_units (s : string) : units_of_string (esc s) = escapeHtml (units_of_string s).
Proof.
  induction s as [|a s IH]; [reflexivity|].
  rewrite esc_cons, units_of_string_app, IH.
  change (units_of_string (String a s)) with (N_of_ascii a :: units_of_string s).
  unfold escapeHtml at 2. cbn [flat_map]. fold (escapeHtml (units_of_string s)).
  f_equal.
  change 38 with (N_of_ascii "&"). change 60 with (N_of_ascii "<").
  change 62 with (N_of_ascii ">"). rewrite !N_of_ascii_eqb.
  destruct (Ascii.eqb a "&"); [reflexivity|].
  destruct (Ascii.eqb a "<"); [reflexivity|].
  destruct (Ascii.eqb a ">"); reflexivity.
Qed.

Lemma escapeHtml_no_angle (s : jsstring) :
  Forall (fun u => u <> 60 /\ u <> 62) (escapeHtml s).
Proof.
  unfold escapeHtml. induction s as [|u s IH]; cbn [flat_map]; [constructor|].
  apply List.Forall_app. split; [|exact IH].
  destruct (N.eqb_spec u 38); [repeat constructor; discriminate|].
  destruct (N.eqb_spec u 60); [repeat constructor; discriminate|].
  destruct (N.eqb_spec u 62); [repeat constructor; discriminate|].
  repeat constructor; assumption.
Qed.

(** X12.  The two escapers of the script, the three replacements of
    [writeList] and the single pass of the combined page, write the same
    text, and what they write holds no [<] and no [>]: a path, a title or
    the JSON shown in the page cannot open or close a tag. *)
Theorem escapers_agree_and_leave_no_angle (s : string) (text : jsstring) :
  units_of_string (esc s) = escapeHtml (units_of_string s)
  /\ has_char "<" (esc s) = false /\ has_char ">" (esc s) = false
  /\ Forall (fun u => u <> 60 /\ u <> 62) (escapeHtml text).
Proof.
  split; [apply esc_units|]. split; [apply esc_no_angle|].
  split; [apply esc_no_angle | apply escapeHtml_no_angle].
Qed.

(** *** Decimal numerals *)

Lemma pretty_N_char_digit (x : N) : is_digit (pretty_N_char x) = true.
Proof. unfold pretty_N_char. repeat case_match; reflexivity. Qed.

Lemma all_digits_app (a b : string) :
  all_digits (a +:+ b) = all_digits a && all_digits b.
Proof.
  induction a as [|c a IH]; [reflexivity|].
  rewrite append_cons. cbn [all_digits]. rewrite IH. apply andb_assoc.
Qed.

(** The digits [pretty_N_go] puts before [s] for a positive number: at
    least one, the first of them not a zero. *)
Lemma pretty_N_go_digits (x : N) :
  forall s, 0 < x ->
  exists c d, pretty_N_go x s = String c (d +:+ s)
              /\ c <> "0"%char /\ is_digit c = true /\ all_digits d = true.
Proof.
  induction (N.lt_wf_0 x) as [x _ IH]. intros s Hx.
  rewrite pretty_N_go_step by exact Hx.
  destruct (N.eq_dec (x / 10) 0) as [Hz | Hnz].
  - rewrite Hz, pretty_N_go_0.
    exists (pretty_N_char (x mod 10)), EmptyString.
    split; [reflexivity|]. split; [|split; [apply pretty_N_char_digit | reflexivity]].
    assert (Hlt : x < 10) by (apply N.div_small_iff in Hz; lia).
    rewrite N.mod_small by exact Hlt.
    assert (x = 1 \/ x = 2 \/ x = 3 \/ x = 4 \/ x = 5 \/ x = 6 \/ x = 7 \/ x = 8 \/ x = 9)
      as Hcases by lia.
    destruct Hcases as [-> | [-> | [-> | [-> | [-> | [-> | [-> | [-> | ->]]]]]]]];
      discriminate.
  - destruct (IH (x / 10)) with (s := String (pretty_N_char (x mod 10)) s)
      as (c & d & Hgo & Hc & Hdc & Hd).
    { apply N.div_lt; lia. }
    { now apply N.neq_0_lt_0. }
    exists c, (d +:+ String (pretty_N_char (x mod 10)) EmptyString).
    split; [|split; [exact Hc|split; [exact Hdc|]]].
    + rewrite Hgo, append_assoc. reflexivity.
    + rewrite all_digits_app, Hd. cbn [all_digits andb].
      now rewrite pretty_N_char_digit.
Qed.

(** A decimal numeral is [0], or digits that do not start with a zero. *)
Lemma pretty_N_shape (n : N) :
  pretty n = "0"
  \/ exists c d, pretty n = String c d
                 /\ c <> "0"%char /\ is_digit c = true /\ all_digits d = true.
Proof.
  unfold pretty, pretty_N. destruct (decide (n = 0)) as [|Hn]; [now left|].
  right. destruct (pretty_N_go_digits n EmptyString) as (c & d & Hgo & H); [lia|].
  exists c, d. split; [|exact H]. rewrite Hgo. f_equal.
  clear. induction d as [|a d IH]; [reflexivity|]. rewrite append_cons. now rewrite IH.
Qed.

Lemma pretty_N_digits (n : N) : all_digits (pretty n) = true /\ pretty n <> EmptyString.
Proof.
  destruct (pretty_N_shape n) as [-> | (c & d & -> & _ & Hc & Hd)].
  - split; [reflexivity | discriminate].
  - split; [cbn [all_digits]; now rewrite Hc, Hd | discriminate].
Qed.

(** The zeros [padStart] puts in front. *)
Lemma zeros_digits (k : nat) : all_digits (string_of_list_ascii (repeat "0"%char k)) = true.
Proof. induction k as [|k IH]; [reflexivity|]. cbn. exact IH. Qed.

Lemma padStart4_digits (n : N) : all_digits (padStart4 n) = true.
Proof.
  unfold padStart4. rewrite all_digits_app, zeros_digits.
  apply pretty_N_digits.
Qed.

(** Zeros in front of two numerals give the same text only for the same
    numeral. *)
Lemma zeros_numeral_inj (a b : nat) (n m : N) :
  string_of_list_ascii (repeat "0"%char a) +:+ pretty n
  = string_of_list_ascii (repeat "0"%char b) +:+ pretty m ->
  n = m.
Proof.
  assert (Hstep : forall (k : nat) (x y : N),
    pretty x = string_of_list_ascii (repeat "0"%char (S k)) +:+ pretty y -> False).
  { intros k x y H.
    destruct (pretty_N_shape x) as [Hx | (c & d & Hx & Hc & _)]; rewrite Hx in H.
    - cbn [repeat string_of_list_ascii] in H. rewrite append_cons in H.
      injection H as H. destruct (pretty_N_digits y) as [_ Hy].
      destruct k; cbn [repeat string_of_list_ascii] in H;
        [rewrite append_nil in H; congruence | rewrite append_cons in H; discriminate].
    - cbn [repeat string_of_list_ascii] in H. rewrite append_cons in H.
      injection H as H _. congruence. }
  revert b. induction a as [|a IH]; intros [|b] H.
  - cbn [repeat string_of_list_ascii] in H. rewrite !append_nil in H.
    now apply pretty_N_inj in H.
  - exfalso. apply (Hstep b n m). exact H.
  - exfalso. apply (Hstep a m n). symmetry. exact H.
  - cbn [repeat string_of_list_ascii] in H. rewrite !append_cons in H.
    injection H as H. now apply IH in H.
Qed.

Lemma padStart4_inj (n m : N) : padStart4 n = padStart4 m -> n = m.
Proof. unfold padStart4. apply zeros_numeral_inj. Qed.

(** Digits end where a dot stands. *)
Lemma digits_dot_inj (d d' x x' : string) :
  all_digits d = true -> all_digits d' = true ->
  d +:+ String "." x = d' +:+ String "." x' -> d = d' /\ x = x'.
Proof.
  revert d'. induction d as [|c d IH]; intros [|c' d'] Hd Hd' H;
    rewrite ?append_cons, ?append_nil in H.
  - injection H as H. auto.
  - injection H as Hc _. subst c'. discriminate Hd'.
  - injection H as Hc _. subst c. discriminate Hd.
  - injection H as Hc H. subst c'. cbn [all_digits] in Hd, Hd'.
    apply andb_true_iff in Hd as [_ Hd]. apply andb_true_iff in Hd' as [_ Hd'].
    destruct (IH d' Hd Hd' H) as [-> ->]. auto.
Qed.

(** *** Generated names *)

Lemma startsWith_inv (pre s : string) :
  startsWith s pre = true -> exists r, s = pre +:+ r.
Proof.
  revert s. induction pre as [|c pre IH]; intros s H; [now exists s|].
  destruct s as [|d s]; [discriminate H|].
  rewrite startsWith_cons in H. apply andb_true_iff in H as [Hc Hs].
  apply Ascii.eqb_eq in Hc. subst d.
  destruct (IH s Hs) as [r ->]. now exists r.
Qed.

(** A name under [docs/ai-] that ends in [.json], [.min.json], [.txt]
    or [.html] is a generated name. *)
Lemma generated_name (q e : string) :
  In e [".json"; ".min.json"; ".txt"; ".html"] ->
  generated ("docs/ai-" +:+ q +:+ e) = true.
Proof.
  intros He. unfold generated, rx_mdx.
  rewrite startsWith_append. cbn [andb]. apply negb_true_iff.
  rewrite <- append_assoc, toLowerCase_app.
  apply orb_false_iff.
  cbn [In] in He. destruct He as [<- | [<- | [<- | [<- | []]]]];
    split; now rewrite endsWith_append by (cbn; lia).
Qed.

(** No generated name passes a predicate of a list, of a pack or of the
    shards. *)
Lemma generated_not_picked (f : File.t) :
  generated (File.path f) = true ->
  docs_predicate f = false /\ data_list_predicate f = false
  /\ data_config_predicate f = false /\ core_predicate f = false
  /\ ci_predicate f = false /\ everything_predicate f = false.
Proof.
  unfold generated. intros H. apply andb_true_iff in H as [Hpre Hmd].
  apply negb_true_iff in Hmd.
  unfold docs_predicate, data_list_predicate, data_config_predicate, core_predicate,
    ci_predicate, everything_predicate.
  rewrite Hmd, Hpre, !andb_false_r.
  destruct (startsWith_inv _ _ Hpre) as [r Hr]. rewrite Hr.
  rewrite toLowerCase_app.
  change (toLowerCase "docs/ai-") with "docs/ai-".
  rewrite !append_cons, !startsWith_cons. cbn [Ascii.eqb Bool.eqb andb negb].
  do 3 (split; [reflexivity|]). split; [|split; reflexivity].
  unfold has. apply bool_decide_eq_false. intros Hin.
  unfold CORE_SET in Hin. rewrite !elem_of_union, !elem_of_singleton in Hin.
  repeat destruct Hin as [Hin | Hin]; discriminate Hin.
Qed.

(** *** The lines of the git listing *)

Lemma span_app (p : ascii -> bool) (a b : string) :
  all_chars p a = true ->
  match b with EmptyString => True | String c _ => p c = false end ->
  span p (a +:+ b) = (a, b).
Proof.
  intros Ha Hb. induction a as [|c a IH].
  - rewrite append_nil. destruct b as [|c b]; [reflexivity|]. cbn [span]. now rewrite Hb.
  - cbn [all_chars] in Ha. apply andb_true_iff in Ha as [Hc Ha].
    rewrite append_cons. cbn [span]. now rewrite Hc, (IH Ha).
Qed.

Lemma run1_app (p : ascii -> bool) (a b : string) :
  a <> EmptyString -> all_chars p a = true ->
  match b with EmptyString => True | String c _ => p c = false end ->
  run1 p (a +:+ b) = Some (a, b).
Proof.
  intros Hne Ha Hb. unfold run1. rewrite span_app by assumption.
  destruct a; [congruence | reflexivity].
Qed.

(** The first character of a non-empty run of one class is not of a
    class disjoint from it. *)
Lemma head_not (p q : ascii -> bool) (a b : string) :
  (forall c, p c = true -> q c = false) ->
  a <> EmptyString -> all_chars p a = true ->
  match a +:+ b with EmptyString => True | String c _ => q c = false end.
Proof.
  intros Hpq Hne Ha. destruct a as [|c a]; [congruence|].
  rewrite append_cons. cbn [all_chars] in Ha. apply andb_true_iff in Ha as [Hc _].
  now apply Hpq.
Qed.

Lemma digit_not_space (c : ascii) : is_digit c = true -> is_space c = false.
Proof. destruct c as [[] [] [] [] [] [] [] []]; vm_compute; congruence. Qed.

Lemma space_not_digit (c : ascii) : is_space c = true -> is_digit c = false.
Proof. destruct c as [[] [] [] [] [] [] [] []]; vm_compute; congruence. Qed.

Lemma word_not_space (c : ascii) : is_word c = true -> is_space c = false.
Proof. destruct c as [[] [] [] [] [] [] [] []]; vm_compute; congruence. Qed.

Lemma space_not_word (c : ascii) : is_space c = true -> is_word c = false.
Proof. destruct c as [[] [] [] [] [] [] [] []]; vm_compute; congruence. Qed.

Lemma hex_not_space (c : ascii) : is_hex c = true -> is_space c = false.
Proof. destruct c as [[] [] [] [] [] [] [] []]; vm_compute; congruence. Qed.

Lemma space_not_hex (c : ascii) : is_space c = true -> is_hex c = false.
Proof. destruct c as [[] [] [] [] [] [] [] []]; vm_compute; congruence. Qed.

Lemma all_digits_chars (s : string) : all_digits s = all_chars is_digit s.
Proof. induction s as [|c s IH]; [reflexivity|]. cbn. now rewrite IH. Qed.

(** X24.  A line of the long listing, that is a mode of digits, a type
    that is a word, forty lower-case hexadecimal digits, a size in
    digits and a path without line terminators, the fields separated by
    white space and the path set off by a tab, matches the pattern of
    [filesFromGitTree]: the groups are the hash, the size as a number and
    the path, whatever white space pads the size. *)
Theorem ls_tree_line_is_parsed
    (mode sp1 type sp2 blobSha pad sizeStr filePath : string) :
  mode <> EmptyString -> all_chars is_digit mode = true ->
  sp1 <> EmptyString -> all_chars is_space sp1 = true ->
  type <> EmptyString -> all_chars is_word type = true ->
  sp2 <> EmptyString -> all_chars is_space sp2 = true ->
  String.length blobSha = 40%nat -> all_chars is_hex blobSha = true ->
  pad <> EmptyString -> all_chars is_space pad = true ->
  sizeStr <> EmptyString -> all_chars is_digit sizeStr = true ->
  filePath <> EmptyString ->
  all_chars (fun a => negb (is_line_terminator a)) filePath = true ->
  match_line (mode +:+ sp1 +:+ type +:+ sp2 +:+ blobSha +:+ pad +:+ sizeStr
              +:+ String "009" filePath)
  = Some (blobSha, number_of_digits 0 sizeStr, filePath).
Proof.
  intros Hmode Hmoded Hsp1 Hsp1s Htype Htypew Hsp2 Hsp2s Hlen Hhex Hpad Hpads
         Hsize Hsized Hpath Hpathc.
  assert (Hsha : blobSha <> EmptyString) by (intros ->; discriminate Hlen).
  unfold match_line.
  rewrite (run1_app is_digit mode) by
    (try assumption; now apply (head_not is_space is_digit), Hsp1s; [apply space_not_digit|]).
  rewrite (run1_app is_space sp1) by
    (try assumption; now apply (head_not is_word is_space), Htypew; [apply word_not_space|]).
  rewrite (run1_app is_word type) by
    (try assumption; now apply (head_not is_space is_word), Hsp2s; [apply space_not_word|]).
  rewrite (run1_app is_space sp2) by
    (try assumption; now apply (head_not is_hex is_space), Hhex; [apply hex_not_space|]).
  rewrite (span_app is_hex blobSha) by
    (try assumption; now apply (head_not is_space is_hex), Hpads; [apply space_not_hex|]).
  rewrite Hlen. cbn [Nat.eqb negb].
  rewrite (run1_app is_space pad) by
    (try assumption; now apply (head_not is_digit is_space), Hsized; [apply digit_not_space|]).
  rewrite (run1_app is_digit sizeStr) by (try assumption; reflexivity).
  rewrite Ascii.eqb_refl, Hpathc.
  destruct filePath; [congruence | reflexivity].
Qed.

(** X25.  A line whose size field does not start with a digit, as the
    [-] that git prints for a submodule, does not match: the entry is
    left out of every index, list and pack without a warning. *)
Theorem ls_tree_line_without_size_is_skipped
    (mode sp1 type sp2 blobSha pad rest : string) (c : ascii) :
  mode <> EmptyString -> all_chars is_digit mode = true ->
  sp1 <> EmptyString -> all_chars is_space sp1 = true ->
  type <> EmptyString -> all_chars is_word type = true ->
  sp2 <> EmptyString -> all_chars is_space sp2 = true ->
  String.length blobSha = 40%nat -> all_chars is_hex blobSha = true ->
  pad <> EmptyString -> all_chars is_space pad = true ->
  is_digit c = false -> is_space c = false ->
  match_line (mode +:+ sp1 +:+ type +:+ sp2 +:+ blobSha +:+ pad +:+ String c rest) = None.
Proof.
  intros Hmode Hmoded Hsp1 Hsp1s Htype Htypew Hsp2 Hsp2s Hlen Hhex Hpad Hpads Hcd Hcs.
  assert (Hsha : blobSha <> EmptyString) by (intros ->; discriminate Hlen).
  unfold match_line.
  rewrite (run1_app is_digit mode) by
    (try assumption; now apply (head_not is_space is_digit), Hsp1s; [apply space_not_digit|]).
  rewrite (run1_app is_space sp1) by
    (try assumption; now apply (head_not is_word is_space), Htypew; [apply word_not_space|]).
  rewrite (run1_app is_word type) by
    (try assumption; now apply (head_not is_space is_word), Hsp2s; [apply space_not_word|]).
  rewrite (run1_app is_space sp2) by
    (try assumption; now apply (head_not is_hex is_space), Hhex; [apply hex_not_space|]).
  rewrite (span_app is_hex blobSha) by
    (try assumption; now apply (head_not is_space is_hex), Hpads; [apply space_not_hex|]).
  rewrite Hlen. cbn [Nat.eqb negb].
  rewrite (run1_app is_space pad) by (try assumption; exact Hcs).
  unfold run1. cbn [span]. now rewrite Hcd.
Qed.

(** X26.  The output of [git ls-tree] is read line by line: for lines
    without a line feed, joined by line feeds, the matches are those of
    the lines, in order; an empty line gives none. *)
Theorem ls_tree_is_read_line_by_line (lines : list string) :
  lines <> [] ->
  forallb (fun line => negb (has_char "010" line)) lines = true ->
  ls_tree_lines (join (String "010" EmptyString) lines)
  = flat_map (fun line => match match_line line with Some m => [m] | None => [] end) lines.
Proof.
  intros Hne Hlines. unfold ls_tree_lines. rewrite split_join by assumption.
  clear. induction lines as [|line lines IH]; [reflexivity|].
  cbn [List.filter flat_map].
  destruct (String.eqb_spec line EmptyString) as [->|_]; cbn [negb flat_map app].
  - exact IH.
  - now rewrite IH.
Qed.

(** *** Long documents *)

Lemma accents_S (n : nat) : accents (S n) = xc3 :: xa9 :: accents n.
Proof. reflexivity. Qed.

Lemma accents_length (n : nat) : length (accents n) = (2 * n)%nat.
Proof. induction n as [|n IH]; [reflexivity|]. rewrite accents_S. cbn [length]. lia. Qed.

(** Each pair of bytes decodes to the one code unit of U+00E9. *)
Lemma decode_accents (n : nat) : toString_utf8 (accents n) = repeat 233 n.
Proof.
  unfold toString_utf8. induction n as [|n IH]; [reflexivity|].
  rewrite accents_S. cbn [repeat]. rewrite <- IH. reflexivity.
Qed.

Lemma accents_wf (n : nat) : WellFormedUtf8 (accents n).
Proof.
  induction n as [|n IH]; [constructor|]. rewrite accents_S.
  apply wf_two; [vm_compute; split; discriminate ..|exact IH].
Qed.

Lemma byteLength_accents (n : nat) : byteLength (repeat 233 n) = 2 * N.of_nat n.
Proof.
  rewrite <- decode_accents. unfold byteLength.
  rewrite (utf8_roundtrip _ (accents_wf n)), accents_length. lia.
Qed.

Lemma big_buffer_length : N.of_nat (length big_buffer) = 4400000.
Proof.
  unfold big_buffer. rewrite accents_length, Nat2N.inj_mul, N2Nat.id. reflexivity.
Qed.

Lemma huge_buffer_length : N.of_nat (length huge_buffer) = 536870889.
Proof. unfold huge_buffer. rewrite repeat_length. apply N2Nat.id. Qed.

Lemma big_buffer_decoded : toString_utf8 big_buffer = repeat 233 (N.to_nat 2200000).
Proof. apply decode_accents. Qed.

Lemma big_buffer_fits : sample_too_long big_buffer = false.
Proof. unfold sample_too_long. rewrite big_buffer_length. reflexivity. Qed.

Lemma huge_buffer_too_long : sample_too_long huge_buffer = true.
Proof. unfold sample_too_long. rewrite huge_buffer_length. reflexivity. Qed.


Section Properties.

Context {rt : Runtime}.

(** ** The shard packer *)

Lemma fold_left_invariant {A B} (f : A -> B -> A) (I : A -> list B -> Prop) :
  (forall a done b, I a done -> I (f a b) (done ++ [b])) ->
  forall l a done, I a done -> I (fold_left f l a) (done ++ l).
Proof.
  intros Hstep. induction l as [|b l IH]; intros a done Ha; simpl.
  - now rewrite app_nil_r.
  - replace (done ++ b :: l) with ((done ++ [b]) ++ l) by now rewrite <- app_assoc.
    apply IH, Hstep, Ha.
Qed.

Lemma in_removelast {A} (x : A) (l : list A) : In x (removelast l) -> In x l.
Proof.
  induction l as [|a [|b l] IH]; simpl; [tauto | tauto |].
  intros [H | H]; [now left | right; apply IH, H].
Qed.

Lemma shard_bytes_app (l1 l2 : list Item.t) :
  shard_bytes (l1 ++ l2) = shard_bytes l1 + shard_bytes l2.
Proof. induction l1 as [|i l1 IH]; simpl; [reflexivity|]. rewrite IH. lia. Qed.

Lemma shard_bytes_firstn (k : nat) (l : list Item.t) :
  shard_bytes (firstn k l) <= shard_bytes l.
Proof.
  rewrite <- (firstn_skipn k l) at 2. rewrite shard_bytes_app. lia.
Qed.

Lemma everything_locals_content (f : File.t) :
  l_inline_state (everything_locals f) = none -> l_content (everything_locals f) = None.
Proof.
  unfold everything_locals, metadata_only.
  repeat match goal with
  | |- context [match ?x with _ => _ end] => destruct x
  end; simpl; congruence.
Qed.

Lemma pack_locals_content (f : File.t) :
  l_inline_state (pack_locals f) = none -> l_content (pack_locals f) = None.
Proof.
  unfold pack_locals, metadata_only.
  repeat match goal with
  | |- context [match ?x with _ => _ end] => destruct x
  end; simpl; congruence.
Qed.

(** The loop adds to [bytes] the length of the content of the item. *)
Lemma everything_item_bytes (f : File.t) :
  item_bytes (everything_item f) = content_length (l_content (everything_locals f)).
Proof.
  unfold everything_item, make_item, item_bytes, content_length. simpl.
  pose proof (everything_locals_content f) as H.
  destruct (l_inline_state (everything_locals f)); try reflexivity.
  now rewrite H.
Qed.

(** What an item records as [inline_bytes], when it has the property,
    is the length of its content, 0 when it has no content. *)
Lemma everything_item_inline_bytes (f : File.t) :
  Item.inline_bytes (everything_item f) = None
  \/ Item.inline_bytes (everything_item f) = Some (item_bytes (everything_item f)).
Proof.
  unfold everything_item, make_item, item_bytes, content_length. simpl.
  destruct (l_inline_state (everything_locals f)); auto.
Qed.

Lemma threshold_firstn (k : nat) (l : list Item.t) :
  threshold_reached l = false -> threshold_reached (firstn k l) = false.
Proof.
  unfold threshold_reached. rewrite !orb_false_iff, !N.leb_gt.
  intros [Hb Hn]. pose proof (shard_bytes_firstn k l). rewrite length_firstn. lia.
Qed.

Lemma shard_inv_init : shard_inv shard_init [].
Proof. unfold shard_inv, shard_init; simpl. repeat split; constructor. Qed.

Lemma shard_inv_step (st : ShardState) (done : list File.t) (f : File.t) :
  shard_inv st done -> shard_inv (shard_step st f) (done ++ [f]).
Proof.
  intros (Hcat & Hbytes & Hopen & Hok & Hclosed).
  unfold shard_step. fold (everything_item f).
  set (its := items st ++ [everything_item f]).
  assert (Hb : bytes st + content_length (l_content (everything_locals f)) = shard_bytes its).
  { unfold its. rewrite shard_bytes_app, Hbytes, <- everything_item_bytes. simpl. lia. }
  assert (Hlen : N.of_nat (length its) <= SHARD_MAX_ITEMS).
  { unfold its. rewrite length_app. simpl.
    unfold threshold_reached in Hopen. apply orb_false_iff in Hopen as [_ Hn].
    apply N.leb_gt in Hn. lia. }
  assert (Hcat' : concat (map Pack.items (emitted st)) ++ its
                  = map everything_item (done ++ [f])).
  { unfold its. rewrite map_app, app_assoc, Hcat. reflexivity. }
  cbn [items bytes]. rewrite Hb. fold (threshold_reached its).
  destruct (threshold_reached its) eqn:Hreach.
  - unfold flush. cbn [items]. destruct its as [|i0 its0] eqn:Hits.
    { unfold its in Hits. destruct (items st); discriminate. }
    rewrite <- Hits in *. unfold shard_inv; cbn [emitted items bytes shards shardIdx log].
    repeat split.
    + rewrite map_app, concat_app. simpl. rewrite !app_nil_r. exact Hcat'.
    + apply List.Forall_app; split; [exact Hok|]. constructor; [|constructor].
      unfold shard_ok; cbn [Pack.items Pack.count]. repeat split.
      * rewrite Hits. discriminate.
      * exact Hlen.
      * intros k Hk. unfold its in *. rewrite length_app in Hk. simpl in Hk.
        rewrite firstn_app.
        replace (k - length (items st))%nat with 0%nat by lia.
        rewrite firstn_O, app_nil_r. now apply threshold_firstn.
    + apply List.Forall_app; split; [exact Hclosed|]. constructor; [exact Hreach|constructor].
  - unfold shard_inv; cbn [emitted items bytes]. repeat split; assumption.
Qed.

(** One turn of the loop closes the shard exactly when the test on the
    shard with the new item holds: then the shard is written with that
    item as its last and a new one begins; otherwise the item is kept in
    progress and nothing is written. *)
Lemma shard_step_closes_iff (st : ShardState) (f : File.t) :
  bytes st = shard_bytes (items st) ->
  let its := items st ++ [everything_item f] in
  (threshold_reached its = true ->
     items (shard_step st f) = [] /\ bytes (shard_step st f) = 0
     /\ exists p, emitted (shard_step st f) = emitted st ++ [p] /\ Pack.items p = its)
  /\ (threshold_reached its = false ->
      items (shard_step st f) = its /\ emitted (shard_step st f) = emitted st
      /\ log (shard_step st f) = log st).
Proof.
  intros Hbytes its. unfold shard_step. fold (everything_item f). fold its.
  assert (Hb : bytes st + content_length (l_content (everything_locals f)) = shard_bytes its).
  { unfold its. rewrite shard_bytes_app, Hbytes, <- everything_item_bytes. simpl. lia. }
  cbn [items bytes]. rewrite Hb. fold (threshold_reached its).
  destruct (threshold_reached its); split; intros H; try discriminate.
  - unfold flush. cbn [items]. destruct its as [|i0 its0] eqn:Hits.
    { unfold its in Hits. destruct (items st); discriminate. }
    cbn [items bytes emitted]. repeat split. eexists. split; reflexivity.
  - cbn [items emitted log]. now repeat split.
Qed.

Lemma shard_inv_loop (files : list File.t) :
  shard_inv (fold_left shard_step (everything_subset files) shard_init)
            (everything_subset files).
Proof.
  apply (fold_left_invariant shard_step shard_inv shard_inv_step _ _ []), shard_inv_init.
Qed.

(** After the last [flush]: nothing is left in progress, the shards hold
    the items of the files in order, every shard is as [shard_ok] says,
    and all but the last had reached a threshold. *)
Lemma shard_run_spec (files : list File.t) :
  items (shard_run files) = []
  /\ concat (map Pack.items (emitted (shard_run files)))
     = map everything_item (everything_subset files)
  /\ Forall shard_ok (emitted (shard_run files))
  /\ Forall (fun p => threshold_reached (Pack.items p) = true)
            (removelast (emitted (shard_run files))).
Proof.
  unfold shard_run.
  destruct (shard_inv_loop files) as (Hcat & Hbytes & Hopen & Hok & Hclosed).
  set (st := fold_left shard_step (everything_subset files) shard_init) in *.
  unfold flush. destruct (items st) as [|i0 its0] eqn:Hits.
  - rewrite Hits. rewrite app_nil_r in Hcat. repeat split; try assumption.
    apply List.Forall_forall. intros p Hp. rewrite List.Forall_forall in Hclosed.
    apply Hclosed. now apply in_removelast.
  - cbn [items emitted]. repeat split.
    + rewrite map_app, concat_app. simpl. rewrite app_nil_r. exact Hcat.
    + apply List.Forall_app; split; [exact Hok|]. constructor; [|constructor].
      unfold shard_ok; cbn [Pack.items Pack.count]. repeat split.
      * discriminate.
      * unfold threshold_reached in Hopen. apply orb_false_iff in Hopen as [_ Hn].
        apply N.leb_gt in Hn. lia.
      * intros k _. now apply threshold_firstn.
    + rewrite removelast_last. exact Hclosed.
Qed.

(** The manifest lists the shards written, with their counts. *)
Lemma shards_of_emitted (files : list File.t) :
  map ShardInfo.count (shards (shard_run files))
  = map Pack.count (emitted (shard_run files)).
Proof.
  assert (Hloop : forall l st,
    map ShardInfo.count (shards st) = map Pack.count (emitted st) ->
    map ShardInfo.count (shards (fold_left shard_step l st))
    = map Pack.count (emitted (fold_left shard_step l st))
    ).
  { assert (Hflush : forall st,
      map ShardInfo.count (shards st) = map Pack.count (emitted st) ->
      map ShardInfo.count (shards (flush st)) = map Pack.count (emitted (flush st))).
    { intros st H. unfold flush. destruct (items st); [exact H|].
      cbn [shards emitted]. rewrite !map_app, H. reflexivity. }
    induction l as [|f l IH]; intros st H; simpl; [exact H|].
    apply IH. unfold shard_step.
    match goal with |- context [if ?c then _ else _] => destruct c end;
      [apply Hflush|]; exact H. }
  unfold shard_run. unfold flush at 1 2.
  match goal with |- context [items ?s] => set (st := s) end.
  assert (H : map ShardInfo.count (shards st) = map Pack.count (emitted st))
    by (apply Hloop; reflexivity).
  destruct (items st); [exact H|].
  cbn [shards emitted]. rewrite !map_app, H. reflexivity.
Qed.

Lemma combine_snoc {A B} (l1 : list A) (l2 : list B) (a : A) (b : B) :
  length l1 = length l2 -> combine (l1 ++ [a]) (l2 ++ [b]) = combine l1 l2 ++ [(a, b)].
Proof.
  revert l2. induction l1 as [|x l1 IH]; intros [|y l2] H; simpl in *; try discriminate.
  - reflexivity.
  - now rewrite IH by lia.
Qed.

Lemma numbered_snoc (packs : list Pack.t) (p : Pack.t) :
  numbered (packs ++ [p]) = numbered packs ++ [(N.of_nat (S (length packs)), p)].
Proof.
  unfold numbered. rewrite length_app. simpl length.
  replace (length packs + 1)%nat with (S (length packs)) by lia.
  rewrite seq_S, map_app. simpl map.
  apply combine_snoc. now rewrite length_map, length_seq.
Qed.

Lemma flush_files (st : ShardState) : shard_files_inv st -> shard_files_inv (flush st).
Proof.
  intros (Hidx & Hshards & Hlog). unfold flush.
  destruct (items st) as [|i0 its0] eqn:Hits; [now repeat split|].
  unfold shard_files_inv. cbn [shardIdx shards emitted log].
  rewrite numbered_snoc, map_app, flat_map_app, length_app. cbn [map flat_map fst snd length].
  rewrite app_nil_r, Hidx, Hshards, Hlog. cbn [Pack.count].
  repeat split. lia.
Qed.

(** The files of the shards: the k-th shard written is listed k-th in
    the manifest and is in the three files named by the number k. *)
Lemma shard_run_files (files : list File.t) : shard_files_inv (shard_run files).
Proof.
  unfold shard_run. apply flush_files.
  apply (fold_left_invariant shard_step (fun st _ => shard_files_inv st)) with (done := []).
  - intros st done f H. unfold shard_step.
    match goal with |- context [if ?c then _ else _] => destruct c end;
      [apply flush_files|]; exact H.
  - now repeat split.
Qed.

(** C1.  The items of the shards, shard after shard and in the order
    they have within each shard, are exactly the items of the filtered
    files (those outside [docs/ai-] and [.git/]) in their original order:
    each file gives one item, and flushing drops or reorders none.  The
    shards are the packs written to the files numbered 0001, 0002, ... in
    that order, and no item is left unwritten. *)
Theorem shards_concat_is_filtered_list (files : list File.t) :
  concat (map Pack.items (emitted (shard_run files)))
    = map everything_item (List.filter everything_predicate files)
  /\ map Item.path (concat (map Pack.items (emitted (shard_run files))))
    = map File.path (List.filter everything_predicate files)
  /\ items (shard_run files) = []
  /\ log (shard_run files)
     = flat_map (fun kp => pack_writes (shard_name (fst kp)) (snd kp))
                (numbered (emitted (shard_run files))).
Proof.
  destruct (shard_run_spec files) as (Hleft & Hcat & _ & _).
  destruct (shard_run_files files) as (_ & _ & Hlog).
  fold (everything_subset files). repeat split; try assumption.
  rewrite Hcat, map_map. reflexivity.
Qed.

(** C2, as amended.  A shard closes exactly when the running total of
    the lengths of the contents, counted as [content.length] counts them
    (UTF-16 code units for a text, characters for base64), or the number
    of items reaches its threshold: no shard has more items than the cap,
    no shard went on after a proper prefix of it had reached a threshold,
    every shard but the last reached one, and the last flush leaves
    nothing in progress.  The total is that of the contents themselves,
    and what an item records as [inline_bytes] is its share of it. *)
Theorem shard_closing_rule (files : list File.t) :
  Forall (fun p => N.of_nat (length (Pack.items p)) <= SHARD_MAX_ITEMS)
         (emitted (shard_run files))
  /\ Forall (fun p => forall k, (k < length (Pack.items p))%nat ->
                       shard_bytes (firstn k (Pack.items p)) < SHARD_TARGET_BYTES
                       /\ N.of_nat k < SHARD_MAX_ITEMS)
            (emitted (shard_run files))
  /\ Forall (fun p => SHARD_TARGET_BYTES <= shard_bytes (Pack.items p)
                      \/ SHARD_MAX_ITEMS <= N.of_nat (length (Pack.items p)))
            (removelast (emitted (shard_run files)))
  /\ items (shard_run files) = []
  /\ concat (map Pack.items (emitted (shard_run files)))
     = map everything_item (everything_subset files)
  /\ Forall (fun p => Forall (fun it =>
                (forall c, Item.content it = Some c -> item_bytes it = N.of_nat (length c))
                /\ (Item.content it = None -> item_bytes it = 0)
                /\ (Item.inline_bytes it = None
                    \/ Item.inline_bytes it = Some (item_bytes it)))
              (Pack.items p))
            (emitted (shard_run files))
  /\ SHARD_TARGET_BYTES = 4194304 /\ SHARD_MAX_ITEMS = 500.
Proof.
  destruct (shard_run_spec files) as (Hleft & Hcat & Hok & Hclosed).
  repeat split; try assumption.
  - eapply List.Forall_impl; [|exact Hok]. intros p (_ & _ & Hlen & _). exact Hlen.
  - eapply List.Forall_impl; [|exact Hok]. intros p (_ & _ & _ & Hpre) k Hk.
    specialize (Hpre k Hk). unfold threshold_reached in Hpre.
    apply orb_false_iff in Hpre as [Hb Hn]. apply N.leb_gt in Hb, Hn.
    rewrite length_firstn in Hn. split; [exact Hb | lia].
  - eapply List.Forall_impl; [|exact Hclosed]. intros p Hp. unfold threshold_reached in Hp.
    apply orb_true_iff in Hp. rewrite !N.leb_le in Hp. exact Hp.
  - apply List.Forall_forall. intros p Hp. apply List.Forall_forall. intros it Hit.
    assert (Hin : In it (concat (map Pack.items (emitted (shard_run files))))).
    { apply List.in_concat. exists (Pack.items p). split; [now apply List.in_map | exact Hit]. }
    rewrite Hcat in Hin. apply List.in_map_iff in Hin as (f & <- & _).
    unfold item_bytes at 1 2.
    split; [intros c ->; reflexivity|]. split; [intros ->; reflexivity|].
    apply everything_item_inline_bytes.
Qed.

(** A list of files that does not reach a threshold goes to one
    shard. *)
Lemma one_shard_below_thresholds (files : list File.t) :
  everything_subset files <> [] ->
  threshold_reached (map everything_item (everything_subset files)) = false ->
  map Pack.items (emitted (shard_run files))
  = [map everything_item (everything_subset files)].
Proof.
  intros Hne Hopen.
  destruct (shard_run_spec files) as (_ & Hcat & Hok & Hclosed).
  destruct (emitted (shard_run files)) as [|p [|q packs]].
  - cbn in Hcat. destruct (everything_subset files); [congruence | discriminate Hcat].
  - cbn in Hcat. rewrite app_nil_r in Hcat. cbn. now rewrite Hcat.
  - exfalso. cbn [removelast] in Hclosed. inversion Hclosed as [|? ? Hp _]; subst.
    cbn [map concat] in Hcat.
    assert (Hpre : Pack.items p
                   = firstn (length (Pack.items p))
                            (map everything_item (everything_subset files))).
    { rewrite <- Hcat. rewrite firstn_app, Nat.sub_diag, firstn_all. cbn. now rewrite app_nil_r. }
    rewrite Hpre in Hp. rewrite (threshold_firstn _ _ Hopen) in Hp. discriminate Hp.
Qed.

(** C10.  No shard is empty: every shard written and every entry of the
    manifest has a count of at least one, whatever the number of files;
    with no file to pack, no shard is written at all. *)
Theorem no_empty_shard (files : list File.t) :
  Forall (fun p => Pack.items p <> [] /\ 1 <= Pack.count p) (emitted (shard_run files))
  /\ Forall (fun s => 1 <= ShardInfo.count s) (shards (shard_run files))
  /\ Forall (fun s => 1 <= ShardInfo.count s) (fst (fst (writeEverythingSharded files)))
  /\ (everything_subset files = [] ->
      emitted (shard_run files) = [] /\ shards (shard_run files) = []).
Proof.
  destruct (shard_run_spec files) as (Hleft & Hcat & Hok & Hclosed).
  assert (Hpacks : Forall (fun p => Pack.items p <> [] /\ 1 <= Pack.count p)
                          (emitted (shard_run files))).
  { eapply List.Forall_impl; [|exact Hok]. intros p (Hne & Hcount & _). split; [exact Hne|].
    rewrite Hcount. destruct (Pack.items p); [congruence | simpl; lia]. }
  assert (Hshards : Forall (fun s => 1 <= ShardInfo.count s) (shards (shard_run files))).
  { apply List.Forall_forall. intros s Hs.
    apply (List.in_map ShardInfo.count) in Hs. rewrite shards_of_emitted in Hs.
    apply List.in_map_iff in Hs as (p & Hp & Hin). rewrite List.Forall_forall in Hpacks.
    rewrite <- Hp. now apply Hpacks. }
  repeat split; try assumption.
  - unfold shard_run. rewrite H. reflexivity.
  - unfold shard_run. rewrite H. reflexivity.
Qed.

(** ** The inline decision *)

Lemma pack_locals_decision (f : File.t) : Decision f (pack_json f) (pack_locals f).
Proof.
  unfold pack_locals, pack_json.
  destruct (gitShow (File.path f)) as [buf|] eqn:Hbuf; [|constructor].
  destruct (has TEXT_EXT _).
  - destruct (_ || _) eqn:Hfull;
      [destruct (string_too_long buf) eqn:Hlong;
         [now apply decide_text_thrown with buf | now apply decide_text]|].
    apply orb_false_iff in Hfull as [_ Hsize]. apply N.leb_gt in Hsize.
    destruct (0 <? PREVIEW_TEXT_BYTES); [|constructor].
    now apply decide_preview.
  - destruct (File.size f <=? INLINE_BIN_BYTES) eqn:Hsize; [|constructor].
    apply N.leb_le in Hsize. now apply decide_binary.
Qed.

Lemma everything_locals_decision (f : File.t) :
  Decision f (everything_json f) (everything_locals f).
Proof.
  unfold everything_locals, everything_json.
  destruct (gitShow (File.path f)) as [buf|] eqn:Hbuf; [|constructor].
  destruct (isTextPath _).
  - destruct (_ || _) eqn:Hfull;
      [destruct (string_too_long buf) eqn:Hlong;
         [now apply decide_text_thrown with buf | now apply decide_text]|].
    apply orb_false_iff in Hfull as [_ Hsize]. apply N.leb_gt in Hsize.
    destruct (0 <? PREVIEW_TEXT_BYTES); [|constructor].
    now apply decide_preview.
  - destruct (File.size f <=? INLINE_BIN_BYTES) eqn:Hsize; [|constructor].
    apply N.leb_le in Hsize. now apply decide_binary.
Qed.

(** Every item of a pack or a shard is built from a file of [files] by
    one of the two loops. *)
Lemma emitted_item_origin (files : list File.t) (it : Item.t) :
  emitted_item files it ->
  exists f, In f files /\ (it = pack_item f \/ it = everything_item f).
Proof.
  intros [(name & _ & Hin) | (p & Hp & Hin)].
  - unfold writePack in Hin. cbn [fst Pack.items] in Hin.
    apply List.in_map_iff in Hin as (f & <- & Hf).
    apply List.filter_In in Hf as [Hf _]. eauto.
  - assert (Hcat : In it (concat (map Pack.items (emitted (shard_run files))))).
    { apply List.in_concat. exists (Pack.items p). split; [|exact Hin].
      now apply List.in_map. }
    destruct (shard_run_spec files) as (_ & Heq & _). rewrite Heq in Hcat.
    apply List.in_map_iff in Hcat as (f & <- & Hf).
    apply List.filter_In in Hf as [Hf _]. eauto.
Qed.

Lemma emitted_item_decision (files : list File.t) (it : Item.t) :
  emitted_item files it ->
  exists f json l, In f files /\ Decision f json l /\ it = make_item f l
                   /\ (json = pack_json f \/ json = everything_json f).
Proof.
  intros H. apply emitted_item_origin in H as (f & Hf & [-> | ->]).
  - exists f, (pack_json f), (pack_locals f).
    repeat split; auto using pack_locals_decision.
  - exists f, (everything_json f), (everything_locals f).
    repeat split; auto using everything_locals_decision.
Qed.

Lemma pack_item_emitted (files : list File.t) (name : string) (f : File.t) :
  In name pack_names -> In f files -> predicate_of name f = true ->
  emitted_item files (pack_item f).
Proof.
  intros Hname Hf Hpred. left. exists name. split; [exact Hname|].
  unfold writePack. cbn [fst Pack.items].
  apply List.in_map, List.filter_In. now split.
Qed.

Lemma everything_item_emitted (files : list File.t) (f : File.t) :
  In f files -> everything_predicate f = true ->
  emitted_item files (everything_item f).
Proof.
  intros Hf Hpred. right.
  assert (Hin : In (everything_item f)
                   (concat (map Pack.items (emitted (shard_run files))))).
  { destruct (shard_run_spec files) as (_ & -> & _).
    apply List.in_map, List.filter_In. now split. }
  apply List.in_concat in Hin as (l & Hl & Hin).
  apply List.in_map_iff in Hl as (p & <- & Hp). eauto.
Qed.

(** C3.  An item embedded as a preview carries the SHA-256 of the whole
    file as [gitShow] read it, while its content is decoded from the
    first [PREVIEW_TEXT_BYTES] bytes only; the hash is that of the slice
    only if the two hashes happen to be equal. *)
Theorem preview_hash_is_of_full_file (files : list File.t) (it : Item.t) :
  emitted_item files it ->
  Item.inline_state it = preview ->
  exists f buf,
    In f files /\ Item.path it = File.path f
    /\ gitShow (File.path f) = Some buf
    /\ Item.content_sha256 it = Some (sha256 buf)
    /\ Item.content it = Some (toString_utf8 (slice0 buf PREVIEW_TEXT_BYTES))
    /\ (sha256 (slice0 buf PREVIEW_TEXT_BYTES) <> sha256 buf ->
        Item.content_sha256 it <> Some (sha256 (slice0 buf PREVIEW_TEXT_BYTES))).
Proof.
  intros Hem Hstate.
  apply emitted_item_decision in Hem as (f & json & l & Hf & Hdec & -> & _).
  destruct Hdec as [ | buf Hbuf Hfit | buf Hbuf Hlong | buf Hbuf Hsize | buf Hbuf Hsize ];
    cbn in Hstate; try discriminate.
  exists f, buf. cbn. repeat split; auto. congruence.
Qed.


(** C5.  The content of a preview has at most [PREVIEW_TEXT_BYTES]
    (65536) code units, and that length is what the item records as
    [inline_bytes]. *)
Theorem preview_within_budget (files : list File.t) (it : Item.t) :
  emitted_item files it ->
  Item.inline_state it = preview ->
  exists c,
    Item.content it = Some c
    /\ Item.inline_bytes it = Some (N.of_nat (length c))
    /\ N.of_nat (length c) <= PREVIEW_TEXT_BYTES
    /\ PREVIEW_TEXT_BYTES = 65536.
Proof.
  intros Hem Hstate.
  apply emitted_item_decision in Hem as (f & json & l & Hf & Hdec & -> & _).
  destruct Hdec as [ | buf Hbuf Hfit | buf Hbuf Hlong | buf Hbuf Hsize | buf Hbuf Hsize ];
    cbn in Hstate; try discriminate.
  eexists. cbn. repeat split.
  pose proof (toString_utf8_length (slice0 buf PREVIEW_TEXT_BYTES)).
  pose proof (slice0_length buf PREVIEW_TEXT_BYTES). lia.
Qed.

Lemma get_prop_app (k : jsstring) (l1 l2 : list (jsstring * JSValue)) :
  get_prop k (l1 ++ l2)
  = match get_prop k l1 with
    | Some v => Some v
    | None => get_prop k l2
    end.
Proof.
  induction l1 as [|[k1 v1] l1 IH]; simpl; [reflexivity|].
  destruct (jsstring_eqb k1 k); [reflexivity | exact IH].
Qed.

Lemma get_prop_media (k : string) (m : MediaType) :
  String.eqb k "media_type" = false ->
  In k ["encoding"; "content"; "inline_bytes"; "content_sha256"; "json_hint"] ->
  get_prop (key k) (media_prop m) = None.
Proof.
  intros _ Hk. destruct m as [s | s]; simpl.
  - simpl in Hk. decompose [or] Hk; subst; try reflexivity; contradiction.
  - destruct (String.eqb s "constructor"); simpl; [reflexivity|].
    simpl in Hk. decompose [or] Hk; subst; try reflexivity; contradiction.
Qed.

Ltac emitted_prop_simpl :=
  unfold emitted_prop, item_to_json; cbn [json_props Item.path Item.size Item.sha
    Item.media_type Item.raw_url Item.html_url Item.inline_state
    Item.max_inline_text_bytes Item.max_inline_bin_bytes Item.preview_text_bytes
    Item.encoding Item.content Item.inline_bytes Item.content_sha256 Item.json_hint];
  repeat (rewrite get_prop_app;
          try rewrite get_prop_media by (simpl; auto 10));
  cbn.

(** What the claim C6 says of the fields of an item, as far as it
    holds: an item whose [inline_state] is [none] has no [encoding], no
    [content] and no [content_sha256], neither as a property of the
    object built nor in the JSON written; an item whose state is [full]
    or [preview] has an [encoding] and an [inline_bytes], and it has a
    [content] exactly when it has a [content_sha256]. *)
Lemma inline_fields_by_state (files : list File.t) (it : Item.t) :
  emitted_item files it ->
  (Item.inline_state it = none ->
     Item.encoding it = None /\ Item.content it = None
     /\ Item.content_sha256 it = None
     /\ emitted_prop "encoding" it = None /\ emitted_prop "content" it = None
     /\ emitted_prop "content_sha256" it = None)
  /\ (Item.inline_state it <> none ->
      exists e n,
        Item.encoding it = Some e /\ Item.inline_bytes it = Some n
        /\ emitted_prop "encoding" it = Some (JStr (encoding_name e))
        /\ ((exists c h,
               Item.content it = Some c /\ Item.content_sha256 it = Some h
               /\ n = N.of_nat (length c)
               /\ emitted_prop "content" it = Some (JString c)
               /\ emitted_prop "content_sha256" it = Some (JStr h))
            \/ (Item.inline_state it = full /\ e = utf8 /\ n = 0
                /\ Item.content it = None /\ Item.content_sha256 it = None
                /\ emitted_prop "content" it = None
                /\ emitted_prop "content_sha256" it = None))).
Proof.
  intros Hem.
  apply emitted_item_decision in Hem as (f & json & l & Hf & Hdec & -> & _).
  destruct Hdec as [ | buf Hbuf Hfit | buf Hbuf Hlong | buf Hbuf Hsize | buf Hbuf Hsize ];
    split; intros Hstate; cbn in Hstate; try discriminate; try congruence.
  - unfold make_item; cbn [l_inline_state metadata_only].
    repeat split; emitted_prop_simpl; reflexivity.
  - do 2 eexists. unfold make_item; cbn [l_inline_state l_encoding l_content l_content_sha l_meta].
    split; [reflexivity|]. split; [reflexivity|].
    split; [emitted_prop_simpl; reflexivity|].
    left. do 2 eexists. repeat split; emitted_prop_simpl; reflexivity.
  - do 2 eexists. unfold make_item, full_text_thrown;
      cbn [l_inline_state l_encoding l_content l_content_sha l_meta].
    split; [reflexivity|]. split; [reflexivity|].
    split; [emitted_prop_simpl; reflexivity|].
    right. repeat split; emitted_prop_simpl; reflexivity.
  - do 2 eexists. unfold make_item; cbn [l_inline_state l_encoding l_content l_content_sha l_meta].
    split; [reflexivity|]. split; [reflexivity|].
    split; [emitted_prop_simpl; reflexivity|].
    left. do 2 eexists. repeat split; emitted_prop_simpl; reflexivity.
  - do 2 eexists. unfold make_item; cbn [l_inline_state l_encoding l_content l_content_sha l_meta].
    split; [reflexivity|]. split; [reflexivity|].
    split; [emitted_prop_simpl; reflexivity|].
    left. do 2 eexists. repeat split; emitted_prop_simpl; reflexivity.
Qed.

(** An item of a file that is text, is embedded in full and whose
    decoding throws. *)
Lemma thrown_item (f : File.t) (buf : Buffer) :
  gitShow (File.path f) = Some buf ->
  isTextPath (File.path f) = true ->
  alwaysFullText (File.path f) || (File.size f <=? INLINE_TEXT_BYTES) = true ->
  string_too_long buf = true ->
  pack_item f = make_item f full_text_thrown
  /\ everything_item f = make_item f full_text_thrown.
Proof.
  intros Hbuf Htext Hfull Hlong.
  unfold pack_item, everything_item, pack_locals, everything_locals.
  rewrite Htext. rewrite isTextPath_ext in Htext. rewrite Htext, Hbuf, Hlong.
  cbn [andb]. rewrite Hfull. split; reflexivity.
Qed.

(** An item of a file that is text, is embedded in full and is
    decoded. *)
Lemma full_text_item (f : File.t) (buf : Buffer) :
  gitShow (File.path f) = Some buf ->
  isTextPath (File.path f) = true ->
  alwaysFullText (File.path f) || (File.size f <=? INLINE_TEXT_BYTES) = true ->
  string_too_long buf = false ->
  pack_item f
  = make_item f (mkLocals full (Some utf8) (Some (toString_utf8 buf)) (Some (sha256 buf)) None)
  /\ everything_item f
     = make_item f (mkLocals full (Some utf8) (Some (toString_utf8 buf))
                             (Some (sha256 buf)) None).
Proof.
  intros Hbuf Htext Hfull Hlong.
  unfold pack_item, everything_item, pack_locals, everything_locals.
  rewrite Htext. rewrite isTextPath_ext in Htext. rewrite Htext, Hbuf, Hlong.
  cbn [andb]. rewrite Hfull. split; reflexivity.
Qed.

(** The fields of an item built with the state [full]. *)
Lemma make_item_full (f : File.t) (e : option Encoding) (c : option jsstring)
      (h : option string) :
  let it := make_item f (mkLocals full e c h None) in
  Item.path it = File.path f /\ Item.size it = File.size f
  /\ Item.inline_state it = full /\ Item.encoding it = e /\ Item.content it = c
  /\ Item.inline_bytes it = Some (content_length c) /\ Item.content_sha256 it = h.
Proof. cbn zeta. repeat split. Qed.


(** ** The JSON shape hint *)



(** ** The filesystem fallback *)

(** Every record of the walk has an empty [git_blob_sha]. *)
Lemma walk_entry_blob_sha :
  forall (e : Dirent) (dir : string),
    Forall (fun f => File.git_blob_sha f = EmptyString) (walk_entry dir e).
Proof.
  fix IH 1. intros [name size | name ents] dir; cbn [walk_entry].
  - destruct (startsWith _ _); repeat constructor.
  - destruct (startsWith _ _); [constructor|].
    induction ents as [|e ents IHents]; cbn [flat_map]; [constructor|].
    apply List.Forall_app. split; [apply IH | exact IHents].
Qed.

Lemma walk_blob_sha (dir : string) (ents : list Dirent) :
  Forall (fun f => File.git_blob_sha f = EmptyString) (walk dir ents).
Proof.
  unfold walk. induction ents as [|e ents IH]; cbn [flat_map]; [constructor|].
  apply List.Forall_app. split; [apply walk_entry_blob_sha | exact IH].
Qed.

(** An entry of the working directory whose name starts with [.git] is
    left out with all it holds, whether or not it is the directory
    [.git]. *)
Lemma walk_entry_skips (name : string) (size : N) (ents : list Dirent) :
  startsWith name ".git" = true ->
  walk_entry "." (FileEnt name size) = [] /\ walk_entry "." (DirEnt name ents) = [].
Proof.
  intros H. cbn [walk_entry]. unfold path_join. cbn [String.eqb Ascii.eqb Bool.eqb].
  now rewrite H.
Qed.

(** The path recorded for a file whose name starts with a dot has lost
    the dot. *)
Lemma strip_dot_drops_dot (s : string) : strip_dot (String "." s) = drop_slashes s.
Proof. reflexivity. Qed.

(** The walk is taken exactly when the git listing gives no file. *)
Lemma gather_fallback (lines : list (string * N * string)) (cwd : list Dirent) :
  (filesFromGitTree lines = [] -> gather lines cwd = walk "." cwd)
  /\ (filesFromGitTree lines <> [] -> gather lines cwd = filesFromGitTree lines).
Proof.
  unfold gather. destruct (filesFromGitTree lines); simpl; split; congruence.
Qed.

(** ** The combined pack *)

Lemma replay_app (l1 l2 : list write) (store : gmap string jsstring) :
  replay (l1 ++ l2) store = replay l2 (replay l1 store).
Proof. unfold replay. apply fold_left_app. Qed.

Lemma last_write_app (k : string) (l1 l2 : list write) :
  last_write k (l1 ++ l2)
  = match last_write k l2 with
    | Some v => Some v
    | None => last_write k l1
    end.
Proof.
  induction l1 as [|[k1 v1] l1 IH]; simpl.
  - destruct (last_write k l2); reflexivity.
  - rewrite IH. destruct (last_write k l2); reflexivity.
Qed.

(** A file holds what was last written to it, or what it held before. *)
Lemma replay_lookup (k : string) (log : list write) :
  forall store : gmap string jsstring,
  replay log store !! k
  = match last_write k log with
    | Some v => Some v
    | None => store !! k
    end.
Proof.
  induction log as [|[k1 v1] log IH]; intros store; simpl; [reflexivity|].
  change (replay log (<[k1:=v1]> store) !! k = 
          match match last_write k log with
                | Some v' => Some v'
                | None => if String.eqb k1 k then Some v1 else None
                end with
          | Some v => Some v
          | None => store !! k
          end).
  rewrite IH. destruct (last_write k log); [reflexivity|].
  destruct (String.eqb_spec k1 k) as [->|Hne].
  - apply lookup_insert_eq.
  - now apply lookup_insert_ne.
Qed.

Lemma last_write_other (k : string) (log : list write) :
  startsWith k "docs/ai-pack-everything" = false ->
  Forall everything_file log -> last_write k log = None.
Proof.
  intros Hk. induction 1 as [|[k1 v1] log Hw _ IH]; simpl; [reflexivity|].
  rewrite IH. destruct (String.eqb_spec k1 k) as [->|]; [|reflexivity].
  unfold everything_file in Hw. simpl in Hw. congruence.
Qed.

Lemma flush_log (st : ShardState) :
  Forall everything_file (log st) -> Forall everything_file (log (flush st)).
Proof.
  intros H. unfold flush. destruct (items st); [exact H|]. cbn [log].
  apply List.Forall_app. split; [exact H|].
  unfold pack_writes. repeat constructor.
Qed.

Lemma shard_run_log (files : list File.t) :
  Forall everything_file (log (shard_run files)).
Proof.
  unfold shard_run. apply flush_log.
  apply (fold_left_invariant shard_step
           (fun st _ => Forall everything_file (log st))) with (done := []);
    [|constructor].
  intros st done f H. unfold shard_step.
  match goal with |- context [if ?c then _ else _] => destruct c end;
    [apply flush_log|]; exact H.
Qed.

Lemma everything_log (files : list File.t) :
  Forall everything_file (snd (writeEverythingSharded files)).
Proof.
  unfold writeEverythingSharded. cbn [snd].
  apply List.Forall_app. split; [apply shard_run_log|]. repeat constructor.
Qed.

(** The minified file of each named pack still holds, when the combined
    pack is built, what [writePack] wrote to it. *)
Lemma pack_file_survives (files : list File.t) (store : gmap string jsstring) (n : string) :
  In n pack_names ->
  replay (packs_log files) store !! ("docs/" +:+ n +:+ ".min.json")
  = Some (JSON_stringify (pack_to_json (fst (writePack files n (predicate_of n))))).
Proof.
  intros Hn. rewrite replay_lookup. unfold packs_log.
  rewrite !last_write_app.
  destruct Hn as [<- | [<- | [<- | [<- | []]]]].
  all: rewrite last_write_other with (log := snd (writeEverythingSharded files))
         by first [reflexivity | apply everything_log].
  all: reflexivity.
Qed.

Lemma items_of_pack_json (p : Pack.t) :
  items_or_empty (pack_to_json p) = Some (JArray (map item_to_json (Pack.items p))).
Proof. reflexivity. Qed.

Lemma count_of_pack_json (p : Pack.t) :
  get_prop (key "count") (json_props (pack_to_json p)) = Some (JNum (Pack.count p)).
Proof. reflexivity. Qed.

Lemma writePack_count (files : list File.t) (n : string) (pred : File.t -> bool) :
  Pack.count (fst (writePack files n pred))
  = N.of_nat (length (Pack.items (fst (writePack files n pred)))).
Proof. reflexivity. Qed.

(** C9.  When each of the four named packs reads back from its minified
    file as the object that was written, the combined pack has a section
    under the name of each, and the count of the section, which is the
    number of items read back, is the number the pack recorded in its own
    [count] field. *)
Theorem combined_counts_match_packs
    (files : list File.t) (store : gmap string jsstring) (name : string) :
  In name pack_names ->
  (forall n, In n pack_names ->
     JSON_parse (JSON_stringify (pack_to_json (fst (writePack files n (predicate_of n)))))
     = Some (pack_to_json (fst (writePack files n (predicate_of n))))) ->
  exists sections sec text p,
    run_combined files store = Some sections
    /\ section_of name sections = Some sec
    /\ replay (packs_log files) store !! ("docs/" +:+ name +:+ ".min.json") = Some text
    /\ JSON_parse text = Some p
    /\ get_prop (key "count") (json_props p)
       = Some (JNum (Pack.count (fst (writePack files name (predicate_of name)))))
    /\ CombinedSection.count sec
       = Some (JNum (Pack.count (fst (writePack files name (predicate_of name)))))
    /\ CombinedSection.items sec
       = JArray (map item_to_json
                   (Pack.items (fst (writePack files name (predicate_of name))))).
Proof.
  intros Hname Hround.
  assert (Hread : forall n, In n pack_names ->
    read_pack (replay (packs_log files) store) n
    = Some (n, JArray (map item_to_json
                         (Pack.items (fst (writePack files n (predicate_of n))))))).
  { intros n Hn. unfold read_pack.
    rewrite (pack_file_survives files store n Hn), (Hround n Hn), items_of_pack_json.
    reflexivity. }
  unfold run_combined, combined_sections.
  unfold pack_names in *. cbn [read_packs].
  rewrite !Hread by (simpl; tauto).
  eexists. eexists.
  exists (JSON_stringify (pack_to_json (fst (writePack files name (predicate_of name))))).
  exists (pack_to_json (fst (writePack files name (predicate_of name)))).
  split; [reflexivity|].
  rewrite (pack_file_survives files store name Hname), (Hround name Hname).
  rewrite count_of_pack_json, writePack_count.
  destruct Hname as [<- | [<- | [<- | [<- | []]]]].
  all: cbn [map fst snd section_of String.eqb Ascii.eqb Bool.eqb].
  all: repeat split; cbn [CombinedSection.count CombinedSection.items js_length].
  all: now rewrite length_map.
Qed.

(** ** The two loops compared *)

Lemma locals_agree (f : File.t) :
  String.eqb (toLowerCase (File.path f)) "json" = false ->
  everything_locals f = pack_locals f.
Proof.
  intros Hp. unfold everything_locals, pack_locals.
  rewrite isTextPath_ext, (json_flags_agree _ Hp).
  destruct (gitShow _); [|reflexivity].
  destruct (has TEXT_EXT _); reflexivity.
Qed.

(** X2.  For every file but one whose whole path is [json] in some
    case, the loop of [writeEverythingSharded] builds the very item the
    loop of [writePack] builds. *)
Theorem loops_build_the_same_item (f : File.t) :
  String.eqb (toLowerCase (File.path f)) "json" = false ->
  everything_item f = pack_item f.
Proof.
  intros Hp. unfold everything_item, pack_item. now rewrite locals_agree.
Qed.

Lemma bare_json_path (p : string) :
  toLowerCase p = "json" ->
  pop_ext p = p /\ rx_json p = false /\ alwaysFullText p = false.
Proof.
  intros H. assert (Hdot : has_char "." p = false).
  { rewrite <- has_char_toLowerCase, H. reflexivity. }
  split; [unfold pop_ext; now rewrite split_no_sep|].
  split; [unfold rx_json; now rewrite H|].
  unfold alwaysFullText, rx_docs_dir. rewrite H.
  destruct (has ALWAYS_TEXT_FULL_PATHS p) eqn:Hin; [|reflexivity].
  unfold has in Hin. apply bool_decide_eq_true in Hin.
  unfold ALWAYS_TEXT_FULL_PATHS in Hin.
  apply elem_of_union in Hin as [Hin | Hin]; apply elem_of_singleton in Hin;
    subst p; discriminate.
Qed.

(** X3.  The one file on which the loops differ: a large file whose
    whole path is [json] gets a JSON hint in a targeted pack, where the
    extension is tested, and none in a shard, where the pattern [.json]
    is. *)
Theorem loops_differ_on_bare_json (f : File.t) (buf : Buffer) :
  toLowerCase (File.path f) = "json" ->
  INLINE_TEXT_BYTES < File.size f ->
  gitShow (File.path f) = Some buf ->
  Item.inline_state (pack_item f) = preview
  /\ Item.json_hint (pack_item f) = jsonShapeHint buf
  /\ Item.inline_state (everything_item f) = preview
  /\ Item.json_hint (everything_item f) = None.
Proof.
  intros Hp Hsize Hbuf.
  destruct (bare_json_path _ Hp) as (Hext & Hrx & Hfull).
  apply N.leb_gt in Hsize.
  unfold pack_item, everything_item, pack_locals, everything_locals.
  rewrite isTextPath_ext, Hext, Hp, Hrx, Hfull, Hbuf, Hsize.
  repeat split.
Qed.

(** ** The inline decision as a table *)

(** X4.  The state of an item, by what is known of its file: [none]
    exactly when the file cannot be read or is binary and above
    [INLINE_BIN_BYTES]; [preview] exactly when it can be read, is text,
    is not always embedded in full and is above [INLINE_TEXT_BYTES];
    [full] otherwise.  Both loops give the same state. *)
Theorem inline_state_table (f : File.t) :
  Item.inline_state (everything_item f) = Item.inline_state (pack_item f)
  /\ (Item.inline_state (pack_item f) = none <->
      gitShow (File.path f) = None
      \/ (isTextPath (File.path f) = false /\ INLINE_BIN_BYTES < File.size f))
  /\ (Item.inline_state (pack_item f) = preview <->
      gitShow (File.path f) <> None /\ isTextPath (File.path f) = true
      /\ alwaysFullText (File.path f) = false /\ INLINE_TEXT_BYTES < File.size f).
Proof.
  unfold pack_item, everything_item, make_item. cbn [Item.inline_state].
  unfold pack_locals, everything_locals, metadata_only. rewrite isTextPath_ext.
  change (0 <? PREVIEW_TEXT_BYTES) with true.
  destruct (gitShow (File.path f)) as [buf|];
    [|cbn; intuition congruence].
  destruct (has TEXT_EXT _); cbn [andb].
  - destruct (alwaysFullText _); cbn [orb].
    + destruct (string_too_long buf); unfold full_text_thrown; cbn [l_inline_state];
        intuition congruence.
    + destruct (N.leb_spec (File.size f) INLINE_TEXT_BYTES).
      * destruct (string_too_long buf); unfold full_text_thrown; cbn [l_inline_state];
          intuition (try congruence; lia).
      * cbn [l_inline_state]. intuition congruence.
  - destruct (N.leb_spec (File.size f) INLINE_BIN_BYTES); cbn [l_inline_state].
    + intuition (try congruence; lia).
    + intuition congruence.
Qed.

(** X5.  A text file that [alwaysFullText] names (anything under
    [docs/] in any case, and the two data files listed) is never cut to a
    preview, whatever its size: both loops give it the state [full] and
    build the same item, which holds the whole text, or, when the text is
    too long for a string and its decoding throws, no content at all. *)
Theorem always_full_text_is_never_cut (f : File.t) (buf : Buffer) :
  alwaysFullText (File.path f) = true ->
  isTextPath (File.path f) = true ->
  gitShow (File.path f) = Some buf ->
  everything_item f = pack_item f
  /\ Item.inline_state (pack_item f) = full
  /\ Item.encoding (pack_item f) = Some utf8
  /\ (string_too_long buf = false ->
      Item.content (pack_item f) = Some (toString_utf8 buf)
      /\ Item.content_sha256 (pack_item f) = Some (sha256 buf)
      /\ Item.inline_bytes (pack_item f) = Some (N.of_nat (length (toString_utf8 buf))))
  /\ (string_too_long buf = true ->
      Item.content (pack_item f) = None
      /\ Item.content_sha256 (pack_item f) = None
      /\ Item.inline_bytes (pack_item f) = Some 0).
Proof.
  intros Hfull Htext Hbuf.
  unfold pack_item, everything_item, pack_locals, everything_locals.
  rewrite Htext. rewrite isTextPath_ext in Htext. rewrite Htext, Hfull, Hbuf.
  cbn [andb orb].
  destruct (string_too_long buf); do 3 (split; [reflexivity|]);
    split; intros Hs; try discriminate Hs; repeat split.
Qed.

(** X6.  When the first [PREVIEW_TEXT_BYTES] bytes of a file are
    well-formed UTF-8, the content of its preview is a prefix of the
    text of the whole file: the text is the preview followed by the
    decoding of the bytes left out. *)
Theorem preview_is_a_prefix_of_the_text (f : File.t) (buf : Buffer) :
  gitShow (File.path f) = Some buf ->
  Item.inline_state (pack_item f) = preview ->
  WellFormedUtf8 (slice0 buf PREVIEW_TEXT_BYTES) ->
  exists c,
    Item.content (pack_item f) = Some c
    /\ Item.content (everything_item f) = Some c
    /\ toString_utf8 buf = c ++ toString_utf8 (skipn (N.to_nat PREVIEW_TEXT_BYTES) buf).
Proof.
  intros Hbuf Hstate Hwf.
  exists (toString_utf8 (slice0 buf PREVIEW_TEXT_BYTES)).
  assert (Hcut : toString_utf8 buf
                 = toString_utf8 (slice0 buf PREVIEW_TEXT_BYTES)
                   ++ toString_utf8 (skipn (N.to_nat PREVIEW_TEXT_BYTES) buf)).
  { rewrite <- decode_well_formed_app by exact Hwf.
    unfold slice0. now rewrite firstn_skipn. }
  revert Hstate.
  unfold pack_item, everything_item, make_item, pack_locals, everything_locals.
  rewrite isTextPath_ext, Hbuf.
  change (0 <? PREVIEW_TEXT_BYTES) with true.
  destruct (has TEXT_EXT _); cbn [andb].
  - destruct (alwaysFullText _ || _);
      [destruct (string_too_long buf); cbn; discriminate|].
    cbn. auto.
  - destruct (File.size f <=? INLINE_BIN_BYTES); cbn; discriminate.
Qed.

(** X7.  An item embedded in base64 counts four characters for every
    three bytes of the file, the last group rounded up: its
    [inline_bytes] is four times the ceiling of a third of the length
    of the buffer read. *)
Theorem base64_item_length (f : File.t) (buf : Buffer) :
  gitShow (File.path f) = Some buf ->
  Item.encoding (pack_item f) = Some base64 ->
  Item.inline_bytes (pack_item f) = Some (N.of_nat (4 * ((length buf + 2) / 3)))
  /\ Item.inline_bytes (everything_item f) = Some (N.of_nat (4 * ((length buf + 2) / 3))).
Proof.
  intros Hbuf. unfold pack_item, everything_item, make_item, pack_locals, everything_locals.
  rewrite isTextPath_ext, Hbuf.
  change (0 <? PREVIEW_TEXT_BYTES) with true.
  destruct (has TEXT_EXT _); cbn [andb].
  - destruct (alwaysFullText _ || _);
      [destruct (string_too_long buf)|]; cbn; discriminate.
  - destruct (File.size f <=? INLINE_BIN_BYTES); cbn; [|discriminate].
    intros _. now rewrite toString_base64_length.
Qed.

(** ** Listing the files *)

(** X8.  The listing from git keeps the lines in order and leaves out
    exactly those under [.git/], so that the filter of the sharded pack
    only has the generated files under [docs/ai-] left to remove. *)
Theorem git_listing_leaves_out_dot_git_dir (lines : list (string * N * string)) :
  map File.path (filesFromGitTree lines)
  = List.filter (fun p => negb (startsWith p ".git/")) (map snd lines)
  /\ everything_subset (filesFromGitTree lines)
     = List.filter (fun f => negb (startsWith (File.path f) "docs/ai-"))
                   (filesFromGitTree lines).
Proof.
  unfold everything_subset, everything_predicate, filesFromGitTree.
  induction lines as [|[[sha size] p] lines [IH1 IH2]]; [split; reflexivity|].
  cbn [flat_map map snd List.filter].
  destruct (startsWith p ".git/") eqn:Hgit; cbn [negb app].
  - split; assumption.
  - cbn [map List.filter File.path]. rewrite Hgit, andb_true_r.
    split; [now rewrite IH1|].
    destruct (negb (startsWith p "docs/ai-")); now rewrite IH2.
Qed.

Lemma joined_not_dot_git (dir name : string) :
  startsWith dir ".git" = false -> String.eqb dir "." = false ->
  startsWith (path_join dir name) ".git" = false
  /\ String.eqb (path_join dir name) "." = false.
Proof.
  intros Hgit Hdot. unfold path_join. rewrite Hdot. split.
  - destruct dir as [|c0 [|c1 [|c2 [|c3 dir]]]];
      rewrite ?append_cons, ?append_nil, ?startsWith_cons, ?startsWith_nil_r in *;
      try exact Hgit;
      repeat match goal with
      | |- context [Ascii.eqb ?a ?b] => destruct (Ascii.eqb_spec a b); subst
      end; cbn in *; try reflexivity; try discriminate.
  - destruct dir as [|c0 [|c1 dir]];
      rewrite ?append_cons, ?append_nil; cbn [String.eqb];
      [reflexivity | apply andb_false_r ..].
Qed.

(** Below a directory that is kept the walk skips nothing. *)
Lemma walk_entry_below :
  forall (e : Dirent) (dir : string),
    startsWith dir ".git" = false -> String.eqb dir "." = false ->
    walk_entry dir e = map walk_record (tree_files dir e).
Proof.
  fix IH 1. intros [name size | name ents] dir Hgit Hdot; cbn [walk_entry tree_files];
    destruct (joined_not_dot_git dir name Hgit Hdot) as [Hp Hq]; rewrite Hp.
  - reflexivity.
  - induction ents as [|e ents IHents]; cbn [flat_map]; [reflexivity|].
    rewrite map_app, <- IHents. f_equal. now apply IH.
Qed.

Lemma tree_files_sizes :
  forall (e : Dirent) (dir : string), map snd (tree_files dir e) = tree_sizes e.
Proof.
  fix IH 1. intros [name size | name ents] dir; cbn [tree_files tree_sizes]; [reflexivity|].
  induction ents as [|e ents IHents]; cbn [flat_map]; [reflexivity|].
  now rewrite map_app, IHents, IH.
Qed.

(** X9.  The walk of the working directory lists, in order, every file
    at or below each top-level entry whose name does not start with
    [.git], at any depth, and nothing else: its records are those of the
    files of these entries, each with the path joined from the names on
    the way to it (less a dot in front), its size, the media type and the
    URLs of that path, and an empty [git_blob_sha]. *)
Theorem walk_lists_all_but_dot_git_names (ents : list Dirent) :
  Forall (fun e => String.eqb (ent_name e) "." = false) ents ->
  walk "." ents
  = map walk_record
      (flat_map (tree_files ".")
         (List.filter (fun e => negb (startsWith (ent_name e) ".git")) ents))
  /\ map File.path (walk "." ents)
     = map (fun file => strip_dot (fst file))
         (flat_map (tree_files ".")
            (List.filter (fun e => negb (startsWith (ent_name e) ".git")) ents))
  /\ map File.size (walk "." ents)
     = flat_map tree_sizes
         (List.filter (fun e => negb (startsWith (ent_name e) ".git")) ents)
  /\ Forall (fun f => File.git_blob_sha f = EmptyString) (walk "." ents).
Proof.
  intros Hnames.
  assert (Hwalk : walk "." ents
    = map walk_record
        (flat_map (tree_files ".")
           (List.filter (fun e => negb (startsWith (ent_name e) ".git")) ents))).
  { unfold walk. induction Hnames as [|e ents He _ IH]; [reflexivity|].
    cbn [flat_map List.filter]. rewrite IH.
    destruct e as [name size | name sub]; cbn [ent_name walk_entry tree_files] in *;
      change (path_join "." name) with name;
      destruct (startsWith name ".git") eqn:Hgit; cbn [negb flat_map tree_files];
      change (path_join "." name) with name;
      rewrite ?map_app; try reflexivity.
    f_equal.
    induction sub as [|e sub IHsub]; cbn [flat_map]; [reflexivity|].
    rewrite map_app, <- IHsub. f_equal. now apply walk_entry_below. }
  split; [exact Hwalk|]. split; [|split; [|apply walk_blob_sha]].
  - rewrite Hwalk, map_map. reflexivity.
  - rewrite Hwalk, map_map. clear Hwalk. cbn [walk_record File.size].
    induction (List.filter _ ents) as [|e l IH]; [reflexivity|].
    cbn [flat_map]. rewrite map_app, IH. f_equal. apply tree_files_sizes.
Qed.

(** ** URLs *)

(** X10.  [enc] encodes a path segment by segment: when no encoded
    segment holds a slash (and [encodeURIComponent] writes a slash as
    [%2F]), the encoded path has the segments of the path, each
    encoded, between the same slashes. *)
Theorem enc_keeps_segments (p : string) :
  forallb (fun seg => negb (has_char "/" (encodeURIComponent seg))) (split p "/") = true ->
  split (enc p) "/" = map encodeURIComponent (split p "/").
Proof.
  intros H. unfold enc. apply split_join.
  - pose proof (split_not_nil p "/"). destruct (split p "/"); [congruence | discriminate].
  - rewrite forallb_forall in *. intros seg Hseg.
    apply List.in_map_iff in Hseg as (s & <- & Hs). now apply H.
Qed.

(** ** The combined pack, when a pack cannot be read *)

Lemma items_or_empty_none (p : JSValue) : items_or_empty p = None <-> p = JNull.
Proof.
  destruct p as [ | | | | |props]; cbn; try (split; congruence).
  destruct (get_prop _ props) as [v|]; [destruct (truthy v)|]; split; congruence.
Qed.

Lemma read_packs_none (store : gmap string jsstring) (names : list string) :
  read_packs store names = None <-> exists n, In n names /\ read_pack store n = None.
Proof.
  induction names as [|n names IH]; cbn [read_packs].
  - split; [discriminate | intros (n & [] & _)].
  - destruct (read_pack store n) eqn:Hn.
    + destruct (read_packs store names).
      * split; [discriminate|]. intros (m & [<- | Hm] & Hnone); [congruence|].
        assert (H : Some l = None) by (apply IH; eauto).
        discriminate H.
      * split; [|reflexivity]. intros _.
        destruct (proj1 IH eq_refl) as (m & Hm & Hnone). exists m. split; [now right | exact Hnone].
    + split; [|reflexivity]. intros _. exists n. split; [now left | exact Hn].
Qed.

(** X11.  Building the combined pack fails exactly when one of the
    four minified pack files is missing, does not parse, or holds
    [null]; a file that parses to anything else gives a section, empty
    when it has no [items]. *)
Theorem combined_fails_iff_pack_unreadable (store : gmap string jsstring) :
  combined_sections store = None <->
  exists n, In n pack_names /\
    match store !! ("docs/" +:+ n +:+ ".min.json") with
    | None => True
    | Some text =>
      match JSON_parse text with
      | None => True
      | Some p => p = JNull
      end
    end.
Proof.
  unfold combined_sections.
  assert (Hread : forall n, read_pack store n = None <->
    match store !! ("docs/" +:+ n +:+ ".min.json") with
    | None => True
    | Some text =>
      match JSON_parse text with
      | None => True
      | Some p => p = JNull
      end
    end).
  { intros n. unfold read_pack.
    destruct (store !! _) as [text|]; [|tauto].
    destruct (JSON_parse text) as [p|]; [|tauto].
    rewrite <- items_or_empty_none.
    destruct (items_or_empty p); split; congruence. }
  destruct (read_packs store pack_names) eqn:Hp.
  - split; [discriminate|]. intros (n & Hn & Hbad).
    apply Hread in Hbad.
    assert (H : read_packs store pack_names = None) by (apply read_packs_none; eauto).
    congruence.
  - split; [|reflexivity]. intros _.
    apply read_packs_none in Hp as (n & Hn & Hnone). exists n. split; [exact Hn|].
    now apply Hread.
Qed.

(** ** The files of the shards *)

Lemma shard_file_inj (k k' : N) (e e' : string) :
  "docs/" +:+ shard_name k +:+ String "." e = "docs/" +:+ shard_name k' +:+ String "." e' ->
  k = k' /\ e = e'.
Proof.
  unfold shard_name. rewrite !append_assoc. intros H.
  apply (inj (String.append "docs/")) in H.
  apply (inj (String.append "ai-pack-everything-")) in H.
  apply digits_dot_inj in H as [H ->]; try apply padStart4_digits.
  split; [now apply padStart4_inj | reflexivity].
Qed.

Lemma shard_name_inj (k k' : N) : shard_name k = shard_name k' -> k = k'.
Proof.
  unfold shard_name. intros H.
  apply (inj (String.append "ai-pack-everything-")) in H. now apply padStart4_inj.
Qed.

Lemma pack_writes_names (name : string) (pack : Pack.t) :
  map fst (pack_writes name pack)
  = ["docs/" +:+ name +:+ ".json"; "docs/" +:+ name +:+ ".min.json";
     "docs/" +:+ name +:+ ".txt"].
Proof. reflexivity. Qed.

Lemma NoDup_flat_map_keys {A B} (g : N * A -> list B) (l : list (N * A)) :
  NoDup (map fst l) ->
  (forall kp, NoDup (g kp)) ->
  (forall kp kp' x, In x (g kp) -> In x (g kp') -> fst kp = fst kp') ->
  NoDup (flat_map g l).
Proof.
  intros Hkeys Hg Hinj. induction l as [|a l IH]; cbn [flat_map]; [constructor|].
  cbn [map] in Hkeys. apply NoDup_cons in Hkeys as [Ha Hl].
  apply NoDup_app. split; [apply Hg|]. split; [|now apply IH].
  intros x Hx Hx'. apply list_elem_of_In in Hx, Hx'.
  apply List.in_flat_map in Hx' as (kp' & Hkp' & Hx').
  apply Ha. rewrite (Hinj a kp' x Hx Hx').
  apply list_elem_of_In, List.in_map, Hkp'.
Qed.

Lemma numbered_keys (packs : list Pack.t) :
  map fst (numbered packs) = map N.of_nat (seq 1 (length packs)).
Proof.
  unfold numbered.
  assert (H : forall (l1 : list N) (l2 : list Pack.t),
             length l1 = length l2 -> map fst (combine l1 l2) = l1).
  { induction l1 as [|x l1 IH]; intros [|y l2] Hlen; simpl in *; try discriminate;
      [reflexivity | now rewrite IH by lia]. }
  apply H. now rewrite length_map, length_seq.
Qed.

Lemma numbered_values (packs : list Pack.t) : map snd (numbered packs) = packs.
Proof.
  unfold numbered.
  assert (H : forall (l2 : list Pack.t) (l1 : list N),
             length l1 = length l2 -> map snd (combine l1 l2) = l2).
  { induction l2 as [|y l2 IH]; intros [|x l1] Hlen; simpl in *; try discriminate;
      [reflexivity | now rewrite IH by lia]. }
  apply H. now rewrite length_map, length_seq.
Qed.

Lemma numbered_keys_NoDup (packs : list Pack.t) : NoDup (map fst (numbered packs)).
Proof.
  rewrite numbered_keys.
  apply (NoDup_fmap_2 N.of_nat), NoDup_seq.
Qed.

Lemma shard_writes_NoDup (packs : list Pack.t) :
  NoDup (map fst (flat_map (fun kp => pack_writes (shard_name (fst kp)) (snd kp))
                           (numbered packs))).
Proof.
  rewrite flat_map_concat_map, concat_map, map_map, <- flat_map_concat_map.
  apply NoDup_flat_map_keys.
  - apply numbered_keys_NoDup.
  - intros [k p]. rewrite pack_writes_names. cbn [fst].
    repeat (apply NoDup_cons; split);
      [ rewrite !elem_of_cons, elem_of_nil | rewrite !elem_of_cons, elem_of_nil
      | rewrite elem_of_nil | constructor ];
      intros H; repeat destruct H as [H | H]; try exact H;
      apply shard_file_inj in H as [_ H]; discriminate H.
  - intros [k p] [k' p'] x. rewrite !pack_writes_names. cbn [fst In].
    intros H H'.
    repeat destruct H as [H | H]; try contradiction; subst x;
      repeat destruct H' as [H' | H']; try contradiction;
      now apply shard_file_inj in H' as [-> _].
Qed.

Lemma shard_write_name (packs : list Pack.t) (k : string) :
  In k (map fst (flat_map (fun kp => pack_writes (shard_name (fst kp)) (snd kp))
                          (numbered packs))) ->
  startsWith k "docs/ai-pack-everything-" = true.
Proof.
  intros H. apply List.in_map_iff in H as ([k0 v] & <- & H).
  apply List.in_flat_map in H as ([i p] & _ & H).
  unfold pack_writes in H. cbn [In fst] in H.
  repeat destruct H as [H | H]; try contradiction; injection H as <- _.
  - exact (startsWith_append "docs/ai-pack-everything-" (padStart4 i +:+ ".json")).
  - exact (startsWith_append "docs/ai-pack-everything-" (padStart4 i +:+ ".min.json")).
  - exact (startsWith_append "docs/ai-pack-everything-" (padStart4 i +:+ ".txt")).
Qed.

Lemma sharded_files_once (files : list File.t) :
  NoDup (map fst (snd (writeEverythingSharded files))).
Proof.
  unfold writeEverythingSharded. cbn [snd].
  destruct (shard_run_files files) as (_ & _ & ->).
  rewrite map_app. apply NoDup_app. split; [apply shard_writes_NoDup|]. split.
  - intros k Hk Hk'. apply list_elem_of_In in Hk, Hk'.
    apply shard_write_name in Hk. cbn [map fst In] in Hk'.
    repeat destruct Hk' as [Hk' | Hk']; try contradiction; subst k; discriminate Hk.
  - cbn [map fst]. repeat (apply NoDup_cons; split);
      [ rewrite !elem_of_cons, elem_of_nil | rewrite !elem_of_cons, elem_of_nil
      | rewrite elem_of_nil | constructor ];
      intros H; repeat destruct H as [H | H]; try exact H; discriminate H.
Qed.

(** X13.  [writeEverythingSharded] writes no file twice: the shards
    have different names, the three files of a shard differ, and none is
    the manifest or the page; so no shard is overwritten by a later
    one. *)
Theorem sharded_writer_writes_each_file_once (files : list File.t) :
  List.NoDup (map fst (snd (writeEverythingSharded files)))
  /\ List.NoDup (map ShardInfo.name (fst (fst (writeEverythingSharded files)))).
Proof.
  split; [apply NoDup_ListNoDup, sharded_files_once|].
  unfold writeEverythingSharded. cbn [fst].
  destruct (shard_run_files files) as (_ & -> & _).
  rewrite map_map. cbn [ShardInfo.name].
  rewrite <- (map_map fst shard_name). apply NoDup_ListNoDup.
  apply (NoDup_fmap_2 shard_name (Inj0 := shard_name_inj)), numbered_keys_NoDup.
Qed.

Lemma last_write_NoDup (k : string) (v : jsstring) (log : list write) :
  NoDup (map fst log) -> In (k, v) log -> last_write k log = Some v.
Proof.
  induction log as [|[k1 v1] log IH]; cbn [map fst In last_write]; [contradiction|].
  intros Hnd Hin. apply NoDup_cons in Hnd as [Hk1 Hnd].
  destruct Hin as [Heq | Hin].
  - injection Heq as -> ->.
    assert (Hnone : last_write k log = None).
    { clear - Hk1. induction log as [|[k2 v2] log IH]; [reflexivity|].
      cbn [map fst] in Hk1. rewrite not_elem_of_cons in Hk1. destruct Hk1 as [Hne Hk1].
      cbn [last_write]. rewrite (IH Hk1).
      destruct (String.eqb_spec k2 k); [congruence | reflexivity]. }
    now rewrite Hnone, String.eqb_refl.
  - now rewrite (IH Hnd Hin).
Qed.

(** X14.  Every entry of the manifest names a shard that was written:
    its count is the number of items of that pack, its [approx_bytes] the
    length of the minified JSON, and the three files under its name hold,
    when [writeEverythingSharded] returns, that pack: minified in the
    [.min.json] and [.txt] files the manifest links to, indented in the
    [.json] file. *)
Theorem manifest_entries_name_their_files
    (files : list File.t) (store : gmap string jsstring) (s : ShardInfo.t) :
  In s (fst (fst (writeEverythingSharded files))) ->
  exists p,
    In p (snd (fst (writeEverythingSharded files)))
    /\ ShardInfo.count s = N.of_nat (length (Pack.items p))
    /\ ShardInfo.approx_bytes s = N.of_nat (length (JSON_stringify (pack_to_json p)))
    /\ replay (snd (writeEverythingSharded files)) store
         !! ("docs/" +:+ ShardInfo.name s +:+ ".min.json")
       = Some (JSON_stringify (pack_to_json p))
    /\ replay (snd (writeEverythingSharded files)) store
         !! ("docs/" +:+ ShardInfo.name s +:+ ".txt")
       = Some (JSON_stringify (pack_to_json p))
    /\ replay (snd (writeEverythingSharded files)) store
         !! ("docs/" +:+ ShardInfo.name s +:+ ".json")
       = Some (JSON_stringify_pretty (pack_to_json p)).
Proof.
  intros Hs. pose proof (sharded_files_once files) as Hnd.
  revert Hs Hnd. unfold writeEverythingSharded. cbn [fst snd].
  destruct (shard_run_files files) as (_ & Hshards & Hlog).
  destruct (shard_run_spec files) as (_ & _ & Hok & _).
  rewrite Hshards, Hlog. intros Hs Hnd.
  apply List.in_map_iff in Hs as ([k p] & <- & Hkp). cbn [fst snd ShardInfo.name
    ShardInfo.count ShardInfo.approx_bytes].
  assert (Hp : In p (emitted (shard_run files))).
  { unfold numbered in Hkp. now apply in_combine_r in Hkp. }
  exists p. split; [exact Hp|].
  rewrite List.Forall_forall in Hok. destruct (Hok p Hp) as (_ & Hcount & _).
  split; [exact Hcount|]. split; [reflexivity|].
  assert (Hw : forall w, In w (pack_writes (shard_name k) p) ->
    replay
      (flat_map (fun kp => pack_writes (shard_name (fst kp)) (snd kp))
                (numbered (emitted (shard_run files)))
       ++ [("docs/ai-pack-everything.manifest.json",
            JSON_stringify_pretty (manifest_to_json
              (map (fun kp => ShardInfo.mk (shard_name (fst kp)) (Pack.count (snd kp))
                      (N.of_nat (length (JSON_stringify (pack_to_json (snd kp))))))
                   (numbered (emitted (shard_run files))))));
           ("docs/ai-pack-everything.manifest.min.json",
            JSON_stringify (manifest_to_json
              (map (fun kp => ShardInfo.mk (shard_name (fst kp)) (Pack.count (snd kp))
                      (N.of_nat (length (JSON_stringify (pack_to_json (snd kp))))))
                   (numbered (emitted (shard_run files))))));
           ("docs/ai-pack-everything.html",
            everything_html
              (map (fun kp => ShardInfo.mk (shard_name (fst kp)) (Pack.count (snd kp))
                      (N.of_nat (length (JSON_stringify (pack_to_json (snd kp))))))
                   (numbered (emitted (shard_run files)))))]) store !! fst w
    = Some (snd w)).
  { intros [k0 v0] Hin. rewrite replay_lookup. cbn [fst snd].
    rewrite (last_write_NoDup k0 v0); [reflexivity | exact Hnd |].
    apply in_or_app. left. apply List.in_flat_map. exists (k, p). now split. }
  unfold pack_writes in Hw. cbn [In] in Hw.
  split; [|split].
  - apply (Hw (_, _)). auto.
  - apply (Hw (_, _)). auto.
  - apply (Hw (_, _)). auto.
Qed.

(** ** The catalog entry of the sharded pack *)

Lemma fold_left_sum {A} (g : A -> N) (l : list A) (a : N) :
  fold_left (fun x y => x + g y) l a = a + fold_right (fun y x => g y + x) 0 l.
Proof.
  revert a. induction l as [|y l IH]; intros a; cbn [fold_left fold_right]; [lia|].
  rewrite IH. lia.
Qed.

Lemma length_concat_sum (packs : list Pack.t) :
  N.of_nat (length (concat (map Pack.items packs)))
  = fold_right (fun p x => N.of_nat (length (Pack.items p)) + x) 0 packs.
Proof.
  induction packs as [|p packs IH]; [reflexivity|].
  cbn [map concat fold_right]. rewrite length_app, <- IH. lia.
Qed.

(** X15.  The count that the catalog and the manifest give for the
    sharded pack, the counts of the shards added up, is the number of
    files that passed the filter: every such file is counted once,
    whether or not it could be read or embedded. *)
Theorem sharded_count_is_number_of_files (files : list File.t) :
  CatalogEntry.count (everything_catalog_entry (fst (fst (writeEverythingSharded files))))
  = Some (N.of_nat (length (everything_subset files)))
  /\ CatalogEntry.bytes_min
       (everything_catalog_entry (fst (fst (writeEverythingSharded files))))
     = fold_right (fun p x => N.of_nat (length (JSON_stringify (pack_to_json p))) + x) 0
                  (snd (fst (writeEverythingSharded files))).
Proof.
  unfold writeEverythingSharded, everything_catalog_entry.
  cbn [fst snd CatalogEntry.count CatalogEntry.bytes_min].
  destruct (shard_run_spec files) as (_ & Hcat & Hok & _).
  destruct (shard_run_files files) as (_ & Hshards & _).
  rewrite !fold_left_sum, !N.add_0_l, Hshards.
  assert (Hsum : forall (g : ShardInfo.t -> N) (h : Pack.t -> N) (l : list (N * Pack.t)),
    (forall kp, g (ShardInfo.mk (shard_name (fst kp)) (Pack.count (snd kp))
                     (N.of_nat (length (JSON_stringify (pack_to_json (snd kp))))))
                = h (snd kp)) ->
    fold_right (fun s x => g s + x) 0
      (map (fun kp => ShardInfo.mk (shard_name (fst kp)) (Pack.count (snd kp))
                        (N.of_nat (length (JSON_stringify (pack_to_json (snd kp))))))
           l)
    = fold_right (fun p x => h p + x) 0 (map snd l)).
  { intros g h l Hgh. induction l as [|kp l IH]; [reflexivity|].
    cbn [map fold_right]. now rewrite IH, Hgh. }
  specialize (fun g h => Hsum g h (numbered (emitted (shard_run files)))).
  rewrite numbered_values in Hsum. split.
  - f_equal. rewrite <- (length_map everything_item), <- Hcat, length_concat_sum.
    rewrite (Hsum ShardInfo.count Pack.count) by reflexivity.
    clear - Hok. induction Hok as [|p packs Hp _ IH]; [reflexivity|].
    cbn [fold_right]. rewrite IH. destruct Hp as (_ & -> & _). reflexivity.
  - now rewrite (Hsum ShardInfo.approx_bytes
                   (fun p => N.of_nat (length (JSON_stringify (pack_to_json p))))).
Qed.

(** ** The whole run *)

Lemma pack_writes_generated (n : string) (pack : Pack.t) :
  Forall (fun w : write => generated (fst w) = true) (pack_writes ("ai-" +:+ n) pack).
Proof.
  unfold pack_writes. repeat constructor; cbn [fst].
  - apply (generated_name n ".json"). cbn. tauto.
  - apply (generated_name n ".min.json"). cbn. tauto.
  - apply (generated_name n ".txt"). cbn. tauto.
Qed.

Lemma everything_log_generated (files : list File.t) :
  Forall (fun w : write => generated (fst w) = true) (snd (writeEverythingSharded files)).
Proof.
  unfold writeEverythingSharded. cbn [snd].
  destruct (shard_run_files files) as (_ & _ & ->).
  apply List.Forall_app. split; [|repeat constructor].
  apply List.Forall_forall. intros w Hw.
  apply List.in_flat_map in Hw as ([k p] & _ & Hw). cbn [fst snd] in Hw.
  pose proof (pack_writes_generated ("pack-everything-" +:+ padStart4 k) p) as H.
  rewrite List.Forall_forall in H. now apply H.
Qed.

Lemma log_before_combined_generated (branch : string) (files : list File.t) :
  Forall (fun w : write => generated (fst w) = true) (log_before_combined branch files).
Proof.
  unfold log_before_combined, packs_log. rewrite !app_assoc.
  apply List.Forall_app. split; [|apply everything_log_generated].
  repeat (apply List.Forall_app; split); repeat constructor.
Qed.

Lemma main_log_generated (branch : string) (files : list File.t)
    (store : gmap string jsstring) :
  Forall (fun w : write => generated (fst w) = true) (outcome_log (main branch files store)).
Proof.
  unfold main.
  destruct (combined_sections _) as [sections|];
    [|apply log_before_combined_generated].
  destruct (combined_count _ _ _) as [[count|]|]; cbn [outcome_log].
  - apply List.Forall_app. split; [|repeat constructor].
    apply List.Forall_app. split; [apply log_before_combined_generated|].
    repeat constructor.
  - constructor.
  - apply List.Forall_app. split; [apply log_before_combined_generated|].
    repeat constructor.
Qed.

(** X16.  No file that the script writes is picked up by a list, by a
    pack or by the shards: run again at a revision that tracks its own
    outputs, the script lists them in the master index only, and no pack
    embeds a pack. *)
Theorem outputs_are_never_packed
    (branch : string) (files : list File.t) (store : gmap string jsstring)
    (w : write) (f : File.t) :
  In w (outcome_log (main branch files store)) ->
  File.path f = fst w ->
  startsWith (fst w) "docs/ai-" = true
  /\ docs_predicate f = false /\ data_list_predicate f = false
  /\ data_config_predicate f = false /\ core_predicate f = false
  /\ ci_predicate f = false /\ everything_predicate f = false.
Proof.
  intros Hw Hf.
  pose proof (main_log_generated branch files store) as H.
  rewrite List.Forall_forall in H. specialize (H w Hw). rewrite <- Hf in *.
  split; [|now apply generated_not_picked].
  unfold generated in H. now apply andb_true_iff in H as [H _].
Qed.

Lemma pack_file_before_combined (branch : string) (files : list File.t)
    (store : gmap string jsstring) (n : string) :
  In n pack_names ->
  replay (log_before_combined branch files) store !! ("docs/" +:+ n +:+ ".min.json")
  = Some (JSON_stringify (pack_to_json (fst (writePack files n (predicate_of n))))).
Proof.
  intros Hn. unfold log_before_combined. rewrite !replay_app.
  now apply pack_file_survives.
Qed.

Lemma pack_file_after_combined (branch : string) (files : list File.t)
    (store : gmap string jsstring) (sections : list (string * CombinedSection.t))
    (n : string) :
  In n pack_names ->
  replay (log_before_combined branch files ++ combined_writes sections) store
    !! ("docs/" +:+ n +:+ ".min.json")
  = Some (JSON_stringify (pack_to_json (fst (writePack files n (predicate_of n))))).
Proof.
  intros Hn. rewrite replay_app, replay_lookup.
  rewrite <- (pack_file_before_combined branch files store n Hn).
  destruct Hn as [<- | [<- | [<- | [<- | []]]]]; reflexivity.
Qed.

Lemma items_length_pack (store : gmap string jsstring) (n : string) (p : Pack.t) :
  store !! ("docs/" +:+ n +:+ ".min.json") = Some (JSON_stringify (pack_to_json p)) ->
  JSON_parse (JSON_stringify (pack_to_json p)) = Some (pack_to_json p) ->
  items_length store n = Len (N.of_nat (length (Pack.items p))).
Proof.
  intros Hfile Hround. unfold items_length. rewrite Hfile, Hround.
  change (Len (N.of_nat (length (map item_to_json (Pack.items p))))
          = Len (N.of_nat (length (Pack.items p)))).
  now rewrite length_map.
Qed.

(** The sum of the counts of the four targeted packs. *)
Lemma combined_count_of_packs (files : list File.t) (store : gmap string jsstring) :
  (forall n, In n pack_names ->
     store !! ("docs/" +:+ n +:+ ".min.json")
     = Some (JSON_stringify (pack_to_json (fst (writePack files n (predicate_of n)))))) ->
  (forall n, In n pack_names ->
     JSON_parse (JSON_stringify (pack_to_json (fst (writePack files n (predicate_of n)))))
     = Some (pack_to_json (fst (writePack files n (predicate_of n))))) ->
  forall (names : list string) (a : N),
    (forall n, In n names -> In n pack_names) ->
    combined_count store names (Some a)
    = Some (Some (Some (fold_left
         (fun x n => x + Pack.count (fst (writePack files n (predicate_of n)))) names a))).
Proof.
  intros Hfile Hround. induction names as [|n names IH]; intros a Hin; [reflexivity|].
  cbn [combined_count fold_left].
  rewrite (items_length_pack store n (fst (writePack files n (predicate_of n))))
    by (first [apply Hfile | apply Hround]; apply Hin; now left).
  apply IH. intros m Hm. apply Hin. now right.
Qed.

Lemma read_packs_of_packs (files : list File.t) (store : gmap string jsstring) :
  (forall n, In n pack_names ->
     store !! ("docs/" +:+ n +:+ ".min.json")
     = Some (JSON_stringify (pack_to_json (fst (writePack files n (predicate_of n)))))) ->
  (forall n, In n pack_names ->
     JSON_parse (JSON_stringify (pack_to_json (fst (writePack files n (predicate_of n)))))
     = Some (pack_to_json (fst (writePack files n (predicate_of n))))) ->
  forall names : list string,
    (forall n, In n names -> In n pack_names) ->
    read_packs store names
    = Some (map (fun n => (n, JArray (map item_to_json
                   (Pack.items (fst (writePack files n (predicate_of n))))))) names).
Proof.
  intros Hfile Hround. induction names as [|n names IH]; intros Hin; [reflexivity|].
  cbn [read_packs map]. unfold read_pack at 1.
  rewrite Hfile, Hround by (apply Hin; now left).
  rewrite items_of_pack_json, IH; [reflexivity|].
  intros m Hm. apply Hin. now right.
Qed.

(** X17.  When each of the four targeted packs reads back from its
    minified file as the object written, the run completes: the combined
    pack has a section for each pack, in the order of [names], and the
    catalog ends with the entry of the combined pack, whose count is the
    sum of the counts of the four packs. *)
Theorem run_completes_when_packs_read_back
    (branch : string) (files : list File.t) (store : gmap string jsstring) :
  (forall n, In n pack_names ->
     JSON_parse (JSON_stringify (pack_to_json (fst (writePack files n (predicate_of n)))))
     = Some (pack_to_json (fst (writePack files n (predicate_of n))))) ->
  exists log sections,
    main branch files store
    = Completed log
        (packs_catalog files
         ++ [combined_catalog_entry
               (Some (fold_left
                  (fun x n => x + Pack.count (fst (writePack files n (predicate_of n))))
                  pack_names 0))
               sections])
    /\ map fst sections = pack_names
    /\ map (fun s => CombinedSection.count (snd s)) sections
       = map (fun n => Some (JNum (Pack.count (fst (writePack files n (predicate_of n))))))
             pack_names.
Proof.
  intros Hround. unfold main, combined_sections.
  rewrite (read_packs_of_packs files _
             (pack_file_before_combined branch files store) Hround pack_names)
    by auto.
  rewrite (combined_count_of_packs files _
             (pack_file_after_combined branch files store _) Hround pack_names 0)
    by auto.
  eexists _, _. split; [reflexivity|].
  split; [reflexivity|].
  cbn [map pack_names fst snd CombinedSection.count js_length].
  now rewrite !length_map.
Qed.

Ltac find_in :=
  lazymatch goal with
  | |- In _ (map _ (_ ++ _)) => rewrite map_app; find_in
  | |- In _ (map _ (_ :: _)) => rewrite map_cons; find_in
  | |- In _ (_ ++ _) => apply in_or_app; first [left; find_in | right; find_in]
  | |- In _ (_ :: _) => first [left; reflexivity | right; find_in]
  end.

(** X18.  When the run completes, the catalog has six entries: the
    four targeted packs, the sharded pack and the combined pack, in that
    order; every file an entry lists was written by the run, and the
    catalog written to [docs/ai-pack-catalog.min.json] is this one. *)
Theorem catalog_lists_written_files
    (branch : string) (files : list File.t) (store : gmap string jsstring)
    (log : list write) (catalog : list CatalogEntry.t) :
  main branch files store = Completed log catalog ->
  map CatalogEntry.name catalog
  = ["ai-pack-docs"; "ai-pack-data-config"; "ai-pack-core"; "ai-pack-ci";
     "ai-pack-everything (sharded)"; "ai-pack-all (combined)"]
  /\ (forall e k, In e catalog -> In k (CatalogEntry.files e) -> In k (map fst log))
  /\ In ("docs/ai-pack-catalog.min.json", JSON_stringify (catalog_to_json catalog)) log.
Proof.
  unfold main. cbv zeta.
  destruct (combined_sections _) as [sections|]; [|discriminate].
  destruct (combined_count _ _ _) as [[count|]|]; try discriminate.
  intros H. injection H as <- <-.
  split; [reflexivity|]. split.
  - intros e k He Hk.
    cbn [map pack_names app In] in He.
    repeat destruct He as [He | He]; try contradiction; subst e;
      cbn [CatalogEntry.files pack_catalog_entry everything_catalog_entry
           combined_catalog_entry In] in Hk;
      repeat destruct Hk as [Hk | Hk]; try contradiction; subst k;
      unfold combined_writes; find_in.
  - unfold catalog_writes. find_in.
Qed.

(** ** The master index and the lists *)

(** X19.  On the listing from git, the master index counts the lines
    outside [.git/] and its [total_bytes] is the sum of their sizes. *)
Theorem index_totals_listed_lines (lines : list (string * N * string)) :
  Index.files_count (index (filesFromGitTree lines))
  = N.of_nat (length (List.filter (fun l => negb (startsWith (snd l) ".git/")) lines))
  /\ Index.total_bytes (index (filesFromGitTree lines))
     = fold_right (fun l acc => snd (fst l) + acc) 0
         (List.filter (fun l => negb (startsWith (snd l) ".git/")) lines).
Proof.
  unfold index. cbn [Index.files_count Index.total_bytes].
  rewrite (fold_left_sum File.size), N.add_0_l.
  unfold filesFromGitTree.
  induction lines as [|[[sha size] p] lines [IH1 IH2]]; [split; reflexivity|].
  cbn [flat_map List.filter snd fst].
  destruct (startsWith p ".git/"); cbn [negb app]; [split; assumption|].
  cbn [length fold_right File.size fst snd]. rewrite IH2. split; [|reflexivity].
  rewrite !Nat2N.inj_succ. now rewrite IH1.
Qed.

Lemma join_lines_nil (rows : list jsstring) :
  Forall (fun r => r <> []) rows -> join_lines rows = [] -> rows = [].
Proof.
  intros H. destruct H as [|r rows Hr _]; [reflexivity|].
  destruct rows as [|r' rows]; cbn [join_lines]; intros Hj.
  - congruence.
  - destruct r; [congruence | discriminate Hj].
Qed.

(** X20.  The table of a list page has the row that says there is no
    matching file exactly when the list is empty; otherwise it has the
    rows of the files, one for each, and no such row. *)
Theorem list_rows_fallback (subset : list File.t) :
  (subset = [] -> list_rows subset = template list_no_rows)
  /\ (subset <> [] ->
      list_rows subset = join_lines (map list_row subset)
      /\ list_rows subset <> template list_no_rows).
Proof.
  split; [intros ->; reflexivity|].
  intros Hne. destruct subset as [|f rest]; [congruence|].
  assert (Hrow : forall g, exists tail,
            list_row g = units_of_string "<tr><td class=" ++ tail).
  { intros g. eexists. unfold list_row, list_row_parts. cbn [fill template flat_map piece_units].
    rewrite <- !app_assoc. reflexivity. }
  assert (Hjoin : exists tail,
            join_lines (map list_row (f :: rest)) = units_of_string "<tr><td class=" ++ tail).
  { destruct (Hrow f) as [tail Htail]. cbn [map].
    destruct (map list_row rest) as [|r rs]; cbn [join_lines]; rewrite Htail.
    - now exists tail.
    - exists (tail ++ [10] ++ join_lines (r :: rs)). now rewrite <- app_assoc. }
  destruct Hjoin as [tail Hjoin]. unfold list_rows. rewrite Hjoin.
  split; [reflexivity|]. discriminate.
Qed.

(** ** Every file is written once *)

Lemma NoDup_around (A E B : list string) :
  NoDup (A ++ B) -> NoDup E -> (forall x, x ∈ E -> x ∉ A ++ B) -> NoDup (A ++ E ++ B).
Proof.
  intros HAB HE Hdis. rewrite (Permutation_app_swap_app A E B).
  apply NoDup_app. auto.
Qed.

Lemma everything_names_apart (files : list File.t) (names : list string) :
  forallb (fun k => negb (startsWith k "docs/ai-pack-everything")) names = true ->
  forall x, x ∈ map fst (snd (writeEverythingSharded files)) -> x ∉ names.
Proof.
  intros Hnames x Hx Hx'. apply list_elem_of_In in Hx, Hx'.
  apply List.in_map_iff in Hx as (w & <- & Hw).
  pose proof (everything_log files) as Hlog. rewrite List.Forall_forall in Hlog.
  specialize (Hlog w Hw). unfold everything_file in Hlog.
  rewrite forallb_forall in Hnames. specialize (Hnames _ Hx').
  rewrite Hlog in Hnames. discriminate Hnames.
Qed.

(** The names of the files written before and after the shards. *)
Lemma names_before_shards (branch : string) (files : list File.t) :
  map fst (index_writes branch files ++ lists_log files
           ++ snd (writePack files "ai-pack-docs" docs_predicate)
           ++ snd (writePack files "ai-pack-data-config" data_config_predicate)
           ++ snd (writePack files "ai-pack-core" core_predicate)
           ++ snd (writePack files "ai-pack-ci" ci_predicate))
  = [ "docs/ai-index.json"; "docs/ai-index.min.json";
      "docs/ai-docs-list.json"; "docs/ai-docs-list.min.json"; "docs/ai-docs-list.html";
      "docs/ai-data-list.json"; "docs/ai-data-list.min.json"; "docs/ai-data-list.html";
      "docs/ai-data-config-list.json"; "docs/ai-data-config-list.min.json";
      "docs/ai-data-config-list.html";
      "docs/ai-pack-docs.json"; "docs/ai-pack-docs.min.json"; "docs/ai-pack-docs.txt";
      "docs/ai-pack-data-config.json"; "docs/ai-pack-data-config.min.json";
      "docs/ai-pack-data-config.txt";
      "docs/ai-pack-core.json"; "docs/ai-pack-core.min.json"; "docs/ai-pack-core.txt";
      "docs/ai-pack-ci.json"; "docs/ai-pack-ci.min.json"; "docs/ai-pack-ci.txt" ].
Proof. reflexivity. Qed.

Lemma names_after_shards (sections : list (string * CombinedSection.t))
    (catalog : list CatalogEntry.t) :
  map fst (combined_writes sections ++ catalog_writes catalog)
  = [ "docs/ai-pack-all.json"; "docs/ai-pack-all.min.json"; "docs/ai-pack-all.txt";
      "docs/ai-pack-all.html"; "docs/ai-pack-catalog.json"; "docs/ai-pack-catalog.min.json" ].
Proof. reflexivity. Qed.

Lemma log_split (branch : string) (files : list File.t) (rest : list write) :
  log_before_combined branch files ++ rest
  = (index_writes branch files ++ lists_log files
     ++ snd (writePack files "ai-pack-docs" docs_predicate)
     ++ snd (writePack files "ai-pack-data-config" data_config_predicate)
     ++ snd (writePack files "ai-pack-core" core_predicate)
     ++ snd (writePack files "ai-pack-ci" ci_predicate))
    ++ snd (writeEverythingSharded files) ++ rest.
Proof.
  unfold log_before_combined, packs_log. now rewrite <- !app_assoc.
Qed.

Lemma names_of_combined (sections : list (string * CombinedSection.t)) :
  map fst (combined_writes sections)
  = [ "docs/ai-pack-all.json"; "docs/ai-pack-all.min.json"; "docs/ai-pack-all.txt";
      "docs/ai-pack-all.html" ].
Proof. reflexivity. Qed.

Lemma NoDup_three (A E B : list write) :
  bool_decide (NoDup (map fst A ++ map fst B)) = true ->
  NoDup (map fst E) ->
  (forall x, x ∈ map fst E -> x ∉ map fst A ++ map fst B) ->
  NoDup (map fst (A ++ E ++ B)).
Proof.
  intros HAB HE Hdis. rewrite !map_app. apply NoDup_around; [|exact HE|exact Hdis].
  now apply bool_decide_eq_true in HAB.
Qed.

Lemma main_log_NoDup (branch : string) (files : list File.t)
    (store : gmap string jsstring) :
  NoDup (map fst (outcome_log (main branch files store))).
Proof.
  unfold main. cbv zeta.
  destruct (combined_sections _) as [sections|].
  - destruct (combined_count _ _ _) as [[count|]|]; cbn [outcome_log].
    + rewrite <- app_assoc, log_split. apply NoDup_three.
      * rewrite names_before_shards, names_after_shards. vm_compute. reflexivity.
      * apply sharded_files_once.
      * apply everything_names_apart.
        rewrite names_before_shards, names_after_shards. vm_compute. reflexivity.
    + constructor.
    + rewrite log_split. apply NoDup_three.
      * rewrite names_before_shards, names_of_combined. vm_compute. reflexivity.
      * apply sharded_files_once.
      * apply everything_names_apart.
        rewrite names_before_shards, names_of_combined. vm_compute. reflexivity.
  - cbn [outcome_log]. rewrite <- (app_nil_r (log_before_combined branch files)), log_split.
    apply NoDup_three.
    + rewrite names_before_shards. vm_compute. reflexivity.
    + apply sharded_files_once.
    + apply everything_names_apart. rewrite names_before_shards. vm_compute. reflexivity.
Qed.

(** X23.  A run writes no file twice, whether it completes or is cut
    short: the index, the lists, the packs, the shards, the combined pack
    and the catalog all have names of their own.  So every file holds at
    the end what the one write to it wrote. *)
Theorem run_writes_each_file_once
    (branch : string) (files : list File.t) (store : gmap string jsstring) :
  List.NoDup (map fst (outcome_log (main branch files store)))
  /\ forall k v, In (k, v) (outcome_log (main branch files store)) ->
       replay (outcome_log (main branch files store)) store !! k = Some v.
Proof.
  pose proof (main_log_NoDup branch files store) as Hnd.
  split; [now apply NoDup_ListNoDup|].
  intros k v Hin. rewrite replay_lookup.
  now rewrite (last_write_NoDup k v _ Hnd Hin).
Qed.


End Properties.

(** * The properties on the sample repository *)

Ltac in_list := repeat first [left; reflexivity | right].

Ltac sample_pack_item name :=
  apply (pack_item_emitted (rt := sample_runtime) sample_files name);
  [ simpl; tauto | vm_compute; in_list | vm_compute; reflexivity ].

Ltac sample_everything_item :=
  apply (everything_item_emitted (rt := sample_runtime) sample_files);
  [ vm_compute; in_list | vm_compute; reflexivity ].

(** The sizes git lists for the sample repository are the lengths of its
    blobs, and the large ones are above the thresholds. *)
Example sample_sizes :
  map (fun f => option_map (fun b => N.of_nat (length b)) (sample_git_show (File.path f)))
      sample_files
  = map (fun f => Some (File.size f)) sample_files
  /\ INLINE_TEXT_BYTES = 614400 /\ INLINE_BIN_BYTES = 204800
  /\ SHARD_TARGET_BYTES = 4194304.
Proof. split; [vm_compute; reflexivity | repeat split]. Qed.

(** A thousand and one files make two full shards and one of a single
    item; a thousand make two and no empty third; none makes none. *)
Example shards_by_item_cap :
  map Pack.count (emitted (shard_run (rt := sample_runtime) (unreadable_files (N.to_nat 1001))))
    = [500; 500; 1]
  /\ map Pack.count (emitted (shard_run (rt := sample_runtime) (unreadable_files (N.to_nat 1000))))
    = [500; 500]
  /\ emitted (shard_run (rt := sample_runtime) []) = [].
Proof. repeat split; vm_compute; reflexivity. Qed.

(** The preview theorem applies to the large JSON array of the sample
    repository. *)
Lemma preview_hash_witness :
  emitted_item (rt := sample_runtime) sample_files breeds_item
  /\ Item.inline_state breeds_item = preview
  /\ exists f buf,
       In f sample_files /\ Item.path breeds_item = File.path f
       /\ gitShow (rt := sample_runtime) (File.path f) = Some buf
       /\ Item.content_sha256 breeds_item = Some (@sha256 sample_runtime buf)
       /\ Item.content breeds_item = Some (toString_utf8 (slice0 buf PREVIEW_TEXT_BYTES))
       /\ (@sha256 sample_runtime (slice0 buf PREVIEW_TEXT_BYTES) <> @sha256 sample_runtime buf ->
           Item.content_sha256 breeds_item
           <> Some (@sha256 sample_runtime (slice0 buf PREVIEW_TEXT_BYTES))).
Proof.
  assert (Hem : emitted_item (rt := sample_runtime) sample_files breeds_item)
    by sample_pack_item "ai-pack-data-config".
  assert (Hstate : Item.inline_state breeds_item = preview)
    by (vm_compute; reflexivity).
  split; [exact Hem|]. split; [exact Hstate|].
  exact (preview_hash_is_of_full_file (rt := sample_runtime) sample_files breeds_item
           Hem Hstate).
Defined.



(** The bytes of the guide are well-formed, and its content written out
    has the twelve bytes of the file. *)
Example guide_is_well_formed :
  WellFormedUtf8 (buffer_of_string "Guide: caf" ++ [xc3; xa9])
  /\ byteLength (toString_utf8 (buffer_of_string "Guide: caf" ++ [xc3; xa9])) = 12.
Proof.
  split; [|vm_compute; reflexivity].
  cbn. repeat (apply wf_ascii; [vm_compute; reflexivity|]).
  apply wf_two; [vm_compute; split; discriminate ..|]. constructor.
Qed.

(** The budget theorem applies to the large JSON array. *)
Lemma preview_budget_witness :
  emitted_item (rt := sample_runtime) sample_files breeds_item
  /\ Item.inline_state breeds_item = preview
  /\ exists c,
       Item.content breeds_item = Some c
       /\ Item.inline_bytes breeds_item = Some (N.of_nat (length c))
       /\ N.of_nat (length c) <= PREVIEW_TEXT_BYTES
       /\ PREVIEW_TEXT_BYTES = 65536.
Proof.
  assert (Hem : emitted_item (rt := sample_runtime) sample_files breeds_item)
    by sample_pack_item "ai-pack-data-config".
  assert (Hstate : Item.inline_state breeds_item = preview)
    by (vm_compute; reflexivity).
  split; [exact Hem|]. split; [exact Hstate|].
  exact (preview_within_budget (rt := sample_runtime) sample_files breeds_item Hem Hstate).
Defined.

(** The large binary file of the sample repository has the state
    [none] and none of the three fields. *)
Example photo_item_is_metadata_only :
  emitted_item (rt := sample_runtime) sample_files photo_item
  /\ Item.inline_state photo_item = none
  /\ Item.encoding photo_item = None /\ Item.content photo_item = None
  /\ Item.content_sha256 photo_item = None
  /\ emitted_prop "encoding" photo_item = None
  /\ emitted_prop "content" photo_item = None
  /\ emitted_prop "content_sha256" photo_item = None.
Proof.
  assert (Hem : emitted_item (rt := sample_runtime) sample_files photo_item)
    by sample_everything_item.
  assert (Hstate : Item.inline_state photo_item = none) by (vm_compute; reflexivity).
  split; [exact Hem|]. split; [exact Hstate|].
  exact (proj1 (inline_fields_by_state (rt := sample_runtime) sample_files photo_item Hem)
               Hstate).
Qed.

(** The two long documents are text that is always embedded in full;
    one is decoded, the decoding of the other throws. *)
Lemma big_item_built :
  big_item
  = make_item big_file
      (mkLocals full (Some utf8) (Some (toString_utf8 big_buffer))
                (Some (@sha256 large_runtime big_buffer)) None).
Proof.
  apply (full_text_item (rt := large_runtime) big_file big_buffer).
  - reflexivity.
  - reflexivity.
  - reflexivity.
  - exact big_buffer_fits.
Qed.

Lemma huge_item_built :
  huge_item = make_item huge_file full_text_thrown
  /\ everything_item (rt := large_runtime) huge_file = huge_item.
Proof.
  assert (H : pack_item (rt := large_runtime) huge_file
              = make_item huge_file full_text_thrown
              /\ everything_item (rt := large_runtime) huge_file
                 = make_item huge_file full_text_thrown).
  { apply (thrown_item (rt := large_runtime) huge_file huge_buffer).
    - reflexivity.
    - reflexivity.
    - reflexivity.
    - exact huge_buffer_too_long. }
  destruct H as [Hp He]. unfold huge_item. rewrite Hp, He. split; reflexivity.
Qed.

Lemma big_item_bytes : item_bytes big_item = 2200000.
Proof.
  rewrite big_item_built.
  change (N.of_nat (length (toString_utf8 big_buffer)) = 2200000).
  rewrite big_buffer_decoded, repeat_length. apply N2Nat.id.
Qed.

Lemma readme_item_bytes : item_bytes readme_item = 9.
Proof. reflexivity. Qed.

(** C2, as stated, fails on a text outside ASCII: [docs/big.md] holds
    2,200,000 times the letter U+00E9, which are 4,400,000 bytes, above
    the target of 4,194,304.  It is embedded in full, the running total
    after it is the 2,200,000 code units of its content, and the shard
    stays open: the README that follows goes to the same shard. *)
Lemma shard_stays_open_past_target :
  map Pack.items (emitted (shard_run (rt := large_runtime) big_files))
  = [[big_item; readme_item]]
  /\ gitShow (rt := large_runtime) (Item.path big_item) = Some big_buffer
  /\ N.of_nat (length big_buffer) = 4400000
  /\ Item.size big_item = 4400000
  /\ Item.inline_state big_item = full
  /\ Item.content big_item = Some (repeat 233 (N.to_nat 2200000))
  /\ Item.inline_bytes big_item = Some 2200000
  /\ shard_bytes [big_item] = 2200000
  /\ content_bytes [big_item] = 4400000
  /\ SHARD_TARGET_BYTES = 4194304
  /\ ~ (forall (rt : Runtime) files p k,
          In p (emitted (shard_run files)) -> (k < length (Pack.items p))%nat ->
          content_bytes (firstn k (Pack.items p)) < SHARD_TARGET_BYTES).
Proof.
  assert (Hshards : map Pack.items (emitted (shard_run (rt := large_runtime) big_files))
                    = [[big_item; readme_item]]).
  { apply (one_shard_below_thresholds (rt := large_runtime) big_files).
    - discriminate.
    - change (threshold_reached [big_item; readme_item] = false).
      unfold threshold_reached.
      change (shard_bytes [big_item; readme_item])
        with (item_bytes big_item + (item_bytes readme_item + 0)).
      change (length [big_item; readme_item]) with 2%nat.
      rewrite big_item_bytes, readme_item_bytes. reflexivity. }
  pose proof (make_item_full big_file (Some utf8)
                (Some (toString_utf8 big_buffer))
                (Some (@sha256 large_runtime big_buffer))) as Hfields.
  cbn zeta in Hfields. rewrite <- big_item_built in Hfields.
  destruct Hfields as (Hpath & Hsize & Hstate & _ & Hcontent & Hinline & _).
  assert (Hbytes : content_bytes [big_item] = 4400000).
  { unfold content_bytes, fold_right. rewrite Hcontent, big_buffer_decoded.
    rewrite byteLength_accents, N2Nat.id. reflexivity. }
  split; [exact Hshards|].
  split; [rewrite Hpath; reflexivity|].
  split; [exact big_buffer_length|].
  split; [rewrite Hsize; reflexivity|].
  split; [exact Hstate|].
  split; [rewrite Hcontent, big_buffer_decoded; reflexivity|].
  split; [rewrite Hinline; unfold content_length;
          rewrite big_buffer_decoded, repeat_length, N2Nat.id; reflexivity|].
  split; [unfold shard_bytes, fold_right; rewrite big_item_bytes; reflexivity|].
  split; [exact Hbytes|].
  split; [reflexivity|].
  intros Hall.
  destruct (emitted (shard_run (rt := large_runtime) big_files)) as [|p [|q l]] eqn:Hem;
    try discriminate Hshards.
  injection Hshards as Hp.
  specialize (Hall large_runtime big_files p 1%nat).
  rewrite Hem, Hp in Hall.
  assert (Hlt : content_bytes [big_item] < SHARD_TARGET_BYTES).
  { apply Hall; [left; reflexivity | cbn [length]; lia]. }
  rewrite Hbytes in Hlt. cbv in Hlt. discriminate Hlt.
Qed.

(** C6.  An item whose state is [none] has no [encoding], no [content]
    and no [content_sha256], as claimed; but the converse fails.
    [docs/huge.md] is a document of 536,870,889 bytes, more than a
    string holds: [inline_state] and [encoding] are assigned before
    [buf.toString("utf8")] throws, and the [catch], whose comment reads
    "metadata only", leaves them.  The item written has the state
    [full] and the encoding [utf8], an [inline_bytes] of 0, and neither
    [content] nor [content_sha256]; both loops build it. *)
Theorem full_item_without_content :
  (forall (rt : Runtime) (files : list File.t) (it : Item.t),
      emitted_item files it -> Item.inline_state it = none ->
      Item.encoding it = None /\ Item.content it = None
      /\ Item.content_sha256 it = None
      /\ emitted_prop "encoding" it = None /\ emitted_prop "content" it = None
      /\ emitted_prop "content_sha256" it = None)
  /\ emitted_item (rt := large_runtime) huge_files huge_item
  /\ everything_item (rt := large_runtime) huge_file = huge_item
  /\ gitShow (rt := large_runtime) (Item.path huge_item) = Some huge_buffer
  /\ N.of_nat (length huge_buffer) = 536870889
  /\ @string_too_long large_runtime huge_buffer = true
  /\ Item.inline_state huge_item = full
  /\ Item.encoding huge_item = Some utf8
  /\ Item.inline_bytes huge_item = Some 0
  /\ Item.content huge_item = None
  /\ Item.content_sha256 huge_item = None
  /\ emitted_prop "inline_state" huge_item = Some (JStr "full")
  /\ emitted_prop "encoding" huge_item = Some (JStr "utf8")
  /\ emitted_prop "inline_bytes" huge_item = Some (JNum 0)
  /\ emitted_prop "content" huge_item = None
  /\ emitted_prop "content_sha256" huge_item = None.
Proof.
  split.
  { intros rt files it Hem. exact (proj1 (inline_fields_by_state files it Hem)). }
  split.
  { apply (pack_item_emitted (rt := large_runtime) huge_files "ai-pack-docs" huge_file);
      [ simpl; tauto | left; reflexivity | reflexivity ]. }
  destruct huge_item_built as [Hbuilt Hsame].
  split; [exact Hsame|].
  rewrite Hbuilt.
  split; [reflexivity|].
  split; [exact huge_buffer_length|].
  split; [exact huge_buffer_too_long|].
  repeat split; reflexivity.
Qed.

(** C7, at a JSON file whose top-level value is [null]:
    [data/empty.json] holds [null] followed by spaces, 700,000 bytes in
    all.  It is embedded as a preview, the whole of it parses to [null],
    and the hint written for it has the type ["object"] and no keys. *)
Theorem null_json_hint_says_object :
  emitted_item (rt := sample_runtime) sample_files null_item
  /\ Item.path null_item = "data/empty.json"
  /\ Item.size null_item = 700000
  /\ Item.inline_state null_item = preview
  /\ @JSON_parse sample_runtime (toString_utf8 (padded "null")) = Some JNull
  /\ Item.json_hint null_item = Some (ShapeHint.mk "object" None None None)
  /\ emitted_prop "json_hint" null_item = Some (JObject [(key "type", JStr "object")]).
Proof.
  split; [sample_pack_item "ai-pack-data-config"|].
  assert (H : (Item.path null_item, Item.size null_item, Item.inline_state null_item,
               @JSON_parse sample_runtime (toString_utf8 (padded "null")),
               Item.json_hint null_item, emitted_prop "json_hint" null_item)
              = ("data/empty.json", 700000, preview, Some JNull,
                 Some (ShapeHint.mk "object" None None None),
                 Some (JObject [(key "type", JStr "object")])))
    by (vm_compute; reflexivity).
  apply pair_equal_spec in H as [H H6]. apply pair_equal_spec in H as [H H5].
  apply pair_equal_spec in H as [H H4]. apply pair_equal_spec in H as [H H3].
  apply pair_equal_spec in H as [H1 H2].
  exact (conj H1 (conj H2 (conj H3 (conj H4 (conj H5 H6))))).
Qed.

(** The same preview of a JSON array and of a file that is not JSON: the
    hint has the length and the first three elements; there is no hint,
    and the item is written all the same. *)
Example array_and_broken_json_hints :
  Item.json_hint breeds_item
  = Some (ShapeHint.mk "array" (Some 4) (Some [JNum 1; JNum 2; JNum 3]) None)
  /\ Item.inline_state (pack_item (rt := sample_runtime) (sample_file "data/broken.json"))
     = preview
  /\ Item.json_hint (pack_item (rt := sample_runtime) (sample_file "data/broken.json"))
     = None
  /\ emitted_prop "json_hint"
       (pack_item (rt := sample_runtime) (sample_file "data/broken.json")) = None.
Proof.
  assert (H : (Item.json_hint breeds_item,
               Item.inline_state (pack_item (rt := sample_runtime) (sample_file "data/broken.json")),
               Item.json_hint (pack_item (rt := sample_runtime) (sample_file "data/broken.json")),
               emitted_prop "json_hint"
                 (pack_item (rt := sample_runtime) (sample_file "data/broken.json")))
              = (Some (ShapeHint.mk "array" (Some 4) (Some [JNum 1; JNum 2; JNum 3]) None),
                 preview, None, None))
    by (vm_compute; reflexivity).
  apply pair_equal_spec in H as [H H4]. apply pair_equal_spec in H as [H H3].
  apply pair_equal_spec in H as [H1 H2].
  exact (conj H1 (conj H2 (conj H3 H4))).
Qed.

(** C8, on a working directory that holds [.git/HEAD],
    [.github/workflows/pages.yml], [.gitignore], [.nojekyll],
    [README.md] and [docs/guide.md], when git lists nothing: the walk
    leaves out [.github] and [.gitignore] along with [.git], and lists
    [.nojekyll] under the path [nojekyll]. *)
Theorem walk_skips_every_dot_git_name :
  map (fun f => (File.path f, File.size f, File.git_blob_sha f))
      (gather (rt := sample_runtime) [] sample_cwd)
  = [("nojekyll", 0, EmptyString); ("README.md", 9, EmptyString);
     ("docs/guide.md", 12, EmptyString)].
Proof. vm_compute. reflexivity. Qed.

(** C9 applies to the small repository, written to an empty [docs/]:
    the four packs read back as written, and the section of the docs
    pack has its count. *)
Lemma combined_counts_witness :
  In "ai-pack-docs" pack_names
  /\ (forall n, In n pack_names ->
       @JSON_parse sample_runtime
         (@JSON_stringify sample_runtime
            (pack_to_json (rt := sample_runtime)
               (fst (writePack (rt := sample_runtime) small_files n (predicate_of n)))))
       = Some (pack_to_json (rt := sample_runtime)
                 (fst (writePack (rt := sample_runtime) small_files n (predicate_of n)))))
  /\ exists sections sec text p,
       run_combined (rt := sample_runtime) small_files ∅ = Some sections
       /\ section_of "ai-pack-docs" sections = Some sec
       /\ replay (packs_log (rt := sample_runtime) small_files) ∅
            !! ("docs/" +:+ "ai-pack-docs" +:+ ".min.json") = Some text
       /\ @JSON_parse sample_runtime text = Some p
       /\ get_prop (key "count") (json_props p)
          = Some (JNum (Pack.count (fst (writePack (rt := sample_runtime) small_files
                                          "ai-pack-docs" (predicate_of "ai-pack-docs")))))
       /\ CombinedSection.count sec
          = Some (JNum (Pack.count (fst (writePack (rt := sample_runtime) small_files
                                          "ai-pack-docs" (predicate_of "ai-pack-docs")))))
       /\ CombinedSection.items sec
          = JArray (map (item_to_json)
                      (Pack.items (fst (writePack (rt := sample_runtime) small_files
                                          "ai-pack-docs" (predicate_of "ai-pack-docs"))))).
Proof.
  assert (Hname : In "ai-pack-docs" pack_names) by (simpl; tauto).
  assert (Hround : forall n, In n pack_names ->
    @JSON_parse sample_runtime
      (@JSON_stringify sample_runtime
         (pack_to_json (rt := sample_runtime)
            (fst (writePack (rt := sample_runtime) small_files n (predicate_of n)))))
    = Some (pack_to_json (rt := sample_runtime)
              (fst (writePack (rt := sample_runtime) small_files n (predicate_of n))))).
  { intros n [<- | [<- | [<- | [<- | []]]]]; vm_compute; reflexivity. }
  split; [exact Hname|]. split; [exact Hround|].
  exact (combined_counts_match_packs (rt := sample_runtime) small_files ∅ "ai-pack-docs"
           Hname Hround).
Defined.

(** The combined pack of the small repository: one document, one data
    file, no core file and one workflow. *)
Example combined_counts_of_small_repository :
  option_map (map (fun s => (fst s, CombinedSection.count (snd s))))
             (run_combined (rt := sample_runtime) small_files ∅)
  = Some [("ai-pack-docs", Some (JNum 1)); ("ai-pack-data-config", Some (JNum 1));
          ("ai-pack-core", Some (JNum 0)); ("ai-pack-ci", Some (JNum 1))].
Proof. vm_compute. reflexivity. Qed.

(** * Further properties on the sample repository *)

(** X2 applies to the README of the sample repository. *)
Lemma loops_build_the_same_item_witness :
  String.eqb (toLowerCase (File.path (sample_file "README.md"))) "json" = false
  /\ everything_item (rt := sample_runtime) (sample_file "README.md")
     = pack_item (rt := sample_runtime) (sample_file "README.md").
Proof.
  assert (H : String.eqb (toLowerCase (File.path (sample_file "README.md"))) "json" = false)
    by (vm_compute; reflexivity).
  split; [exact H|].
  exact (loops_build_the_same_item (rt := sample_runtime) (sample_file "README.md") H).
Defined.

(** X3 applies to a file named [JSON] that git lists with 700,000
    bytes. *)
Lemma loops_differ_on_bare_json_witness :
  toLowerCase (File.path (large_file "JSON")) = "json"
  /\ INLINE_TEXT_BYTES < File.size (large_file "JSON")
  /\ gitShow (rt := terse_runtime) (File.path (large_file "JSON"))
     = Some (buffer_of_string "[1]")
  /\ Item.inline_state (pack_item (rt := terse_runtime) (large_file "JSON")) = preview
  /\ Item.json_hint (pack_item (rt := terse_runtime) (large_file "JSON"))
     = jsonShapeHint (rt := terse_runtime) (buffer_of_string "[1]")
  /\ Item.inline_state (everything_item (rt := terse_runtime) (large_file "JSON")) = preview
  /\ Item.json_hint (everything_item (rt := terse_runtime) (large_file "JSON")) = None.
Proof.
  assert (H1 : toLowerCase (File.path (large_file "JSON")) = "json") by reflexivity.
  assert (H2 : INLINE_TEXT_BYTES < File.size (large_file "JSON")) by reflexivity.
  assert (H3 : gitShow (rt := terse_runtime) (File.path (large_file "JSON"))
               = Some (buffer_of_string "[1]")) by reflexivity.
  split; [exact H1|]. split; [exact H2|]. split; [exact H3|].
  exact (loops_differ_on_bare_json (rt := terse_runtime) (large_file "JSON") _ H1 H2 H3).
Defined.

(** X5 applies to a document under [docs/] listed with 700,000 bytes. *)
Lemma always_full_text_witness :
  alwaysFullText (File.path (large_file "docs/guide.md")) = true
  /\ isTextPath (File.path (large_file "docs/guide.md")) = true
  /\ gitShow (rt := terse_runtime) (File.path (large_file "docs/guide.md"))
     = Some (buffer_of_string "[1]")
  /\ everything_item (rt := terse_runtime) (large_file "docs/guide.md")
     = pack_item (rt := terse_runtime) (large_file "docs/guide.md")
  /\ Item.inline_state (pack_item (rt := terse_runtime) (large_file "docs/guide.md")) = full
  /\ Item.encoding (pack_item (rt := terse_runtime) (large_file "docs/guide.md")) = Some utf8
  /\ (@string_too_long terse_runtime (buffer_of_string "[1]") = false ->
      Item.content (pack_item (rt := terse_runtime) (large_file "docs/guide.md"))
      = Some (toString_utf8 (buffer_of_string "[1]"))
      /\ Item.content_sha256 (pack_item (rt := terse_runtime) (large_file "docs/guide.md"))
         = Some (@sha256 terse_runtime (buffer_of_string "[1]"))
      /\ Item.inline_bytes (pack_item (rt := terse_runtime) (large_file "docs/guide.md"))
         = Some (N.of_nat (length (toString_utf8 (buffer_of_string "[1]")))))
  /\ (@string_too_long terse_runtime (buffer_of_string "[1]") = true ->
      Item.content (pack_item (rt := terse_runtime) (large_file "docs/guide.md")) = None
      /\ Item.content_sha256 (pack_item (rt := terse_runtime) (large_file "docs/guide.md"))
         = None
      /\ Item.inline_bytes (pack_item (rt := terse_runtime) (large_file "docs/guide.md"))
         = Some 0).
Proof.
  assert (H1 : alwaysFullText (File.path (large_file "docs/guide.md")) = true)
    by (vm_compute; reflexivity).
  assert (H2 : isTextPath (File.path (large_file "docs/guide.md")) = true)
    by (vm_compute; reflexivity).
  assert (H3 : gitShow (rt := terse_runtime) (File.path (large_file "docs/guide.md"))
               = Some (buffer_of_string "[1]")) by reflexivity.
  split; [exact H1|]. split; [exact H2|]. split; [exact H3|].
  exact (always_full_text_is_never_cut (rt := terse_runtime)
           (large_file "docs/guide.md") _ H1 H2 H3).
Defined.

(** X6 applies to a large JSON file: its three bytes are ASCII. *)
Lemma preview_prefix_witness :
  gitShow (rt := terse_runtime) (File.path (large_file "data/big.json"))
  = Some (buffer_of_string "[1]")
  /\ Item.inline_state (pack_item (rt := terse_runtime) (large_file "data/big.json")) = preview
  /\ WellFormedUtf8 (slice0 (buffer_of_string "[1]") PREVIEW_TEXT_BYTES)
  /\ exists c,
       Item.content (pack_item (rt := terse_runtime) (large_file "data/big.json")) = Some c
       /\ Item.content (everything_item (rt := terse_runtime) (large_file "data/big.json"))
          = Some c
       /\ toString_utf8 (buffer_of_string "[1]")
          = c ++ toString_utf8 (skipn (N.to_nat PREVIEW_TEXT_BYTES) (buffer_of_string "[1]")).
Proof.
  assert (H1 : gitShow (rt := terse_runtime) (File.path (large_file "data/big.json"))
               = Some (buffer_of_string "[1]")) by reflexivity.
  assert (H2 : Item.inline_state (pack_item (rt := terse_runtime)
                                    (large_file "data/big.json")) = preview)
    by (vm_compute; reflexivity).
  assert (H3 : WellFormedUtf8 (slice0 (buffer_of_string "[1]") PREVIEW_TEXT_BYTES)).
  { change (WellFormedUtf8 [x5b; x31; x5d]).
    repeat (apply wf_ascii; [vm_compute; reflexivity|]). constructor. }
  split; [exact H1|]. split; [exact H2|]. split; [exact H3|].
  exact (preview_is_a_prefix_of_the_text (rt := terse_runtime)
           (large_file "data/big.json") _ H1 H2 H3).
Defined.

(** X7 applies to the icon of the sample repository: three bytes, four
    characters. *)
Lemma base64_item_length_witness :
  gitShow (rt := sample_runtime) (File.path (sample_file "favicon.ico"))
  = Some [x00; x01; xfe]
  /\ Item.encoding (pack_item (rt := sample_runtime) (sample_file "favicon.ico"))
     = Some base64
  /\ Item.inline_bytes (pack_item (rt := sample_runtime) (sample_file "favicon.ico"))
     = Some (N.of_nat (4 * ((length [x00; x01; xfe] + 2) / 3)))
  /\ Item.inline_bytes (everything_item (rt := sample_runtime) (sample_file "favicon.ico"))
     = Some (N.of_nat (4 * ((length [x00; x01; xfe] + 2) / 3))).
Proof.
  assert (H1 : gitShow (rt := sample_runtime) (File.path (sample_file "favicon.ico"))
               = Some [x00; x01; xfe]) by (vm_compute; reflexivity).
  assert (H2 : Item.encoding (pack_item (rt := sample_runtime) (sample_file "favicon.ico"))
               = Some base64) by (vm_compute; reflexivity).
  split; [exact H1|]. split; [exact H2|].
  exact (base64_item_length (rt := sample_runtime) (sample_file "favicon.ico") _ H1 H2).
Defined.

(** X9 applies to the sample working directory. *)
Lemma walk_witness :
  Forall (fun e => String.eqb (ent_name e) "." = false) sample_cwd
  /\ walk (rt := sample_runtime) "." sample_cwd
     = map (walk_record (rt := sample_runtime))
         (flat_map (tree_files ".")
            (List.filter (fun e => negb (startsWith (ent_name e) ".git")) sample_cwd))
  /\ map File.path (walk (rt := sample_runtime) "." sample_cwd)
     = map (fun file => strip_dot (fst file))
         (flat_map (tree_files ".")
            (List.filter (fun e => negb (startsWith (ent_name e) ".git")) sample_cwd))
  /\ map File.size (walk (rt := sample_runtime) "." sample_cwd)
     = flat_map tree_sizes
         (List.filter (fun e => negb (startsWith (ent_name e) ".git")) sample_cwd)
  /\ Forall (fun f => File.git_blob_sha f = EmptyString)
            (walk (rt := sample_runtime) "." sample_cwd).
Proof.
  assert (H : Forall (fun e => String.eqb (ent_name e) "." = false) sample_cwd)
    by (repeat constructor).
  split; [exact H|].
  exact (walk_lists_all_but_dot_git_names (rt := sample_runtime) sample_cwd H).
Defined.

(** The joined paths and the sizes of the files the walk of the sample
    working directory lists. *)
Example sample_tree_files :
  flat_map (tree_files ".")
    (List.filter (fun e => negb (startsWith (ent_name e) ".git")) sample_cwd)
  = [(".nojekyll", 0); ("README.md", 9); ("docs/guide.md", 12)].
Proof. reflexivity. Qed.

(** X10 applies to a path of two segments. *)
Lemma enc_keeps_segments_witness :
  forallb (fun seg => negb (has_char "/" (@encodeURIComponent sample_runtime seg)))
          (split "docs/guide.md" "/") = true
  /\ split (enc (rt := sample_runtime) "docs/guide.md") "/"
     = map (@encodeURIComponent sample_runtime) (split "docs/guide.md" "/").
Proof.
  assert (H : forallb (fun seg => negb (has_char "/" (@encodeURIComponent sample_runtime seg)))
                      (split "docs/guide.md" "/") = true) by reflexivity.
  split; [exact H|].
  exact (enc_keeps_segments (rt := sample_runtime) "docs/guide.md" H).
Defined.

(** X14 applies to the one shard of a repository of one file. *)
Lemma manifest_entries_witness :
  In first_shard (fst (fst (writeEverythingSharded (rt := sample_runtime) (unreadable_files 1))))
  /\ exists p,
       In p (snd (fst (writeEverythingSharded (rt := sample_runtime) (unreadable_files 1))))
       /\ ShardInfo.count first_shard = N.of_nat (length (Pack.items p))
       /\ ShardInfo.approx_bytes first_shard
          = N.of_nat (length (@JSON_stringify sample_runtime
                                (pack_to_json (rt := sample_runtime) p)))
       /\ replay (snd (writeEverythingSharded (rt := sample_runtime) (unreadable_files 1))) ∅
            !! ("docs/" +:+ ShardInfo.name first_shard +:+ ".min.json")
          = Some (@JSON_stringify sample_runtime (pack_to_json (rt := sample_runtime) p))
       /\ replay (snd (writeEverythingSharded (rt := sample_runtime) (unreadable_files 1))) ∅
            !! ("docs/" +:+ ShardInfo.name first_shard +:+ ".txt")
          = Some (@JSON_stringify sample_runtime (pack_to_json (rt := sample_runtime) p))
       /\ replay (snd (writeEverythingSharded (rt := sample_runtime) (unreadable_files 1))) ∅
            !! ("docs/" +:+ ShardInfo.name first_shard +:+ ".json")
          = Some (@JSON_stringify_pretty sample_runtime
                    (pack_to_json (rt := sample_runtime) p)).
Proof.
  assert (H : In first_shard
                (fst (fst (writeEverythingSharded (rt := sample_runtime)
                             (unreadable_files 1)))))
    by (vm_compute; left; reflexivity).
  split; [exact H|].
  exact (manifest_entries_name_their_files (rt := sample_runtime)
           (unreadable_files 1) ∅ first_shard H).
Defined.

(** X16 applies to the first file the run on an empty repository
    writes, the master index. *)
Lemma outputs_are_never_packed_witness :
  In (List.hd (EmptyString, []) (outcome_log empty_run)) (outcome_log empty_run)
  /\ File.path (large_file "docs/ai-index.json")
     = fst (List.hd (EmptyString, []) (outcome_log empty_run))
  /\ startsWith (fst (List.hd (EmptyString, []) (outcome_log empty_run))) "docs/ai-" = true
  /\ docs_predicate (large_file "docs/ai-index.json") = false
  /\ data_list_predicate (large_file "docs/ai-index.json") = false
  /\ data_config_predicate (large_file "docs/ai-index.json") = false
  /\ core_predicate (large_file "docs/ai-index.json") = false
  /\ ci_predicate (large_file "docs/ai-index.json") = false
  /\ everything_predicate (large_file "docs/ai-index.json") = false.
Proof.
  assert (H1 : In (List.hd (EmptyString, []) (outcome_log empty_run)) (outcome_log empty_run))
    by (vm_compute; left; reflexivity).
  assert (H2 : File.path (large_file "docs/ai-index.json")
               = fst (List.hd (EmptyString, []) (outcome_log empty_run)))
    by (vm_compute; reflexivity).
  split; [exact H1|]. split; [exact H2|].
  exact (outputs_are_never_packed (rt := sample_runtime) "main" [] ∅ _
           (large_file "docs/ai-index.json") H1 H2).
Defined.

(** X17 applies to the small repository, written to an empty [docs/]. *)
Lemma run_completes_witness :
  (forall n, In n pack_names ->
     @JSON_parse sample_runtime
       (@JSON_stringify sample_runtime
          (pack_to_json (rt := sample_runtime)
             (fst (writePack (rt := sample_runtime) small_files n (predicate_of n)))))
     = Some (pack_to_json (rt := sample_runtime)
               (fst (writePack (rt := sample_runtime) small_files n (predicate_of n)))))
  /\ exists log sections,
       main (rt := sample_runtime) "main" small_files ∅
       = Completed log
           (packs_catalog (rt := sample_runtime) small_files
            ++ [combined_catalog_entry (rt := sample_runtime)
                  (Some (fold_left
                     (fun x n => x + Pack.count (fst (writePack (rt := sample_runtime)
                                                        small_files n (predicate_of n))))
                     pack_names 0))
                  sections])
       /\ map fst sections = pack_names
       /\ map (fun s => CombinedSection.count (snd s)) sections
          = map (fun n => Some (JNum (Pack.count (fst (writePack (rt := sample_runtime)
                                                         small_files n (predicate_of n))))))
                pack_names.
Proof.
  assert (Hround : forall n, In n pack_names ->
    @JSON_parse sample_runtime
      (@JSON_stringify sample_runtime
         (pack_to_json (rt := sample_runtime)
            (fst (writePack (rt := sample_runtime) small_files n (predicate_of n)))))
    = Some (pack_to_json (rt := sample_runtime)
              (fst (writePack (rt := sample_runtime) small_files n (predicate_of n))))).
  { intros n [<- | [<- | [<- | [<- | []]]]]; vm_compute; reflexivity. }
  split; [exact Hround|].
  exact (run_completes_when_packs_read_back (rt := sample_runtime) "main" small_files ∅
           Hround).
Defined.

(** X18 applies to the run on an empty repository, which completes. *)
Lemma catalog_witness :
  empty_run = Completed (outcome_log empty_run) (outcome_catalog empty_run)
  /\ map CatalogEntry.name (outcome_catalog empty_run)
     = ["ai-pack-docs"; "ai-pack-data-config"; "ai-pack-core"; "ai-pack-ci";
        "ai-pack-everything (sharded)"; "ai-pack-all (combined)"]
  /\ (forall e k, In e (outcome_catalog empty_run) -> In k (CatalogEntry.files e) ->
                  In k (map fst (outcome_log empty_run)))
  /\ In ("docs/ai-pack-catalog.min.json",
         @JSON_stringify sample_runtime
           (catalog_to_json (rt := sample_runtime) (outcome_catalog empty_run)))
        (outcome_log empty_run).
Proof.
  assert (H : empty_run = Completed (outcome_log empty_run) (outcome_catalog empty_run))
    by (vm_compute; reflexivity).
  split; [exact H|].
  exact (catalog_lists_written_files (rt := sample_runtime) "main" [] ∅ _ _ H).
Defined.


(** X24 applies to the line of a blob of 1,234 bytes. *)
Lemma ls_tree_line_witness :
  match_line ("100644" +:+ " " +:+ "blob" +:+ " "
              +:+ "0123456789abcdef0123456789abcdef01234567" +:+ "    " +:+ "1234"
              +:+ String "009" "docs/guide.md")
  = Some ("0123456789abcdef0123456789abcdef01234567", number_of_digits 0 "1234",
          "docs/guide.md")
  /\ number_of_digits 0 "1234" = 1234.
Proof.
  split; [|reflexivity].
  apply (ls_tree_line_is_parsed "100644" " " "blob" " "
           "0123456789abcdef0123456789abcdef01234567" "    " "1234" "docs/guide.md");
    first [discriminate | reflexivity].
Defined.

(** X25 applies to the line of a submodule, whose size is a dash. *)
Lemma ls_tree_submodule_witness :
  match_line ("160000" +:+ " " +:+ "commit" +:+ " "
              +:+ "0123456789abcdef0123456789abcdef01234567" +:+ "       "
              +:+ String "-" (String "009" "vendor/lib"))
  = None.
Proof.
  apply (ls_tree_line_without_size_is_skipped "160000" " " "commit" " "
           "0123456789abcdef0123456789abcdef01234567" "       "
           (String "009" "vendor/lib") "-");
    first [discriminate | reflexivity].
Defined.

(** X26 applies to a listing of two lines. *)
Lemma ls_tree_lines_witness :
  ["100644 blob 0123456789abcdef0123456789abcdef01234567       9" +:+ String "009" "README.md";
   "160000 commit 0123456789abcdef0123456789abcdef01234567       -" +:+ String "009" "vendor"]
  <> []
  /\ ls_tree_lines
       (join (String "010" EmptyString)
          ["100644 blob 0123456789abcdef0123456789abcdef01234567       9"
             +:+ String "009" "README.md";
           "160000 commit 0123456789abcdef0123456789abcdef01234567       -"
             +:+ String "009" "vendor"])
     = [("0123456789abcdef0123456789abcdef01234567", 9, "README.md")].
Proof.
  split; [discriminate|].
  rewrite ls_tree_is_read_line_by_line by first [discriminate | reflexivity].
  reflexivity.
Defined.
